(** * Synthetic data generators of the GroupJoin baseline comparison

    A shallow embedding of the three generator scripts
    [data_gen.py], [random_data_gen_int_int.py] and
    [simple_data_gen_int_int.py], and the properties of their output.

    The scripts are imperative Python: they read [sys.argv], draw from the
    process-wide [random] source, print to the console and write the files
    [A.txt] and [B.txt].  All of that is threaded through an explicit
    [world]; a computation is a function from a world to an [outcome],
    which is a normal return, a raised exception, or an exhausted loop
    budget (the [while] loop of [data_gen.py] has no static bound). *)

From Stdlib Require Import ZArith Lia Bool Ascii String.
From Stdlib Require Import Floats.SpecFloat.
From stdpp Require Import base gmap sets list strings.

Local Open Scope Z_scope.

(** ** The world the scripts run in *)

(** Python exceptions the scripts can meet. *)
Inductive exn := IndexError | ValueError | OverflowError | IOError.

(** What may go wrong with one output file: nothing, [open] raising
    [IOError], or the write of line number [n] (counted from 0) raising it.
    The plan has no failure that surfaces only when the buffered file is
    flushed or closed, after every [write] was accepted. *)
Inductive io_fault := NoFault | OpenFails | WriteFails (n : nat).

(** One line of an output file: [f"{k},{v}\n"] or [f"{k}\n"]. *)
Inductive line := RowKV (k v : Z) | RowK (k : Z).

Definition line_key (l : line) : Z :=
  match l with RowKV k _ => k | RowK k => k end.

(** The two tables. *)
Inductive table := TableA | TableB.

Definition file_of (t : table) : string :=
  match t with TableA => "A.txt" | TableB => "B.txt" end.

(** Binary64 values, as the Standard Library specifies them. *)
Abbreviation float := spec_float.
Definition prec : Z := 53.
Definition emax : Z := 1024.

(** Console output, one constructor per [print] call of the scripts; the
    arguments are the values interpolated into the f-strings. *)
Inductive message :=
  | MsgTableRows (t : table) (n : Z)
  | MsgKeyUniqueness (f : float)
  | MsgInvalidArguments (e : exn)
  | MsgUsage (script : string)
  | MsgExample
  | MsgGeneratingKeyPool
  | MsgNoRows
  | MsgKeyPoolGenerated (t : table)
  | MsgStartingThreads
  | MsgAllTasksCompleted
  | MsgThreadStarting (t : table)
  | MsgThreadIOError (t : table)
  | MsgThreadCreated (t : table)
  | MsgThreadTraceback (t : table) (e : exn)
  | MsgRowsFromCommandLine (t : table) (n : Z)
  | MsgUsageRows (script : string)
  | MsgUsingDefaultRows (t : table) (n : Z)
  | MsgGeneratingFile (t : table)
  | MsgErrorWriting (t : table)
  | MsgFileCreated (t : table).

(** The random source is an oracle: an arbitrary infinite sequence of raw
    integers [w_draws] and a cursor [w_pos] into it.  Every library call
    that needs randomness consumes raw draws and reduces them to the range
    it was asked for, so every behaviour of a real generator is the
    behaviour of some oracle. *)
Record world := World {
  w_draws : nat -> Z;
  w_pos : nat;
  w_faults : string -> io_fault;
  w_fs : gmap string (list line);
  w_out : list message
}.

Inductive outcome (A : Type) :=
  | Done (a : A) (w : world)
  | Raised (e : exn) (w : world)
  | OutOfFuel.
Arguments Done {A} a w.
Arguments Raised {A} e w.
Arguments OutOfFuel {A}.

Definition M (A : Type) : Type := world -> outcome A.

Definition ret {A} (a : A) : M A := fun w => Done a w.

Definition bind {A B} (m : M A) (k : A -> M B) : M B :=
  fun w =>
    match m w with
    | Done a w' => k a w'
    | Raised e w' => Raised e w'
    | OutOfFuel => OutOfFuel
    end.

Definition raise {A} (e : exn) : M A := fun w => Raised e w.

Definition diverge {A} : M A := fun _ => OutOfFuel.

(** [try: m  except <handled>: h]. *)
Definition try_except {A} (m : M A) (handled : exn -> bool) (h : exn -> M A) : M A :=
  fun w =>
    match m w with
    | Raised e w' => if handled e then h e w' else Raised e w'
    | r => r
    end.

Declare Scope py_scope.
Delimit Scope py_scope with py.
Notation "x <- m ;; k" := (bind m (fun x => k))
  (at level 100, m at next level, right associativity) : py_scope.
Notation "m ;;; k" := (bind m (fun _ => k))
  (at level 100, right associativity) : py_scope.
Local Open Scope py_scope.

(** ** Console and files *)

Definition print (m : message) : M unit :=
  fun w => Done tt (World (w_draws w) (w_pos w) (w_faults w) (w_fs w) (w_out w ++ [m])).

(** [open(name, "w")]: creates or truncates the file. *)
Definition open_w (name : string) : M unit :=
  fun w =>
    match w_faults w name with
    | OpenFails => Raised IOError w
    | _ => Done tt (World (w_draws w) (w_pos w) (w_faults w) (<[name := []]> (w_fs w)) (w_out w))
    end.

Definition file_lines (name : string) (w : world) : list line :=
  default [] (w_fs w !! name).

(** [f.write(line)] on a file opened by [open_w]; a line is written at
    once and whole, or not at all. *)
Definition write (name : string) (l : line) : M unit :=
  fun w =>
    let old := file_lines name w in
    match w_faults w name with
    | WriteFails n =>
        if decide (length old = n) then Raised IOError w
        else Done tt (World (w_draws w) (w_pos w) (w_faults w) (<[name := old ++ [l]]> (w_fs w)) (w_out w))
    | _ => Done tt (World (w_draws w) (w_pos w) (w_faults w) (<[name := old ++ [l]]> (w_fs w)) (w_out w))
    end.

(** ** The [random] module *)

Definition random_raw : M Z :=
  fun w => Done (w_draws w (w_pos w))
                (World (w_draws w) (S (w_pos w)) (w_faults w) (w_fs w) (w_out w)).

(** [_randbelow(n)] for [n > 0]: an integer in [[0, n)]. *)
Definition randbelow (n : Z) : M Z :=
  r <- random_raw ;; ret (r mod n).

(** [random.randint(a, b)]: an integer in the closed range [[a, b]];
    [ValueError] on an empty range. *)
Definition randint (a b : Z) : M Z :=
  if decide (b < a) then raise ValueError
  else (r <- randbelow (b - a + 1) ;; ret (a + r)).

(** [random.choice(seq)]: [IndexError] on an empty sequence. *)
Definition choice (l : list Z) : M Z :=
  match l with
  | [] => raise IndexError
  | x :: _ =>
      j <- randbelow (Z.of_nat (length l)) ;;
      ret (nth (Z.to_nat j) l x)
  end.

(** [x[i], x[j] = x[j], x[i]] *)
Definition swap (x : list Z) (i j : nat) : list Z :=
  match x !! i, x !! j with
  | Some xi, Some xj => <[j := xi]> (<[i := xj]> x)
  | _, _ => x
  end.

(** [random.shuffle(x)] is
    [for i in reversed(range(1, len(x))): j = randbelow(i + 1); swap]. *)
Fixpoint shuffle_from (i : nat) (x : list Z) : M (list Z) :=
  match i with
  | O => ret x
  | S i' =>
      j <- randbelow (Z.of_nat (S i)) ;;
      shuffle_from i' (swap x i (Z.to_nat j))
  end.

Definition shuffle (x : list Z) : M (list Z) :=
  shuffle_from (length x - 1) x.

(** ** Python built-ins on numbers and sequences *)

(** [[m for _ in range(n)]] *)
Fixpoint repeat_m {A} (n : nat) (m : M A) : M (list A) :=
  match n with
  | O => ret []
  | S n' => a <- m ;; l <- repeat_m n' m ;; ret (a :: l)
  end.

(** [for i in l: body(i)] *)
Fixpoint for_each {A} (l : list A) (body : A -> M unit) : M unit :=
  match l with
  | [] => ret tt
  | a :: l' => body a ;;; for_each l' body
  end.

(** [range(n)]: empty when [n <= 0]. *)
Definition range (n : Z) : list nat := seq 0 (Z.to_nat n).

(** [keys[i]] for an index [i >= 0]. *)
Definition index (keys : list Z) (i : nat) : M Z :=
  match keys !! i with
  | Some k => ret k
  | None => raise IndexError
  end.

(** [l[:n]]: the first [n] items, or all but the last [-n] when [n < 0]. *)
Definition slice_to (n : Z) (l : list Z) : list Z :=
  if decide (0 <= n) then take (Z.to_nat n) l
  else take (length l - Z.to_nat (- n)) l.

(** [float(n)] of an [int]: the nearest binary64 (ties to even),
    [OverflowError] when that is not finite. *)
Definition float_of_int (n : Z) : M float :=
  match binary_normalize prec emax n 0 false with
  | S754_infinity _ => raise OverflowError
  | x => ret x
  end.

(** [int(x)] of a [float]: truncation toward zero. *)
Definition int_of_float (x : float) : M Z :=
  match x with
  | S754_nan => raise ValueError
  | S754_infinity _ => raise OverflowError
  | S754_zero _ => ret 0
  | S754_finite s m e =>
      ret (cond_Zopp s (if decide (0 <= e) then Z.pos m * 2 ^ e
                        else Z.pos m / 2 ^ (- e)))
  end.

(** [n * x] with [n] an [int] and [x] a [float]. *)
Definition int_times_float (n : Z) (x : float) : M float :=
  y <- float_of_int n ;; ret (SFmul prec emax y x).

Definition float_zero : float := S754_zero false.
Definition float_one : float := S754_finite false 4503599627370496 (-52).

(** [0.0 <= x <= 1.0] *)
Definition in_unit_interval (x : float) : bool :=
  SFleb float_zero x && SFleb x float_one.

(** [int(s)] and [float(s)] on strings are the interpreter's parsers; the
    scripts only depend on whether they succeed ([None] is [ValueError])
    and on the number they return, which for [float] is a binary64 value. *)
Class Builtins := {
  py_int : string -> option Z;
  py_float : string -> option float;
  py_float_valid : forall s x, py_float s = Some x -> valid_binary prec emax x = true
}.

(** [sys.argv[i]] *)
Definition argv_get (argv : list string) (i : nat) : M string :=
  match argv !! i with
  | Some s => ret s
  | None => raise IndexError
  end.

Section Arguments.
Context `{Builtins}.

(** [int(sys.argv[i])] *)
Definition int_arg (argv : list string) (i : nat) : M Z :=
  s <- argv_get argv i ;;
  match py_int s with
  | Some n => ret n
  | None => raise ValueError
  end.

(** [float(sys.argv[i])] *)
Definition float_arg (argv : list string) (i : nat) : M float :=
  s <- argv_get argv i ;;
  match py_float s with
  | Some x => ret x
  | None => raise ValueError
  end.
End Arguments.

(** [except IOError] and [except (IndexError, ValueError)] *)
Definition is_io_error (e : exn) : bool :=
  match e with IOError => true | _ => false end.

Definition is_index_or_value_error (e : exn) : bool :=
  match e with IndexError | ValueError => true | _ => false end.

(** ** [data_gen.py] *)

Module DataGen.

(** [generate_file_a(num_rows, keys)].  The [return] of the handler is
    the [false] that skips the last [print]. *)
Definition generate_file_a (num_rows : Z) (keys : list Z) : M unit :=
  print (MsgThreadStarting TableA) ;;;
  written <- try_except
    (open_w "A.txt" ;;;
     for_each (range num_rows) (fun i =>
       k <- index keys i ;;
       v <- randint 1 100 ;;
       write "A.txt" (RowKV k v)) ;;;
     ret true)
    is_io_error
    (fun _ => print (MsgThreadIOError TableA) ;;; ret false) ;;
  if written : bool then print (MsgThreadCreated TableA) else ret tt.

(** [generate_file_b(num_rows, keys)] *)
Definition generate_file_b (num_rows : Z) (keys : list Z) : M unit :=
  print (MsgThreadStarting TableB) ;;;
  written <- try_except
    (open_w "B.txt" ;;;
     for_each (range num_rows) (fun i =>
       k <- index keys i ;;
       write "B.txt" (RowK k)) ;;;
     ret true)
    is_io_error
    (fun _ => print (MsgThreadIOError TableB) ;;; ret false) ;;
  if written : bool then print (MsgThreadCreated TableB) else ret tt.

(** [int(total_keys_required * uniqueness_percent)] *)
Definition num_unique_keys (total_keys_required : Z) (uniqueness_percent : float) : M Z :=
  x <- int_times_float total_keys_required uniqueness_percent ;;
  int_of_float x.

(** [while len(unique_key_set) < num_unique_keys:
       unique_key_set.add(random.randint(0, key_range_max))]
    with a budget of [fuel] iterations. *)
Fixpoint fill_unique_key_set (fuel : nat) (num_unique_keys key_range_max : Z)
    (unique_key_set : gset Z) : M (gset Z) :=
  if decide (Z.of_nat (size unique_key_set) < num_unique_keys) then
    match fuel with
    | O => diverge
    | S fuel' =>
        k <- randint 0 key_range_max ;;
        fill_unique_key_set fuel' num_unique_keys key_range_max ({[k]} ∪ unique_key_set)
    end
  else ret unique_key_set.

(** The unique key list of one table: the set loop, [list(unique_key_set)]
    and the guard for an empty list.  [None] is the [return] after
    ["No rows to generate."]. *)
Definition unique_key_list (fuel : nat) (total_keys_required num_unique_keys key_range_max : Z)
    : M (option (list Z)) :=
  unique_key_set <- fill_unique_key_set fuel num_unique_keys key_range_max ∅ ;;
  match elements unique_key_set with
  | [] =>
      if decide (total_keys_required > 0) then
        k <- randint 0 key_range_max ;; ret (Some [k])
      else
        print MsgNoRows ;;; ret None
  | l => ret (Some l)
  end.

(** [[random.choice(unique_key_list) for _ in range(num_duplicate_keys)]] *)
Definition duplicates (num_duplicate_keys : Z) (unique_key_list : list Z) : M (list Z) :=
  repeat_m (Z.to_nat num_duplicate_keys) (choice unique_key_list).

(** The key generation of one table.  The script has this block twice,
    once with [num_rows_a] and once with [num_rows_b]; the two copies
    differ in nothing else but the table named in the message.
    [key_pool_parts] is the block up to the two lists that are
    concatenated, [key_pool] the whole block. *)
Definition key_pool_parts (fuel : nat) (num_rows : Z) (uniqueness_percent : float)
    : M (option (list Z * list Z)) :=
  let total_keys_required := num_rows in
  num_unique_keys <- num_unique_keys total_keys_required uniqueness_percent ;;
  let num_duplicate_keys := total_keys_required - num_unique_keys in
  let key_range_max := total_keys_required * 2 in
  l <- unique_key_list fuel total_keys_required num_unique_keys key_range_max ;;
  match l with
  | None => ret None
  | Some unique_key_list =>
      duplicates <- duplicates num_duplicate_keys unique_key_list ;;
      ret (Some (unique_key_list, duplicates))
  end.

Definition key_pool (fuel : nat) (t : table) (num_rows : Z) (uniqueness_percent : float)
    : M (option (list Z)) :=
  parts <- key_pool_parts fuel num_rows uniqueness_percent ;;
  match parts with
  | None => ret None
  | Some (unique_key_list, duplicates) =>
      final_key_pool <- shuffle (unique_key_list ++ duplicates) ;;
      print (MsgKeyPoolGenerated t) ;;;
      ret (Some (slice_to num_rows final_key_pool))
  end.

(** A [threading.Thread] run to its end: an exception that escapes the
    target ends the thread with a traceback and is not seen by the main
    thread.  The two threads share no file and only thread A draws random
    numbers, so the files and the random cursor after both have ended do
    not depend on how they interleave; [run_threads] runs A, then B. *)
Definition run_thread (t : table) (target : M unit) : M unit :=
  fun w =>
    match target w with
    | Raised e w' => print (MsgThreadTraceback t e) w'
    | r => r
    end.

Definition run_threads (num_rows_a : Z) (keys_for_a : list Z)
    (num_rows_b : Z) (keys_for_b : list Z) : M unit :=
  print MsgStartingThreads ;;;
  run_thread TableA (generate_file_a num_rows_a keys_for_a) ;;;
  run_thread TableB (generate_file_b num_rows_b keys_for_b) ;;;
  print MsgAllTasksCompleted.

(** The two key generations, one after the other; the second is not
    reached when the first returns. *)
Definition key_pools (fuel : nat) (num_rows_a num_rows_b : Z) (uniqueness_percent : float)
    : M (option (Z * list Z * Z * list Z)) :=
  print MsgGeneratingKeyPool ;;;
  a <- key_pool fuel TableA num_rows_a uniqueness_percent ;;
  match a with
  | None => ret None
  | Some keys_for_a =>
      b <- key_pool fuel TableB num_rows_b uniqueness_percent ;;
      match b with
      | None => ret None
      | Some keys_for_b =>
          ret (Some (num_rows_a, keys_for_a, num_rows_b, keys_for_b))
      end
  end.

Section Script.
Context `{Builtins}.

(** The body of the [try] block. *)
Definition parse_arguments (argv : list string) : M (Z * Z * float) :=
  num_rows_a <- int_arg argv 1 ;;
  num_rows_b <- int_arg argv 2 ;;
  uniqueness_percent <- float_arg argv 3 ;;
  if negb (in_unit_interval uniqueness_percent) then raise ValueError
  else
    print (MsgTableRows TableA num_rows_a) ;;;
    print (MsgTableRows TableB num_rows_b) ;;;
    print (MsgKeyUniqueness uniqueness_percent) ;;;
    ret (num_rows_a, num_rows_b, uniqueness_percent).

(** The [except (IndexError, ValueError)] handler. *)
Definition report_invalid_arguments (argv : list string) (e : exn) : M unit :=
  print (MsgInvalidArguments e) ;;;
  script <- argv_get argv 0 ;;
  print (MsgUsage script) ;;;
  print MsgExample.

(** The [try] statement that reads the command line: the three arguments,
    or [None] where the handler returns. *)
Definition read_arguments (argv : list string) : M (option (Z * Z * float)) :=
  try_except
    (x <- parse_arguments argv ;; ret (Some x))
    is_index_or_value_error
    (fun e => report_invalid_arguments argv e ;;; ret None).

(** Everything up to the creation of the threads: the row counts and
    key lists handed to the two writers, or [None] where the script
    returns early. *)
Definition prepare (fuel : nat) (argv : list string)
    : M (option (Z * list Z * Z * list Z)) :=
  args <- read_arguments argv ;;
  match args with
  | None => ret None
  | Some (num_rows_a, num_rows_b, uniqueness_percent) =>
      key_pools fuel num_rows_a num_rows_b uniqueness_percent
  end.

(** [generate_data()] *)
Definition generate_data (fuel : nat) (argv : list string) : M unit :=
  p <- prepare fuel argv ;;
  match p with
  | None => ret tt
  | Some (num_rows_a, keys_for_a, num_rows_b, keys_for_b) =>
      run_threads num_rows_a keys_for_a num_rows_b keys_for_b
  end.
End Script.

End DataGen.

(** ** [random_data_gen_int_int.py] *)

Module RandomGen.

Definition INT_MIN : Z := -2147483648.
Definition INT_MAX : Z := 2147483647.

Section Script.
Context `{Builtins}.

(** The two [try] blocks that read the row counts.  Only the handler
    of the first prints the usage line. *)
Definition read_num_rows_a (argv : list string) : M Z :=
  try_except
    (n <- int_arg argv 1 ;; print (MsgRowsFromCommandLine TableA n) ;;; ret n)
    is_index_or_value_error
    (fun _ =>
       let num_rows_a := 10000 in
       script <- argv_get argv 0 ;;
       print (MsgUsageRows script) ;;;
       print (MsgUsingDefaultRows TableA num_rows_a) ;;;
       ret num_rows_a).

Definition read_num_rows_b (argv : list string) : M Z :=
  try_except
    (n <- int_arg argv 2 ;; print (MsgRowsFromCommandLine TableB n) ;;; ret n)
    is_index_or_value_error
    (fun _ =>
       let num_rows_b := 10000 in
       print (MsgUsingDefaultRows TableB num_rows_b) ;;;
       ret num_rows_b).

Definition write_a (num_rows_a : Z) : M bool :=
  print (MsgGeneratingFile TableA) ;;;
  try_except
    (open_w "A.txt" ;;;
     for_each (range num_rows_a) (fun _ =>
       k <- randint INT_MIN INT_MAX ;;
       v <- randint INT_MIN INT_MAX ;;
       write "A.txt" (RowKV k v)) ;;;
     ret true)
    is_io_error
    (fun _ => print (MsgErrorWriting TableA) ;;; ret false).

Definition write_b (num_rows_b : Z) : M bool :=
  print (MsgGeneratingFile TableB) ;;;
  try_except
    (open_w "B.txt" ;;;
     for_each (range num_rows_b) (fun _ =>
       k <- randint INT_MIN INT_MAX ;;
       write "B.txt" (RowK k)) ;;;
     ret true)
    is_io_error
    (fun _ => print (MsgErrorWriting TableB) ;;; ret false).

(** [generate_data()]; a [false] from a writer is the [return] of its
    [except IOError] handler. *)
Definition generate_data (argv : list string) : M unit :=
  num_rows_a <- read_num_rows_a argv ;;
  num_rows_b <- read_num_rows_b argv ;;
  written_a <- write_a num_rows_a ;;
  if written_a : bool then
    print (MsgFileCreated TableA) ;;;
    written_b <- write_b num_rows_b ;;
    if written_b : bool then print (MsgFileCreated TableB) else ret tt
  else ret tt.
End Script.

End RandomGen.

(** ** [simple_data_gen_int_int.py] *)

Module SimpleGen.

(** [key_pool_size], [key_range_max] and the list comprehension that
    fills [key_pool], with the guard for an empty pool. *)
Definition key_pool_size (num_rows_a num_rows_b : Z) : Z :=
  Z.max 1 ((num_rows_a + num_rows_b) / 20).

Definition make_key_pool (num_rows_a num_rows_b : Z) : M (list Z) :=
  let key_pool_size := key_pool_size num_rows_a num_rows_b in
  let key_range_max := key_pool_size * 5 in
  key_pool <- repeat_m (Z.to_nat key_pool_size) (randint 0 key_range_max) ;;
  match key_pool with
  | [] => ret [0]
  | _ => ret key_pool
  end.

Definition write_a (num_rows_a : Z) (key_pool : list Z) : M bool :=
  print (MsgGeneratingFile TableA) ;;;
  try_except
    (open_w "A.txt" ;;;
     for_each (range num_rows_a) (fun _ =>
       k <- choice key_pool ;;
       v <- randint 1 100 ;;
       write "A.txt" (RowKV k v)) ;;;
     ret true)
    is_io_error
    (fun _ => print (MsgErrorWriting TableA) ;;; ret false).

Definition write_b (num_rows_b : Z) (key_pool : list Z) : M bool :=
  print (MsgGeneratingFile TableB) ;;;
  try_except
    (open_w "B.txt" ;;;
     for_each (range num_rows_b) (fun _ =>
       k <- choice key_pool ;;
       write "B.txt" (RowK k)) ;;;
     ret true)
    is_io_error
    (fun _ => print (MsgErrorWriting TableB) ;;; ret false).

(** The part of [generate_data()] after the row counts are known. *)
Definition write_tables (num_rows_a num_rows_b : Z) (key_pool : list Z) : M unit :=
  written_a <- write_a num_rows_a key_pool ;;
  if written_a : bool then
    print (MsgFileCreated TableA) ;;;
    written_b <- write_b num_rows_b key_pool ;;
    if written_b : bool then print (MsgFileCreated TableB) else ret tt
  else ret tt.

Section Script.
Context `{Builtins}.

(** The row counts are read exactly as in [random_data_gen_int_int.py]. *)
Definition generate_data (argv : list string) : M unit :=
  num_rows_a <- RandomGen.read_num_rows_a argv ;;
  num_rows_b <- RandomGen.read_num_rows_b argv ;;
  key_pool <- make_key_pool num_rows_a num_rows_b ;;
  write_tables num_rows_a num_rows_b key_pool.
End Script.

End SimpleGen.

(** ** A concrete interpreter for decimal literals

    Plain decimal literals are a subset of what [int] and [float] accept;
    on them the parsers below return what the interpreter returns.  They
    make the scripts runnable on concrete command lines. *)

Definition digit_of (c : ascii) : option Z :=
  let n := Z.of_nat (nat_of_ascii c) in
  if decide (48 <= n <= 57) then Some (n - 48) else None.

Fixpoint digits_value (acc : Z) (s : string) : option Z :=
  match s with
  | EmptyString => Some acc
  | String c s' =>
      match digit_of c with
      | Some d => digits_value (10 * acc + d) s'
      | None => None
      end
  end.

Definition decimal_int (s : string) : option Z :=
  match s with
  | EmptyString => None
  | String "-" EmptyString => None
  | String "-" s' => Z.opp <$> digits_value 0 s'
  | _ => digits_value 0 s
  end.

Fixpoint split_at_dot (s : string) : string * option string :=
  match s with
  | EmptyString => (EmptyString, None)
  | String "." s' => (EmptyString, Some s')
  | String c s' => let '(a, b) := split_at_dot s' in (String c a, b)
  end.

(** [d.ddd] with at most 15 digits in all: numerator and power of ten are
    both binary64 integers, so one correctly rounded division gives the
    nearest binary64 to the literal. *)
Definition decimal_float (s : string) : option float :=
  match split_at_dot s with
  | (EmptyString, _) | (_, None) | (_, Some EmptyString) => None
  | (ip, Some fp) =>
      if decide (String.length ip + String.length fp <= 15)%nat then
        n ← digits_value 0 (ip +:+ fp) ;
        let x := SFdiv prec emax (binary_normalize prec emax n 0 false)
                   (binary_normalize prec emax (10 ^ Z.of_nat (String.length fp)) 0 false) in
        if valid_binary prec emax x then Some x else None
      else None
  end.

#[export] Program Instance decimal_builtins : Builtins :=
  {| py_int := decimal_int; py_float := decimal_float |}.
Next Obligation.
  intros s x. unfold decimal_float.
  repeat case_match; try discriminate.
  destruct (digits_value 0 _); simpl; [|discriminate].
  case_match; [|discriminate]. congruence.
Qed.

(** * The vocabulary of the properties *)

(** [wp m w Q E]: from [w], [m] either exhausts its loop budget, or returns
    a value and a world that satisfy [Q], or raises an exception that
    satisfies [E]. *)
Definition wp {A} (m : M A) (w : world) (Q : A -> world -> Prop)
    (E : exn -> world -> Prop) : Prop :=
  match m w with
  | Done a w' => Q a w'
  | Raised e w' => E e w'
  | OutOfFuel => True
  end.

(** [safe m w Q]: as [wp], and no exception escapes. *)
Definition safe {A} (m : M A) (w : world) (Q : A -> world -> Prop) : Prop :=
  wp m w Q (fun _ _ => False).

(** [halts m w]: the loop budget was enough. *)
Definition halts {A} (m : M A) (w : world) : Prop :=
  match m w with OutOfFuel => False | _ => True end.

(** The oracle and the fault plan are never written. *)
Definition same_env (w w' : world) : Prop :=
  w_draws w' = w_draws w /\ w_faults w' = w_faults w.

(** No file was touched. *)
Definition same_files (w w' : world) : Prop :=
  same_env w w' /\ w_fs w' = w_fs w.

(** No file was touched and no random number was drawn. *)
Definition same_state (w w' : world) : Prop :=
  same_files w w' /\ w_pos w' = w_pos w.

(** [shifted M k x]: the record [x] is [M] after [k] right shifts; the
    mantissa was halved [k] times, and the round and sticky bits are clear
    when only zero bits were shifted out. *)
Definition shifted (M : Z) (k : nat) (x : shr_record) : Prop :=
  shr_m x = M / 2 ^ Z.of_nat k /\
  (M mod 2 ^ Z.of_nat k = 0 -> shr_r x = false /\ shr_s x = false).

(** A binary64 value that is [+0.0] or positive with a non-positive
    exponent, and lies between the integers [K'] and [K]. *)
Definition between (K' K : Z) (x : float) : Prop :=
  match x with
  | S754_zero false => K' = 0
  | S754_finite false m e =>
      e <= 0 /\ K' * 2 ^ (- e) <= Z.pos m <= K * 2 ^ (- e)
  | _ => False
  end.

(** The number of distinct values in a key list. *)
Definition distinct_keys (l : list Z) : nat := size (list_to_set l : gset Z).

(** The two lists [key_pool_parts] hands on for a table of [n] rows that
    asks for [u] unique keys: distinct keys from [[0, 2 * n]], as many as
    asked for but at least one, and [n - u] further draws from them. *)
Definition pool_parts_ok (n u : Z) (unique_key_list duplicates : list Z) : Prop :=
  NoDup unique_key_list /\
  Forall (fun k => 0 <= k <= n * 2) unique_key_list /\
  Z.of_nat (length unique_key_list) = Z.max 1 u /\
  length duplicates = Z.to_nat (n - u) /\
  Forall (fun k => k ∈ unique_key_list) duplicates.

(** The keys handed to a writer: the first [n] items of a permutation of
    the two lists. *)
Definition pool_keys_ok (n u : Z) (keys : list Z) : Prop :=
  exists l dups final,
    pool_parts_ok n u l dups /\ final ≡ₚ l ++ dups /\ keys = slice_to n final.

(** [l] was appended to the file [name]. *)
Definition appended (name : string) (l : line) (w w' : world) : Prop :=
  same_env w w' /\ w_fs w' = <[name := file_lines name w ++ [l]]> (w_fs w).

(** Line [i] of [lines] satisfies [P i]. *)
Definition lines_ok (P : nat -> line -> Prop) (lines : list line) : Prop :=
  forall i l, lines !! i = Some l -> P i l.

(** The file [name] was created and holds [c] lines that satisfy [P]. *)
Definition written (name : string) (P : nat -> line -> Prop) (c : nat)
    (w w' : world) : Prop :=
  same_env w w' /\
  exists lines, length lines = c /\ lines_ok P lines /\
    w_fs w' = <[name := lines]> (w_fs w).

(** What a writer block leaves behind: with [ok] the whole file, otherwise
    a file system that failed and either an untouched file or a shorter one. *)
Definition file_written (name : string) (P : nat -> line -> Prop) (n : nat)
    (ok : bool) (w w' : world) : Prop :=
  if ok then written name P n w w'
  else w_faults w name <> NoFault /\
       same_env w w' /\
       (w_fs w' = w_fs w \/ exists c, (c <= n)%nat /\ written name P c w w').

(** The key column of a file. *)
Definition file_keys (name : string) (w : world) : list Z :=
  line_key <$> file_lines name w.

(** Line [i] of [A.txt] pairs [keys[i]] with a value from [[1, 100]]. *)
Definition row_a (keys : list Z) (i : nat) (l : line) : Prop :=
  exists k v, l = RowKV k v /\ keys !! i = Some k /\ 1 <= v <= 100.

(** Line [i] of [B.txt] is [keys[i]]. *)
Definition row_b (keys : list Z) (i : nat) (l : line) : Prop :=
  exists k, l = RowK k /\ keys !! i = Some k.

(** The writer of a table. *)
Definition writer (t : table) : Z -> list Z -> M unit :=
  match t with
  | TableA => DataGen.generate_file_a
  | TableB => DataGen.generate_file_b
  end.

(** The lines of the file of a table. *)
Definition row_of (t : table) : list Z -> nat -> line -> Prop :=
  match t with TableA => row_a | TableB => row_b end.

(** The [while] loop of [data_gen.py] ends when the random source has
    delivered enough different keys.  A source is [fair] when, from every
    position on and for every range, every value of the range is drawn
    again at some point; a real generator is fair with probability one,
    a constant sequence is not. *)
Definition fair (d : nat -> Z) : Prop :=
  forall p m v, 0 <= v < m -> exists i, d (p + i)%nat mod m = v.

(** A computation with a loop budget is [stable] when a larger budget
    does not change a run that the smaller one completed. *)
Definition stable {A} (m : nat -> M A) : Prop :=
  forall fuel fuel' w, (fuel <= fuel')%nat -> halts (m fuel) w -> m fuel' w = m fuel w.

(** [u] is the value of [int(n * x)]. *)
Definition unique_count (n : Z) (x : float) (u : Z) : Prop :=
  forall w, DataGen.num_unique_keys n x w = Done u w.

(** A world to run the scripts in: the random source counts 0, 1, 2, ...,
    the file system is empty and never fails. *)
Definition counting_world : world :=
  World Z.of_nat 0 (fun _ => NoFault) ∅ [].

(** The binary64 values nearest to 0.5 and 0.9. *)
Definition float_half : float := S754_finite false 4503599627370496 (-53).
Definition float_0_9 : float := S754_finite false 8106479329266893 (-53).

(** The row count of a table on a command line with counts [a] and [b]. *)
Definition rows_of (t : table) (a b : Z) : Z :=
  match t with TableA => a | TableB => b end.

(** The lines of [random_data_gen_int_int.py]: keys and values are any
    32-bit signed integers. *)
Definition int32 (k : Z) : Prop := RandomGen.INT_MIN <= k <= RandomGen.INT_MAX.

Definition random_row_a (l : line) : Prop :=
  exists k v, l = RowKV k v /\ int32 k /\ int32 v.

Definition random_row_b (l : line) : Prop :=
  exists k, l = RowK k /\ int32 k.

(** The lines of [simple_data_gen_int_int.py]: the key is one of the pool. *)
Definition pool_row (pool : list Z) (l : line) : Prop := line_key l ∈ pool.

(** What the two writer blocks of a script leave behind: files other than
    [A.txt] and [B.txt] are untouched; each of the two is untouched or
    holds lines of its kind; and when the file system does not fail both
    hold the number of lines asked for. *)
Definition tables_written (PA PB : line -> Prop) (na nb : nat) (w w' : world) : Prop :=
  (forall other, other <> "A.txt" -> other <> "B.txt" ->
     w_fs w' !! other = w_fs w !! other) /\
  (w_fs w' !! "A.txt" = w_fs w !! "A.txt" \/ Forall PA (file_lines "A.txt" w')) /\
  (w_fs w' !! "B.txt" = w_fs w !! "B.txt" \/ Forall PB (file_lines "B.txt" w')) /\
  (w_faults w "A.txt" = NoFault -> w_faults w "B.txt" = NoFault ->
   is_Some (w_fs w' !! "A.txt") /\ is_Some (w_fs w' !! "B.txt") /\
   length (file_lines "A.txt" w') = na /\ length (file_lines "B.txt" w') = nb /\
   Forall PA (file_lines "A.txt" w') /\ Forall PB (file_lines "B.txt" w')).

(** ** Writers under a fault plan *)

(** The fault planned for a file strikes a writer of [n] lines: [open]
    raises, or the write of a line that the writer gets to. *)
Definition fault_hits (f : io_fault) (n : nat) : bool :=
  match f with
  | NoFault => false
  | OpenFails => true
  | WriteFails c => bool_decide (c < n)%nat
  end.

(** The number of lines in the file after a writer of [n] lines has run
    under the fault [f]; [None] when the file is not even created. *)
Definition lines_kept (f : io_fault) (n : nat) : option nat :=
  match f with
  | NoFault => Some n
  | OpenFails => None
  | WriteFails c => Some (c `min` n)%nat
  end.

(** The file [name] after a writer of [n] lines of [P], in terms of the
    fault planned for it. *)
Definition table_after (name : string) (P : nat -> line -> Prop) (n : nat)
    (w w' : world) : Prop :=
  match lines_kept (w_faults w name) n with
  | Some c =>
      exists lines, w_fs w' !! name = Some lines /\ length lines = c /\ lines_ok P lines
  | None => w_fs w' !! name = w_fs w !! name
  end.

(** What a writer block leaves behind, exactly: its own file as
    [table_after] says, every other file as it was. *)
Definition file_after (name : string) (P : nat -> line -> Prop) (n : nat)
    (w w' : world) : Prop :=
  same_env w w' /\
  (forall other, other <> name -> w_fs w' !! other = w_fs w !! other) /\
  table_after name P n w w'.

(** The file [name] was written in full: it holds exactly [n] lines, and
    line [i] satisfies [P i]. *)
Definition file_complete (name : string) (P : nat -> line -> Prop) (n : nat)
    (w : world) : Prop :=
  exists lines, w_fs w !! name = Some lines /\ length lines = n /\ lines_ok P lines.

(** What the two writer blocks of a simpler script leave behind: the
    writer of [B.txt] runs only when the one of [A.txt] did not fail. *)
Definition tables_after (PA PB : line -> Prop) (na nb : nat) (w w' : world) : Prop :=
  (forall other, other <> "A.txt" -> other <> "B.txt" ->
     w_fs w' !! other = w_fs w !! other) /\
  table_after "A.txt" (fun _ => PA) na w w' /\
  if fault_hits (w_faults w "A.txt") na then w_fs w' !! "B.txt" = w_fs w !! "B.txt"
  else table_after "B.txt" (fun _ => PB) nb w w'.

(** The lines of [simple_data_gen_int_int.py] in full. *)
Definition simple_row_a (pool : list Z) (l : line) : Prop :=
  exists k v, l = RowKV k v /\ k ∈ pool /\ 1 <= v <= 100.

Definition simple_row_b (pool : list Z) (l : line) : Prop :=
  exists k, l = RowK k /\ k ∈ pool.

(** A line of the file of a table with [n] rows, as [data_gen.py] writes it. *)
Definition table_row (t : table) (n : Z) (l : line) : Prop :=
  match t with
  | TableA => exists k v, l = RowKV k v /\ 0 <= k <= 2 * n /\ 1 <= v <= 100
  | TableB => exists k, l = RowK k /\ 0 <= k <= 2 * n
  end.

(** A world in which the write of the third line of [A.txt] fails. *)
Definition short_a_world : world :=
  World Z.of_nat 0 (fun name => if decide (name = "A.txt") then WriteFails 2 else NoFault)
    ∅ [].

(** A world whose random source returns the same number for ever. *)
Definition constant_world : world :=
  World (fun _ => 0) 0 (fun _ => NoFault) ∅ [].

(** [m] ends in the world [w'], by a return or by an exception. *)
Definition ends_in {A} (m : M A) (w w' : world) : Prop :=
  (exists a, m w = Done a w') \/ (exists e, m w = Raised e w').

(** No file but [name] differs between [w] and [w']. *)
Definition only_file (name : string) (w w' : world) : Prop :=
  forall other, other <> name -> w_fs w' !! other = w_fs w !! other.

(** What a writer of the file [name] never changes; [draws] tells
    whether it may draw random numbers. *)
Definition writes_only (name : string) (draws : bool) (w w' : world) : Prop :=
  only_file name w w' /\ (draws = false -> w_pos w' = w_pos w).

(** [keeps R m]: however [m] ends, the world it leaves is related by [R]
    to the one it started in. *)
Definition keeps {A} (R : world -> world -> Prop) (m : M A) : Prop :=
  forall w, wp m w (fun _ w' => R w w') (fun _ w' => R w w').

(** ** What the scripts print *)

(** The console is as it was. *)
Definition same_out (w w' : world) : Prop := w_out w' = w_out w.

(** What a writer thread of [data_gen.py] prints. *)
Definition writer_report (t : table) (failed : bool) : list message :=
  [MsgThreadStarting t; if failed then MsgThreadIOError t else MsgThreadCreated t].

(** What the two writer blocks of a simpler script print. *)
Definition variant_report (failed_a failed_b : bool) : list message :=
  MsgGeneratingFile TableA ::
  if failed_a then [MsgErrorWriting TableA]
  else [MsgFileCreated TableA; MsgGeneratingFile TableB;
        if failed_b then MsgErrorWriting TableB else MsgFileCreated TableB].

(** What the two writer blocks of a simpler script leave behind, in
    terms of what they reported: [failed_a] and [failed_b] tell whether the
    error message of a file was printed, as in [variant_report].  A file
    reported as created was written in full; [B.txt] is not touched once
    [A.txt] failed; and no error is reported for a file on which the file
    system does not fail. *)
Definition tables_reported (PA PB : line -> Prop) (na nb : nat)
    (failed_a failed_b : bool) (w w' : world) : Prop :=
  (forall other, other <> "A.txt" -> other <> "B.txt" ->
     w_fs w' !! other = w_fs w !! other) /\
  (failed_a = false -> file_complete "A.txt" (fun _ => PA) na w') /\
  (failed_a = true -> w_fs w' !! "B.txt" = w_fs w !! "B.txt") /\
  (failed_a = false -> failed_b = false ->
   file_complete "B.txt" (fun _ => PB) nb w') /\
  (w_faults w "A.txt" = NoFault -> failed_a = false) /\
  (w_faults w "B.txt" = NoFault -> failed_b = false).

Section CommandLine.
Context `{Builtins}.

(** A command line whose three arguments parse to [a], [b] and [x]. *)
Inductive command_line (argv : list string) (a b : Z) (x : float) : Prop :=
  | CommandLine script sa sb sx rest :
      argv = script :: sa :: sb :: sx :: rest ->
      py_int sa = Some a -> py_int sb = Some b -> py_float sx = Some x ->
      command_line argv a b x.

(** A command line that the [try] block rejects: an argument is missing
    or does not parse, or the fraction fails the range check. *)
Inductive invalid_arguments (argv : list string) : Prop :=
  | RowsMissing i : (1 <= i <= 2)%nat -> argv !! i = None -> invalid_arguments argv
  | RowsNonNumeric i s :
      (1 <= i <= 2)%nat -> argv !! i = Some s -> py_int s = None ->
      invalid_arguments argv
  | FractionMissing : argv !! 3%nat = None -> invalid_arguments argv
  | FractionNonNumeric s :
      argv !! 3%nat = Some s -> py_float s = None -> invalid_arguments argv
  | FractionOutside s x :
      argv !! 3%nat = Some s -> py_float s = Some x ->
      in_unit_interval x = false -> invalid_arguments argv.

(** [int(sys.argv[i])], or [None] where it raises. *)
Definition rows_given (argv : list string) (i : nat) : option Z :=
  argv !! i ≫= py_int.

(** The row count a script uses for a table: the argument when it is
    there and parses, otherwise 10000. *)
Definition rows_used (argv : list string) (i : nat) : Z :=
  default 10000 (rows_given argv i).

(** [sys.argv[i]] is missing, or [int] rejects it. *)
Definition missing_or_non_numeric (argv : list string) (i : nat) : Prop :=
  argv !! i = None \/ exists s, argv !! i = Some s /\ py_int s = None.

End CommandLine.

Section RowsReport.
Context `{Builtins}.

(** What the two blocks that read the row counts print. *)
Definition rows_report (script : string) (args : list string) : list message :=
  match rows_given (script :: args) 1 with
  | Some n => [MsgRowsFromCommandLine TableA n]
  | None => [MsgUsageRows script; MsgUsingDefaultRows TableA 10000]
  end ++
  match rows_given (script :: args) 2 with
  | Some n => [MsgRowsFromCommandLine TableB n]
  | None => [MsgUsingDefaultRows TableB 10000]
  end.

End RowsReport.

(** * Reasoning about computations *)

Lemma wp_done {A} (m : M A) w Q E a w' :
  wp m w Q E -> m w = Done a w' -> Q a w'.
Proof. unfold wp. intros Hwp Hm. by rewrite Hm in Hwp. Qed.

Lemma wp_raised {A} (m : M A) w Q E e w' :
  wp m w Q E -> m w = Raised e w' -> E e w'.
Proof. unfold wp. intros Hwp Hm. by rewrite Hm in Hwp. Qed.

Lemma wp_mono {A} (m : M A) w (Q Q' : A -> world -> Prop) (E E' : exn -> world -> Prop) :
  wp m w Q E ->
  (forall a w', Q a w' -> Q' a w') ->
  (forall e w', E e w' -> E' e w') ->
  wp m w Q' E'.
Proof. unfold wp. destruct (m w); auto. Qed.

Lemma wp_and {A} (m : M A) w (Q Q' : A -> world -> Prop) (E E' : exn -> world -> Prop) :
  wp m w Q E -> wp m w Q' E' ->
  wp m w (fun a w' => Q a w' /\ Q' a w') (fun e w' => E e w' /\ E' e w').
Proof. unfold wp. destruct (m w); auto. Qed.

Lemma wp_ret {A} (a : A) w (Q : A -> world -> Prop) E : Q a w -> wp (ret a) w Q E.
Proof. done. Qed.

Lemma wp_raise {A} e w (Q : A -> world -> Prop) (E : exn -> world -> Prop) :
  E e w -> wp (raise e) w Q E.
Proof. done. Qed.

Lemma wp_bind {A B} (m : M A) (k : A -> M B) w Q E :
  wp m w (fun a w1 => wp (k a) w1 Q E) E -> wp (bind m k) w Q E.
Proof. unfold wp, bind. destruct (m w); auto. Qed.

Lemma wp_try_except {A} (m : M A) handled h w Q E :
  wp m w Q (fun e w1 => if handled e : bool then wp (h e) w1 Q E else E e w1) ->
  wp (try_except m handled h) w Q E.
Proof.
  unfold wp, try_except. destruct (m w) as [a w1|e w1|]; auto.
  destruct (handled e); auto.
Qed.

Lemma safe_done {A} (m : M A) w Q a w' : safe m w Q -> m w = Done a w' -> Q a w'.
Proof. apply wp_done. Qed.

Lemma safe_returns {A} (m : M A) w Q :
  safe m w Q -> halts m w -> exists a w', m w = Done a w' /\ Q a w'.
Proof. unfold safe, wp, halts. destruct (m w); naive_solver. Qed.

Lemma safe_mono {A} (m : M A) w (Q Q' : A -> world -> Prop) :
  safe m w Q -> (forall a w', Q a w' -> Q' a w') -> safe m w Q'.
Proof. intros Hs HQ. eapply wp_mono; eauto. Qed.

Lemma safe_and {A} (m : M A) w (Q Q' : A -> world -> Prop) :
  safe m w Q -> safe m w Q' -> safe m w (fun a w' => Q a w' /\ Q' a w').
Proof. unfold safe, wp. destruct (m w); auto. Qed.

Lemma safe_bind {A B} (m : M A) (k : A -> M B) w Q :
  safe m w (fun a w1 => safe (k a) w1 Q) -> safe (bind m k) w Q.
Proof. apply wp_bind. Qed.

Lemma safe_ret {A} (a : A) w (Q : A -> world -> Prop) : Q a w -> safe (ret a) w Q.
Proof. done. Qed.

Lemma halts_ret {A} (a : A) w : halts (ret a) w.
Proof. done. Qed.

Lemma halts_raise {A} e w : halts (@raise A e) w.
Proof. done. Qed.

Lemma halts_bind {A B} (m : M A) (k : A -> M B) w :
  halts m w -> (forall a w1, m w = Done a w1 -> halts (k a) w1) -> halts (bind m k) w.
Proof.
  unfold halts, bind. destruct (m w) as [a w1|e w1|]; [|done..].
  intros _ Hk. by apply Hk.
Qed.

Lemma halts_try_except {A} (m : M A) handled h w :
  halts m w -> (forall e w1, m w = Raised e w1 -> halts (h e) w1) ->
  halts (try_except m handled h) w.
Proof.
  unfold halts, try_except. destruct (m w) as [a w1|e w1|]; [done| |done].
  intros _ Hh. destruct (handled e); [by apply Hh|done].
Qed.

(** ** What a step leaves unchanged *)

Lemma same_env_refl w : same_env w w.
Proof. done. Qed.

Lemma same_env_trans w1 w2 w3 : same_env w1 w2 -> same_env w2 w3 -> same_env w1 w3.
Proof. unfold same_env. intros [-> ->] [-> ->]. done. Qed.

Lemma same_files_refl w : same_files w w.
Proof. done. Qed.

Lemma same_files_trans w1 w2 w3 : same_files w1 w2 -> same_files w2 w3 -> same_files w1 w3.
Proof.
  unfold same_files. intros [He1 ->] [He2 ->]. split; [|done].
  by eapply same_env_trans.
Qed.

Lemma same_state_refl w : same_state w w.
Proof. done. Qed.

Lemma same_state_trans w1 w2 w3 : same_state w1 w2 -> same_state w2 w3 -> same_state w1 w3.
Proof.
  unfold same_state. intros [Hf1 ->] [Hf2 ->]. split; [|done].
  by eapply same_files_trans.
Qed.

Lemma same_state_files w w' : same_state w w' -> same_files w w'.
Proof. by intros [? ?]. Qed.

Lemma same_files_env w w' : same_files w w' -> same_env w w'.
Proof. by intros [? ?]. Qed.

Create HintDb frame.
#[export] Hint Resolve same_env_refl same_files_refl same_state_refl
  same_state_files same_files_env : frame.

(** * Binary64 arithmetic on row counts *)

Lemma digits2_pos_size p : digits2_pos p = Pos.size p.
Proof. induction p; simpl; congruence. Qed.

Lemma Zdigits2_lower p : 2 ^ (Z.pos (digits2_pos p) - 1) <= Z.pos p.
Proof.
  rewrite digits2_pos_size.
  pose proof (Pos.size_le p) as Hle.
  assert (Z.pos (2 ^ Pos.size p) <= Z.pos p~0) as Hz by lia.
  rewrite Pos2Z.inj_pow in Hz.
  replace (Z.pos (Pos.size p)) with (Z.succ (Z.pos (Pos.size p) - 1)) in Hz by lia.
  rewrite Z.pow_succ_r in Hz by lia. lia.
Qed.

Lemma Zdigits2_upper p : Z.pos p < 2 ^ Z.pos (digits2_pos p).
Proof.
  rewrite digits2_pos_size.
  pose proof (Pos.size_gt p) as Hgt.
  assert (Z.pos p < Z.pos (2 ^ Pos.size p)) as Hz by lia.
  by rewrite Pos2Z.inj_pow in Hz.
Qed.

Lemma Zdigits2_nonneg m : 0 <= Zdigits2 m.
Proof. destruct m; simpl; lia. Qed.

Lemma Zdigits2_le m k : 0 <= k -> 0 <= m < 2 ^ k -> Zdigits2 m <= k.
Proof.
  intros Hk [Hm0 Hm]. destruct m as [|p|p]; simpl; [lia| |lia].
  pose proof (Zdigits2_lower p) as Hlow.
  destruct (decide (Z.pos (digits2_pos p) <= k)) as [|Hgt]; [done|].
  assert (2 ^ k <= 2 ^ (Z.pos (digits2_pos p) - 1)) by (apply Z.pow_le_mono_r; lia).
  lia.
Qed.

(** [iter_pos f p] applies [f] exactly [p] times. *)
Lemma iter_pos_invariant {A} (f : A -> A) (P : nat -> A -> Prop) :
  (forall k x, P k x -> P (S k) (f x)) ->
  forall p k x, P k x -> P (k + Pos.to_nat p)%nat (SpecFloat.iter_pos f p x).
Proof.
  intros Hstep. induction p as [p IH|p IH|]; intros k x HP; simpl.
  - rewrite Pos2Nat.inj_xI.
    replace (k + S (2 * Pos.to_nat p))%nat with (S k + Pos.to_nat p + Pos.to_nat p)%nat by lia.
    by apply IH, IH, Hstep.
  - rewrite Pos2Nat.inj_xO.
    replace (k + 2 * Pos.to_nat p)%nat with (k + Pos.to_nat p + Pos.to_nat p)%nat by lia.
    by apply IH, IH.
  - replace (k + Pos.to_nat 1)%nat with (S k) by lia. by apply Hstep.
Qed.

Lemma shr_1_halves x : 0 <= shr_m x -> shr_m (shr_1 x) = shr_m x / 2.
Proof.
  destruct x as [m r s]. cbn [shr_m]. intros Hm. rewrite <- Z.div2_div.
  by destruct m as [|[p|p|]|p]; [..|lia].
Qed.

Lemma shr_1_round x :
  0 <= shr_m x -> shr_r (shr_1 x) = Z.odd (shr_m x).
Proof.
  destruct x as [m r s]. cbn [shr_m]. intros Hm.
  by destruct m as [|[p|p|]|p]; [..|lia].
Qed.

Lemma shr_1_sticky x : shr_s (shr_1 x) = shr_r x || shr_s x.
Proof. destruct x as [m r s]; simpl. by destruct m as [|[p|p|]|[p|p|]]. Qed.

Lemma shifted_step M k x : 0 <= M -> shifted M k x -> shifted M (S k) (shr_1 x).
Proof.
  intros HM [Hm Hex].
  assert (0 < 2 ^ Z.of_nat k) as Hpow by (apply Z.pow_pos_nonneg; lia).
  assert (0 <= shr_m x) as Hm0 by (rewrite Hm; apply Z.div_pos; lia).
  assert (2 ^ Z.of_nat (S k) = 2 ^ Z.of_nat k * 2) as Hs.
  { rewrite Nat2Z.inj_succ, Z.pow_succ_r by lia. lia. }
  split.
  - rewrite shr_1_halves, Hm, Hs by done.
    rewrite Z.div_div by lia. done.
  - intros Hmod. rewrite Hs in Hmod.
    assert (M mod 2 ^ Z.of_nat k = 0) as Hmodk.
    { apply Z.mod_divide in Hmod; [|lia]. apply Z.mod_divide; [lia|].
      destruct Hmod as [q Hq]. exists (q * 2). lia. }
    destruct (Hex Hmodk) as [Hr Hs'].
    rewrite shr_1_round, shr_1_sticky, Hr, Hs' by done. split; [|done].
    rewrite Hm. apply Z.mod_divide in Hmod; [|lia]. destruct Hmod as [q Hq].
    replace M with ((q * 2) * 2 ^ Z.of_nat k) by lia.
    rewrite Z.div_mul by lia. rewrite Z.odd_mul. simpl. by rewrite andb_false_r.
Qed.

Lemma shifted_iter M p :
  0 <= M ->
  shifted M (Pos.to_nat p) (SpecFloat.iter_pos shr_1 p (Build_shr_record M false false)).
Proof.
  intros HM.
  apply (iter_pos_invariant shr_1 (shifted M) (fun k x => shifted_step M k x HM) p 0%nat).
  split; simpl; [by rewrite Z.div_1_r|done].
Qed.

Lemma loc_of_clear_record x :
  shr_r x = false -> shr_s x = false -> loc_of_shr_record x = loc_Exact.
Proof. destruct x as [m r s]; simpl. by intros -> ->. Qed.

(** [shr_fexp] on an exact mantissa: the exponent rises to the canonical
    one and the mantissa is divided by the matching power of two. *)
Lemma shr_fexp_exact M E :
  0 <= M ->
  exists mrs e1,
    shr_fexp prec emax M E loc_Exact = (mrs, e1) /\
    e1 = Z.max E (fexp prec emax (Zdigits2 M + E)) /\
    shr_m mrs = M / 2 ^ (e1 - E) /\
    (M mod 2 ^ (e1 - E) = 0 -> loc_of_shr_record mrs = loc_Exact).
Proof.
  intros HM. unfold shr_fexp, shr, shr_record_of_loc.
  destruct (fexp prec emax (Zdigits2 M + E) - E) as [|p|p] eqn:Hn.
  - eexists _, E. split; [done|]. split; [lia|].
    rewrite Z.sub_diag. simpl. by rewrite Z.div_1_r.
  - destruct (shifted_iter M p HM) as [Hm Hex].
    rewrite positive_nat_Z in Hm, Hex.
    eexists _, _. split; [done|]. split; [lia|].
    replace (E + Z.pos p - E) with (Z.pos p) by lia. split; [done|].
    intros Hmod. destruct (Hex Hmod). by apply loc_of_clear_record.
  - eexists _, E. split; [done|]. split; [lia|].
    rewrite Z.sub_diag. simpl. by rewrite Z.div_1_r.
Qed.

(** Dividing by [2 ^ (e1 - E)] keeps a mantissa between two integers
    scaled to the new exponent, with room for one unit when the division
    is not exact. *)
Lemma shift_bounds M E e1 K' K :
  E <= e1 <= 0 ->
  K' * 2 ^ (- E) <= M <= K * 2 ^ (- E) ->
  K' * 2 ^ (- e1) <= M / 2 ^ (e1 - E) <= K * 2 ^ (- e1) /\
  (M mod 2 ^ (e1 - E) <> 0 -> M / 2 ^ (e1 - E) + 1 <= K * 2 ^ (- e1)).
Proof.
  intros He [Hlo Hhi].
  assert (2 ^ (- E) = 2 ^ (- e1) * 2 ^ (e1 - E)) as Hsplit.
  { rewrite <- Z.pow_add_r by lia. f_equal. lia. }
  rewrite Hsplit in Hlo, Hhi.
  assert (0 < 2 ^ (e1 - E)) as Hb by (apply Z.pow_pos_nonneg; lia).
  assert (0 < 2 ^ (- e1)) as Ha by (apply Z.pow_pos_nonneg; lia).
  set (a := 2 ^ (- e1)) in *. set (b := 2 ^ (e1 - E)) in *.
  pose proof (Z.div_mod M b ltac:(lia)) as Hdm.
  pose proof (Z.mod_pos_bound M b Hb) as Hmb.
  split; [split|].
  - apply Z.div_le_lower_bound; [done|]. lia.
  - apply Z.div_le_upper_bound; [done|]. lia.
  - intros Hne.
    destruct (decide (M / b + 1 <= K * a)) as [|Hgt]; [done|exfalso].
    assert (K * a <= M / b) as Hge by lia.
    assert (b * (K * a) <= b * (M / b)) by (apply Z.mul_le_mono_nonneg_l; lia).
    lia.
Qed.

Lemma canonical_exponent_nonpos M E K :
  0 <= M -> E <= 0 -> K < 2 ^ 53 -> M <= K * 2 ^ (- E) ->
  Z.max E (fexp prec emax (Zdigits2 M + E)) <= 0.
Proof.
  intros HM HE HK Hhi.
  assert (0 < 2 ^ (- E)) as Ha by (apply Z.pow_pos_nonneg; lia).
  assert (M < 2 ^ (53 - E)) as Hlt.
  { replace (53 - E) with (53 + - E) by lia. rewrite Z.pow_add_r by lia.
    assert (K * 2 ^ (- E) < 2 ^ 53 * 2 ^ (- E)) by (apply Z.mul_lt_mono_pos_r; lia).
    lia. }
  assert (Zdigits2 M <= 53 - E) by (apply Zdigits2_le; lia).
  unfold fexp, emin, prec, emax. lia.
Qed.

Lemma round_nearest_even_cases m l :
  round_nearest_even m l = m \/
  (round_nearest_even m l = m + 1 /\ l <> loc_Exact).
Proof.
  destruct l as [|[| |]]; simpl; auto.
  destruct (Z.even m); auto.
Qed.

(** Rounding an exact non-negative value that lies between two integers
    below [2 ^ 53] gives a value between them. *)
Lemma binary_round_aux_between M E K' K :
  0 <= M -> E <= 0 -> 0 <= K' -> K < 2 ^ 53 ->
  K' * 2 ^ (- E) <= M <= K * 2 ^ (- E) ->
  between K' K (binary_round_aux prec emax false M E loc_Exact).
Proof.
  intros HM HE HK' HK Hb. unfold binary_round_aux.
  destruct (shr_fexp_exact M E HM) as (mrs & e1 & -> & He1 & Hm1 & Hloc1).
  assert (E <= e1 <= 0) as He1b.
  { pose proof (canonical_exponent_nonpos M E K HM HE HK (proj2 Hb)). lia. }
  destruct (shift_bounds M E e1 K' K He1b Hb) as [Hb1 Hb1'].
  set (m1 := round_nearest_even (shr_m mrs) (loc_of_shr_record mrs)).
  assert (0 < 2 ^ (- e1)) as Ha1 by (apply Z.pow_pos_nonneg; lia).
  assert (K' * 2 ^ (- e1) <= m1 <= K * 2 ^ (- e1)) as Hm1b.
  { subst m1. destruct (round_nearest_even_cases (shr_m mrs) (loc_of_shr_record mrs))
      as [->|[-> Hne]]; rewrite Hm1; [done|].
    split; [lia|]. apply Hb1'. intros Hmod. by apply Hne, Hloc1. }
  assert (0 <= m1) as Hm1pos by nia.
  destruct (shr_fexp_exact m1 e1 Hm1pos) as (mrs2 & e2 & -> & He2 & Hm2 & _).
  assert (e1 <= e2 <= 0) as He2b.
  { pose proof (canonical_exponent_nonpos m1 e1 K Hm1pos (proj2 He1b) HK (proj2 Hm1b)). lia. }
  destruct (shift_bounds m1 e1 e2 K' K He2b Hm1b) as [Hb2 _].
  rewrite <- Hm2 in Hb2.
  assert (0 < 2 ^ (- e2)) as Ha2 by (apply Z.pow_pos_nonneg; lia).
  destruct (shr_m mrs2) as [|m|m] eqn:Hm.
  - simpl. nia.
  - assert ((e2 <=? emax - prec) = true) as -> by (unfold emax, prec; lia).
    simpl. lia.
  - nia.
Qed.

Lemma int_of_float_between K' K x :
  0 <= K' <= K -> between K' K x ->
  exists u, (forall w, int_of_float x w = Done u w) /\ K' <= u <= K.
Proof.
  intros HK Hx. destruct x as [[]|[]| |[] m e]; try done.
  - exists 0. split; [done|]. simpl in Hx. lia.
  - destruct Hx as [He Hm]. eexists. split; [done|]. simpl.
    assert (0 < 2 ^ (- e)) as Ha by (apply Z.pow_pos_nonneg; lia).
    destruct (decide (0 <= e)) as [H0|H0].
    + assert (e = 0) as -> by lia. simpl in *. lia.
    + split.
      * apply Z.div_le_lower_bound; lia.
      * apply Z.div_le_upper_bound; lia.
Qed.

(** [float(n)] is exact for [0 < n < 2 ^ 53]. *)
Lemma float_of_int_exact n :
  0 < n < 2 ^ 53 ->
  exists m e, (forall w, float_of_int n w = Done (S754_finite false m e) w) /\
    e <= 0 /\ Z.pos m = n * 2 ^ (- e).
Proof.
  intros Hn. destruct n as [|p|p]; [lia| |lia].
  assert (between (Z.pos p) (Z.pos p) (binary_normalize prec emax (Z.pos p) 0 false)) as Hb.
  { unfold binary_normalize, binary_round.
    assert (fexp prec emax (Z.pos (digits2_pos p) + 0) <= 0) as Hfexp.
    { pose proof (canonical_exponent_nonpos (Z.pos p) 0 (Z.pos p)) as Hc.
      simpl (Zdigits2 _) in Hc. simpl (2 ^ (- 0)) in Hc. lia. }
    unfold shl_align.
    destruct (fexp prec emax (Z.pos (digits2_pos p) + 0) - 0) as [|d|d] eqn:Hd.
    - apply binary_round_aux_between; lia.
    - lia.
    - assert (fexp prec emax (Z.pos (digits2_pos p) + 0) = Z.neg d) as -> by lia.
      pose proof (shift_pos_correct d p) as Hs. unfold shift_pos in Hs.
      rewrite Z.pow_pos_fold in Hs.
      apply binary_round_aux_between; try lia.
      rewrite Hs. change (- Z.neg d) with (Z.pos d). lia. }
  unfold float_of_int.
  destruct (binary_normalize prec emax (Z.pos p) 0 false) as [[]|[]| |[] m e]; try done.
  destruct Hb as [He Hm]. exists m, e. split; [done|]. split; [done|]. lia.
Qed.

(** The binary64 values the range check [0.0 <= x <= 1.0] lets through. *)
Lemma in_unit_interval_inv x :
  valid_binary prec emax x = true -> in_unit_interval x = true ->
  (exists s, x = S754_zero s) \/
  (exists m e, x = S754_finite false m e /\ e <= 0 /\ Z.pos m <= 2 ^ (- e)).
Proof.
  intros Hv Hx. unfold in_unit_interval in Hx. apply andb_true_iff in Hx as [H0 H1].
  destruct x as [s|s| |s m e]; [by eauto|by destruct s|done|right].
  destruct s; [done|]. exists m, e. split; [done|].
  unfold SFleb, SFcompare, float_one in H1.
  simpl in Hv. unfold bounded in Hv. apply andb_true_iff in Hv as [Hc _].
  unfold canonical_mantissa in Hc. apply Z.eqb_eq in Hc.
  destruct (e ?= -52) eqn:He.
  - apply Z.compare_eq in He. subst e. split; [lia|].
    rewrite Pos.compare_cont_spec in H1. simpl in H1.
    change (2 ^ (- -52)) with 4503599627370496.
    destruct (m ?= 4503599627370496)%positive eqn:Hm; try done.
    + apply Pos.compare_eq in Hm. lia.
    + exact (Pos.lt_le_incl _ _ (proj1 (Pos.compare_lt_iff _ _) Hm)).
  - pose proof (proj1 (Z.compare_lt_iff _ _) He). split; [lia|].
    unfold fexp, emin, prec, emax in Hc.
    assert (Z.pos (digits2_pos m) <= 53) as Hd by lia.
    pose proof (Zdigits2_upper m) as Hup.
    assert (2 ^ Z.pos (digits2_pos m) <= 2 ^ (- e)) by (apply Z.pow_le_mono_r; lia).
    lia.
  - done.
Qed.

(** [int(n * x)] lies between any two integers that the exact product of
    [n] and [x] lies between. *)
Lemma num_unique_keys_finite n m e K' K :
  0 < n < 2 ^ 53 -> e <= 0 -> 0 <= K' -> K < 2 ^ 53 ->
  K' * 2 ^ (- e) <= n * Z.pos m <= K * 2 ^ (- e) ->
  exists u, (forall w, DataGen.num_unique_keys n (S754_finite false m e) w = Done u w) /\
    K' <= u <= K.
Proof.
  intros Hn He HK' HK Hb.
  destruct (float_of_int_exact n Hn) as (mn & en & Hf & Hen & Hmn).
  assert (0 < 2 ^ (- en)) as Ha by (apply Z.pow_pos_nonneg; lia).
  assert (0 < 2 ^ (- e)) as Hb' by (apply Z.pow_pos_nonneg; lia).
  assert (between K' K (SFmul prec emax (S754_finite false mn en) (S754_finite false m e))) as Hbt.
  { simpl. apply binary_round_aux_between; try lia.
    replace (- (en + e)) with (- en + - e) by lia.
    rewrite Z.pow_add_r, Pos2Z.inj_mul, Hmn by lia. nia. }
  destruct (int_of_float_between K' K _ ltac:(nia) Hbt) as (u & Hu & Hub).
  exists u. split; [|done]. intros w.
  unfold DataGen.num_unique_keys, int_times_float, bind. rewrite Hf. simpl.
  apply Hu.
Qed.

(** For a row count below [2 ^ 53] and a fraction that passed the range
    check, [num_unique_keys] returns a count between 0 and the row count. *)
Lemma num_unique_keys_range n x :
  0 <= n < 2 ^ 53 ->
  valid_binary prec emax x = true -> in_unit_interval x = true ->
  exists u, (forall w, DataGen.num_unique_keys n x w = Done u w) /\ 0 <= u <= n.
Proof.
  intros Hn Hv Hx.
  destruct (decide (n = 0)) as [->|Hn0].
  { exists 0. split; [|lia]. intros w.
    destruct (in_unit_interval_inv x Hv Hx) as [[s ->]|(m & e & -> & _)]; done. }
  destruct (in_unit_interval_inv x Hv Hx) as [[s ->]|(m & e & -> & He & Hm)].
  - destruct (float_of_int_exact n ltac:(lia)) as (mn & en & Hf & _).
    exists 0. split; [|lia]. intros w.
    unfold DataGen.num_unique_keys, int_times_float, bind. by rewrite Hf.
  - apply num_unique_keys_finite; try lia.
    assert (0 < 2 ^ (- e)) by (apply Z.pow_pos_nonneg; lia). nia.
Qed.

(** With a fraction of [1.0] every key is asked to be unique, with [0.0]
    none. *)
Lemma num_unique_keys_one n :
  0 <= n < 2 ^ 53 -> forall w, DataGen.num_unique_keys n float_one w = Done n w.
Proof.
  intros Hn w. destruct (decide (n = 0)) as [->|Hn0]; [done|].
  destruct (num_unique_keys_finite n 4503599627370496 (-52) n n) as (u & Hu & Hub);
    try lia.
  rewrite Hu. f_equal. lia.
Qed.

Lemma num_unique_keys_zero n s :
  0 <= n < 2 ^ 53 -> forall w, DataGen.num_unique_keys n (S754_zero s) w = Done 0 w.
Proof.
  intros Hn w. destruct (decide (n = 0)) as [->|Hn0]; [done|].
  destruct (float_of_int_exact n ltac:(lia)) as (mn & en & Hf & _).
  unfold DataGen.num_unique_keys, int_times_float, bind. by rewrite Hf.
Qed.

(** * The library calls *)

Lemma print_safe m w :
  safe (print m) w (fun _ w' => same_state w w' /\ w_out w' = w_out w ++ [m]).
Proof. done. Qed.

Lemma random_raw_safe w :
  safe random_raw w (fun r w' => r = w_draws w (w_pos w) /\ same_files w w').
Proof. done. Qed.

Lemma randbelow_safe n w :
  0 < n -> safe (randbelow n) w (fun r w' => 0 <= r < n /\ same_files w w').
Proof.
  intros Hn. unfold safe, wp, randbelow, bind, random_raw, ret.
  split; [|done]. by apply Z.mod_pos_bound.
Qed.

Lemma randint_safe a b w :
  a <= b -> safe (randint a b) w (fun r w' => a <= r <= b /\ same_files w w').
Proof.
  intros Hab. unfold randint. destruct (decide (b < a)); [lia|].
  apply safe_bind. eapply safe_mono; [apply randbelow_safe; lia|].
  intros r w' [Hr Hw]. apply safe_ret. split; [lia|done].
Qed.

Lemma choice_safe (l : list Z) w :
  l <> [] -> safe (choice l) w (fun k w' => k ∈ l /\ same_files w w').
Proof.
  intros Hl. unfold choice. destruct l as [|x l']; [done|].
  apply safe_bind. eapply safe_mono; [apply randbelow_safe; simpl; lia|].
  intros j w' [Hj Hw]. apply safe_ret. split; [|done].
  apply list_elem_of_In, nth_In. lia.
Qed.

(** Exchanging two items permutes the list. *)
Lemma insert_cons_perm (l : list Z) i a y :
  l !! i = Some y -> y :: <[i := a]> l ≡ₚ a :: l.
Proof.
  revert i. induction l as [|b l IH]; intros [|i] Hi; simplify_eq/=.
  - apply perm_swap.
  - rewrite perm_swap, (IH i Hi). apply perm_swap.
Qed.

Lemma swap_perm (x : list Z) i j : swap x i j ≡ₚ x.
Proof.
  unfold swap.
  destruct (x !! i) as [xi|] eqn:Hi; [|done].
  destruct (x !! j) as [xj|] eqn:Hj; [|done].
  apply (Permutation_cons_inv (a := xj)).
  assert (<[i := xj]> x !! j = Some xj) as Hj'.
  { destruct (decide (i = j)) as [->|Hne].
    - apply list_lookup_insert_eq. by eapply lookup_lt_Some.
    - by rewrite list_lookup_insert_ne. }
  rewrite (insert_cons_perm _ j xi xj Hj').
  by apply insert_cons_perm.
Qed.

Lemma shuffle_from_safe i (x : list Z) w :
  safe (shuffle_from i x) w (fun x' w' => x' ≡ₚ x /\ same_files w w').
Proof.
  revert x w. induction i as [|i IH]; intros x w; simpl.
  - by apply safe_ret.
  - apply safe_bind. eapply safe_mono; [apply randbelow_safe; lia|].
    intros j w1 [_ Hw1]. eapply safe_mono; [apply IH|].
    intros x' w2 [Hx' Hw2]. split.
    + by rewrite Hx', swap_perm.
    + by eapply same_files_trans.
Qed.

Lemma shuffle_safe (x : list Z) w :
  safe (shuffle x) w (fun x' w' => x' ≡ₚ x /\ same_files w w').
Proof. apply shuffle_from_safe. Qed.

Lemma repeat_m_safe {A} (P : A -> Prop) n (m : M A) w :
  (forall w1, same_files w w1 -> safe m w1 (fun a w2 => P a /\ same_files w1 w2)) ->
  safe (repeat_m n m) w (fun l w' => length l = n /\ Forall P l /\ same_files w w').
Proof.
  revert w. induction n as [|n IH]; intros w Hm; simpl.
  - by apply safe_ret.
  - apply safe_bind. eapply safe_mono; [by apply Hm|].
    intros a w1 [Ha Hw1]. apply safe_bind. eapply safe_mono.
    + apply IH. intros w2 Hw2. apply Hm. by eapply same_files_trans.
    + intros l w2 (Hlen & Hl & Hw2). apply safe_ret.
      split; [by rewrite <- Hlen|]. split; [by constructor|].
      by eapply same_files_trans.
Qed.

(** A [for] loop keeps an invariant of the items already visited; an
    exception leaves through [E]. *)
Lemma for_each_wp {A} (l : list A) (body : A -> M unit)
    (I : list A -> world -> Prop) (E : exn -> world -> Prop) w :
  I [] w ->
  (forall pre a suf w1, l = pre ++ a :: suf -> I pre w1 ->
     wp (body a) w1 (fun _ w2 => I (pre ++ [a]) w2) E) ->
  wp (for_each l body) w (fun _ w' => I l w') E.
Proof.
  intros Hinit Hbody.
  assert (forall suf pre w1, l = pre ++ suf -> I pre w1 ->
            wp (for_each suf body) w1 (fun _ w' => I l w') E) as Hgen.
  { induction suf as [|a suf IH]; intros pre w1 Hl Hpre; simpl.
    - rewrite app_nil_r in Hl. subst pre. by apply wp_ret.
    - apply wp_bind. eapply wp_mono; [by eapply Hbody| |done].
      intros [] w2 Hw2. apply (IH (pre ++ [a])); [|done].
      by rewrite <- app_assoc. }
  by apply (Hgen l []).
Qed.

(** None of the library calls loops. *)
Lemma halts_print m w : halts (print m) w.
Proof. done. Qed.

Lemma halts_open_w name w : halts (open_w name) w.
Proof. unfold halts, open_w. by destruct (w_faults w name). Qed.

Lemma halts_write name l w : halts (write name l) w.
Proof.
  unfold halts, write. destruct (w_faults w name); try done.
  by destruct (decide _).
Qed.

Lemma halts_randbelow n w : halts (randbelow n) w.
Proof. done. Qed.

Lemma halts_randint a b w : halts (randint a b) w.
Proof. unfold randint. by destruct (decide _). Qed.

Lemma halts_choice l w : halts (choice l) w.
Proof. by destruct l. Qed.

Lemma halts_index keys i w : halts (index keys i) w.
Proof. unfold halts, index. by destruct (keys !! i). Qed.

Lemma halts_shuffle_from i x w : halts (shuffle_from i x) w.
Proof.
  revert x w. induction i as [|i IH]; intros x w; [done|].
  simpl. apply halts_bind; [done|]. intros j w1 _. apply IH.
Qed.

Lemma halts_shuffle x w : halts (shuffle x) w.
Proof. apply halts_shuffle_from. Qed.

Lemma halts_repeat_m {A} n (m : M A) w :
  (forall w1, halts m w1) -> halts (repeat_m n m) w.
Proof.
  intros Hm. revert w. induction n as [|n IH]; intros w; [done|].
  simpl. apply halts_bind; [done|]. intros a w1 _.
  apply halts_bind; [done|]. by intros.
Qed.

Lemma halts_for_each {A} (l : list A) body w :
  (forall a w1, halts (body a) w1) -> halts (for_each l body) w.
Proof.
  intros Hb. revert w. induction l as [|a l IH]; intros w; [done|].
  simpl. apply halts_bind; [done|]. by intros.
Qed.

Lemma halts_argv_get argv i w : halts (argv_get argv i) w.
Proof. unfold halts, argv_get. by destruct (argv !! i). Qed.

Lemma halts_float_of_int n w : halts (float_of_int n) w.
Proof. unfold halts, float_of_int. by destruct (binary_normalize _ _ _ _ _). Qed.

Lemma halts_int_of_float x w : halts (int_of_float x) w.
Proof. by destruct x. Qed.

Create HintDb halts.
#[export] Hint Resolve halts_ret halts_raise halts_print halts_open_w halts_write
  halts_randbelow halts_randint halts_choice halts_index halts_shuffle
  halts_repeat_m halts_for_each halts_argv_get halts_float_of_int
  halts_int_of_float : halts.

(** * [data_gen.py]: the key pool of one table *)

Lemma size_add_key (k : Z) (s : gset Z) :
  (size s <= size ({[k]} ∪ s) <= S (size s))%nat.
Proof.
  destruct (decide (k ∈ s)) as [Hin|Hout].
  - replace ({[k]} ∪ s) with s by set_solver. lia.
  - rewrite size_union by set_solver. rewrite size_singleton. lia.
Qed.

Lemma fill_unique_key_set_safe fuel u kmax (s : gset Z) w :
  (Z.of_nat (size s) < u -> 0 <= kmax) ->
  safe (DataGen.fill_unique_key_set fuel u kmax s) w (fun s' w' =>
    same_files w w' /\ s ⊆ s' /\
    (forall k, k ∈ s' -> k ∈ s \/ 0 <= k <= kmax) /\
    Z.of_nat (size s') = Z.max u (Z.of_nat (size s)) /\
    (u <= Z.of_nat (size s) -> w' = w)).
Proof.
  revert s w. induction fuel as [|fuel IH]; intros s w Hk; simpl;
    destruct (decide (Z.of_nat (size s) < u)) as [Hlt|Hge];
    try (apply safe_ret; repeat split; auto with lia; done).
  - done.
  - apply safe_bind. eapply safe_mono; [apply randint_safe; auto|].
    intros k w1 [Hkr Hw1]. eapply safe_mono; [apply IH; auto|].
    intros s' w2 (Hw2 & Hsub & Hel & Hsz & _).
    pose proof (size_add_key k s) as Hadd.
    split; [by eapply same_files_trans|].
    split; [set_solver|].
    split; [|split; [lia|lia]].
    intros k' Hk'. destruct (Hel k' Hk') as [Hin|Hr]; [|by right].
    apply elem_of_union in Hin as [Hin|Hin]; [|by left].
    apply elem_of_singleton in Hin. subst k'. by right.
Qed.

Lemma unique_key_list_safe fuel n u kmax w :
  (0 < u \/ 0 < n -> 0 <= kmax) ->
  safe (DataGen.unique_key_list fuel n u kmax) w (fun r w' =>
    match r with
    | Some l =>
        same_files w w' /\ NoDup l /\ Forall (fun k => 0 <= k <= kmax) l /\
        Z.of_nat (length l) = Z.max 1 u /\ (0 < u \/ 0 < n)
    | None =>
        u <= 0 /\ n <= 0 /\ same_state w w' /\ w_out w' = w_out w ++ [MsgNoRows]
    end).
Proof.
  intros Hk. unfold DataGen.unique_key_list.
  apply safe_bind. eapply safe_mono.
  { apply fill_unique_key_set_safe. rewrite size_empty. intros; apply Hk; lia. }
  intros s w1 (Hw1 & _ & Hel & Hsz & Hsame). rewrite size_empty in Hsz, Hsame.
  assert (Z.of_nat (length (elements s)) = Z.max u 0) as Hlen by done.
  destruct (elements s) as [|k0 l0] eqn:Helts.
  - simpl in Hlen. assert (u <= 0) as Hu by lia.
    rewrite (Hsame ltac:(lia)).
    destruct (decide (n > 0)) as [Hn|Hn].
    + apply safe_bind. eapply safe_mono; [apply randint_safe; apply Hk; lia|].
      intros k w2 [Hkr Hw2]. apply safe_ret.
      split; [done|]. split; [apply NoDup_singleton|].
      split; [by constructor|]. split; [simpl; lia|lia].
    + apply safe_bind. eapply safe_mono; [apply print_safe|].
      intros [] w2 [Hw2 Hout]. apply safe_ret.
      split; [lia|]. split; [lia|]. done.
  - apply safe_ret. split; [done|].
    split; [rewrite <- Helts; apply NoDup_elements|].
    split.
    + rewrite <- Helts. apply Forall_forall. intros k Hin.
      apply elem_of_elements in Hin. destruct (Hel k Hin) as [Hin'|]; [set_solver|done].
    + simpl in *. lia.
Qed.

Lemma duplicates_safe d (l : list Z) w :
  l <> [] ->
  safe (DataGen.duplicates d l) w (fun dups w' =>
    length dups = Z.to_nat d /\ Forall (fun k => k ∈ l) dups /\ same_files w w').
Proof.
  intros Hl. apply repeat_m_safe. intros w1 _. by apply choice_safe.
Qed.

Lemma key_pool_parts_safe fuel n x u w :
  0 <= n -> u <= n ->
  (forall w1, DataGen.num_unique_keys n x w1 = Done u w1) ->
  safe (DataGen.key_pool_parts fuel n x) w (fun r w' =>
    match r with
    | Some (l, dups) => 0 < n /\ same_files w w' /\ pool_parts_ok n u l dups
    | None => n = 0 /\ same_state w w' /\ w_out w' = w_out w ++ [MsgNoRows]
    end).
Proof.
  intros Hn Hun Hu. unfold DataGen.key_pool_parts.
  apply safe_bind. unfold safe at 1, wp. rewrite Hu.
  apply safe_bind. eapply safe_mono; [apply unique_key_list_safe; lia|].
  intros [l|] w1.
  - intros (Hw1 & Hnd & Hr & Hlen & Hpos).
    apply safe_bind. eapply safe_mono.
    { apply duplicates_safe. intros ->. simpl in Hlen. lia. }
    intros dups w2 (Hdl & Hin & Hw2). apply safe_ret.
    split; [lia|]. split; [by eapply same_files_trans|]. done.
  - intros (Hu0 & Hn0 & Hw1 & Hout). apply safe_ret.
    split; [lia|done].
Qed.

Lemma key_pool_safe fuel t n x u w :
  0 <= n -> u <= n ->
  (forall w1, DataGen.num_unique_keys n x w1 = Done u w1) ->
  safe (DataGen.key_pool fuel t n x) w (fun r w' =>
    match r with
    | Some keys => 0 < n /\ same_files w w' /\ pool_keys_ok n u keys
    | None => n = 0 /\ same_state w w' /\ w_out w' = w_out w ++ [MsgNoRows]
    end).
Proof.
  intros Hn Hun Hu. unfold DataGen.key_pool.
  apply safe_bind. eapply safe_mono; [by apply (key_pool_parts_safe fuel n x u)|].
  intros [[l dups]|] w1; [|intros ?; by apply safe_ret].
  intros (Hn0 & Hw1 & Hok).
  apply safe_bind. eapply safe_mono; [apply shuffle_safe|].
  intros final w2 [Hperm Hw2].
  apply safe_bind. eapply safe_mono; [apply print_safe|].
  intros [] w3 [Hw3 _]. apply safe_ret.
  split; [done|]. split.
  - eapply same_files_trans; [done|]. eapply same_files_trans; [done|].
    by apply same_state_files.
  - by exists l, dups, final.
Qed.

(** ** What the key list of a table looks like *)

Lemma pool_final_length n u (l dups final : list Z) :
  0 < n -> 0 <= u <= n ->
  pool_parts_ok n u l dups -> final ≡ₚ l ++ dups ->
  Z.of_nat (length final) = if decide (u = 0) then n + 1 else n.
Proof.
  intros Hn Hu (_ & _ & Hlen & Hdl & _) Hperm.
  rewrite Hperm, length_app, Hdl, Nat2Z.inj_add, Hlen.
  destruct (decide (u = 0)); lia.
Qed.

Lemma pool_keys_length n u keys :
  0 < n -> 0 <= u <= n -> pool_keys_ok n u keys -> Z.of_nat (length keys) = n.
Proof.
  intros Hn Hu (l & dups & final & Hok & Hperm & ->).
  pose proof (pool_final_length n u l dups final Hn Hu Hok Hperm) as Hlen.
  unfold slice_to. destruct (decide (0 <= n)); [|lia].
  rewrite length_take. destruct (decide (u = 0)); lia.
Qed.

Lemma pool_keys_range n u keys :
  0 <= n -> pool_keys_ok n u keys -> Forall (fun k => 0 <= k <= n * 2) keys.
Proof.
  intros Hn (l & dups & final & (_ & Hr & _ & _ & Hin) & Hperm & ->).
  unfold slice_to. destruct (decide (0 <= n)); [|lia].
  apply Forall_take. rewrite Hperm. apply Forall_app. split; [done|].
  rewrite Forall_forall in Hr. apply Forall_forall. intros k Hk.
  rewrite Forall_forall in Hin. by apply Hr, Hin.
Qed.

Lemma pool_keys_distinct n u keys :
  0 < n -> 0 <= u <= n -> pool_keys_ok n u keys ->
  Z.of_nat (distinct_keys keys) = Z.max 1 u.
Proof.
  intros Hn Hu (l & dups & final & Hok & Hperm & ->).
  pose proof (pool_final_length n u l dups final Hn Hu Hok Hperm) as Hflen.
  destruct Hok as (Hnd & _ & Hlen & _ & Hin).
  unfold slice_to. destruct (decide (0 <= n)); [|lia].
  assert (list_to_set (take (Z.to_nat n) final) = (list_to_set l : gset Z)) as Hset.
  { apply set_eq. intros k. rewrite !elem_of_list_to_set. split.
    - intros Hk. apply elem_of_take in Hk as (i & Hk & _).
      apply list_elem_of_lookup_2 in Hk. rewrite Hperm in Hk.
      apply elem_of_app in Hk as [Hk|Hk]; [done|].
      rewrite Forall_forall in Hin. by apply Hin.
    - intros Hk. destruct (decide (u = 0)) as [->|Hu0].
      + destruct l as [|k0 [|]]; simpl in Hlen; try lia.
        apply list_elem_of_singleton in Hk. subst k0.
        destruct final as [|k' final']; simpl in Hflen; [lia|].
        assert (k' = k) as ->.
        { assert (k' ∈ [k] ++ dups) as Hk' by (rewrite <- Hperm; left).
          apply elem_of_app in Hk' as [Hk'|Hk'].
          - by apply list_elem_of_singleton in Hk'.
          - rewrite Forall_forall in Hin. apply Hin in Hk'.
            by apply list_elem_of_singleton in Hk'. }
        replace (Z.to_nat n) with (S (Z.to_nat (n - 1))) by lia. left.
      + rewrite take_ge by lia. rewrite Hperm. apply elem_of_app. by left. }
  unfold distinct_keys. rewrite Hset, size_list_to_set by done. done.
Qed.

(** * Writing a table *)

(** Every writer of the three scripts is the same block: open the file,
    write one line per index of [range(n)], and leave through the
    [except IOError] handler when the file system fails. *)

Lemma open_w_wp name w :
  wp (open_w name) w
    (fun _ w' => same_env w w' /\ w_fs w' = <[name := []]> (w_fs w))
    (fun e w' => e = IOError /\ w' = w /\ w_faults w name <> NoFault).
Proof.
  unfold wp, open_w. by destruct (w_faults w name).
Qed.

Lemma write_wp name l w :
  wp (write name l) w
    (fun _ w' => appended name l w w')
    (fun e w' => e = IOError /\ w' = w /\ w_faults w name <> NoFault).
Proof.
  unfold wp, write. destruct (w_faults w name); try done.
  by destruct (decide _).
Qed.

Lemma lines_ok_snoc P lines l :
  lines_ok P lines -> P (length lines) l -> lines_ok P (lines ++ [l]).
Proof.
  intros Hok Hl i l' Hi. apply lookup_app_Some in Hi as [Hi|[Hge Hi]].
  - by apply Hok.
  - apply list_lookup_singleton_Some in Hi as [Hi ->].
    by replace i with (length lines) by lia.
Qed.

Lemma write_loop_wp name P n (body : nat -> M unit) w0 w :
  same_env w0 w -> w_fs w = <[name := []]> (w_fs w0) ->
  (forall i w1, (i < n)%nat ->
     wp (body i) w1
       (fun _ w2 => exists l, P i l /\ appended name l w1 w2)
       (fun e w2 => e = IOError /\ same_files w1 w2 /\ w_faults w1 name <> NoFault)) ->
  wp (for_each (seq 0 n) body) w
    (fun _ w' => written name P n w0 w')
    (fun e w' => e = IOError /\ w_faults w0 name <> NoFault /\
                 exists c, (c <= n)%nat /\ written name P c w0 w').
Proof.
  intros Henv Hfs Hbody.
  eapply wp_mono.
  - apply (for_each_wp (seq 0 n) body
      (fun pre w1 => written name P (length pre) w0 w1)
      (fun e w' => e = IOError /\ w_faults w0 name <> NoFault /\
                   exists c, (c <= n)%nat /\ written name P c w0 w')).
    + split; [done|]. exists []. split; [done|]. split; [|done].
      by intros i l Hi.
    + intros pre a suf w1 Hseq (Henv1 & lines & Hlen & Hok & Hfs1).
      assert (a = length pre /\ (length pre < n)%nat) as [-> Hlt].
      { pose proof (f_equal length Hseq) as Hl.
        rewrite length_seq, length_app in Hl. simpl in Hl.
        assert (seq 0 n !! length pre = Some a) as Ha.
        { rewrite Hseq. by apply list_lookup_middle. }
        apply lookup_seq in Ha. lia. }
      eapply wp_mono; [by apply Hbody| |].
      * intros [] w2 (l & HP & Henv2 & Hfs2). split; [by eapply same_env_trans|].
        exists (lines ++ [l]). rewrite length_app, length_app, Hlen. split; [done|].
        split; [apply lines_ok_snoc; by rewrite ?Hlen|].
        rewrite Hfs2. unfold file_lines. rewrite Hfs1, lookup_insert_eq. simpl.
        by rewrite insert_insert_eq.
      * intros e w2 (-> & [Henv2 Hfs2] & Hf). split; [done|].
        split; [by rewrite <- (proj2 Henv1)|].
        exists (length pre). split; [lia|]. split; [by eapply same_env_trans|].
        exists lines. by rewrite Hfs2.
  - intros [] w'. by rewrite length_seq.
  - done.
Qed.

(** The writer block, as it occurs in each of the six writers. *)
Lemma write_block_safe name P n (body : nat -> M unit) (handler : M bool) w :
  (forall i w1, (i < Z.to_nat n)%nat ->
     wp (body i) w1
       (fun _ w2 => exists l, P i l /\ appended name l w1 w2)
       (fun e w2 => e = IOError /\ same_files w1 w2 /\ w_faults w1 name <> NoFault)) ->
  (forall w1, safe handler w1 (fun ok w2 => ok = false /\ same_state w1 w2)) ->
  safe (try_except
          (open_w name ;;; for_each (range n) body ;;; ret true)
          is_io_error (fun _ => handler)) w
    (fun ok w' => file_written name P (Z.to_nat n) ok w w').
Proof.
  intros Hbody Hh. apply wp_try_except, wp_bind.
  eapply wp_mono; [apply open_w_wp| |].
  - intros [] w1 [Henv1 Hfs1]. apply wp_bind. eapply wp_mono.
    + by apply (write_loop_wp name P (Z.to_nat n) body w w1).
    + intros [] w2 Hw. by apply wp_ret.
    + intros e w2 (-> & Hf & c & Hc & Hw). simpl.
      eapply safe_mono; [apply Hh|]. intros ok w3 [-> Hw3]. simpl.
      split; [done|]. destruct Hw as (Henv2 & lines & Hlen & Hok & Hfs2).
      split; [eapply same_env_trans; [done|]; by apply Hw3|].
      right. exists c. split; [done|].
      split; [eapply same_env_trans; [done|]; by apply Hw3|].
      exists lines. split; [done|]. split; [done|].
      by rewrite (proj2 (proj1 Hw3)).
  - intros e w1 (-> & -> & Hf). simpl.
    eapply safe_mono; [apply Hh|]. intros ok w3 [-> Hw3]. simpl.
    split; [done|]. split; [by apply Hw3|]. left. by apply Hw3.
Qed.

Lemma file_written_no_fault name P n ok w w' :
  w_faults w name = NoFault -> file_written name P n ok w w' -> ok = true.
Proof. intros Hf. destruct ok; [done|]. by intros [? _]. Qed.

Lemma halts_write_block name n (body : nat -> M unit) (handler : M bool) w :
  (forall i w1, halts (body i) w1) -> (forall w1, halts handler w1) ->
  halts (try_except
           (open_w name ;;; for_each (range n) body ;;; ret true)
           is_io_error (fun _ => handler)) w.
Proof.
  intros Hb Hh. apply halts_try_except; [|by intros].
  apply halts_bind; [apply halts_open_w|]. intros _ w1 _.
  apply halts_bind; [by apply halts_for_each|]. by intros.
Qed.

(** * [data_gen.py]: the two writers *)

Lemma row_of_key t keys i l : row_of t keys i l -> keys !! i = Some (line_key l).
Proof. destruct t; [intros (k & v & -> & Hk & _)|intros (k & -> & Hk)]; done. Qed.

Lemma written_keys t name keys c w w' :
  (c <= length keys)%nat -> written name (row_of t keys) c w w' ->
  file_keys name w' = take c keys.
Proof.
  intros Hc (_ & lines & Hlen & Hok & Hfs).
  unfold file_keys, file_lines. rewrite Hfs, lookup_insert_eq. simpl.
  apply list_eq. intros i. rewrite list_lookup_fmap.
  destruct (decide (i < c)%nat) as [Hi|Hi].
  - rewrite lookup_take_lt by done.
    destruct (lines !! i) as [l|] eqn:Hl.
    + simpl. symmetry. by eapply row_of_key, Hok.
    + apply lookup_ge_None in Hl. lia.
  - rewrite lookup_take_ge by lia.
    rewrite (proj2 (lookup_ge_None lines i)) by lia. done.
Qed.

Lemma written_frame name P c w0 w1 w2 w3 :
  same_state w0 w1 -> written name P c w1 w2 -> same_state w2 w3 ->
  written name P c w0 w3.
Proof.
  intros [[He0 Hf0] _] (He & lines & Hlen & Hok & Hfs) [[He2 Hf2] _].
  split; [eapply same_env_trans; [done|]; by eapply same_env_trans|].
  exists lines. split; [done|]. split; [done|]. by rewrite Hf2, Hfs, Hf0.
Qed.

Lemma file_written_frame name P n ok w0 w1 w2 w3 :
  same_state w0 w1 -> file_written name P n ok w1 w2 -> same_state w2 w3 ->
  file_written name P n ok w0 w3.
Proof.
  intros H01 Hw H23. destruct ok; simpl in *.
  - by eapply written_frame.
  - destruct Hw as (Hf & He & Hfs).
    destruct H01 as [[He0 Hf0] Hp0]. destruct H23 as [[He2 Hf2] Hp2].
    split; [by rewrite <- (proj2 He0)|].
    split; [eapply same_env_trans; [done|]; by eapply same_env_trans|].
    destruct Hfs as [Hfs|(c & Hc & Hwr)].
    + left. by rewrite Hf2, Hfs.
    + right. exists c. split; [done|]. by eapply written_frame.
Qed.

Lemma generate_file_a_safe n keys w :
  (Z.to_nat n <= length keys)%nat ->
  safe (DataGen.generate_file_a n keys) w (fun _ w' =>
    exists ok, file_written "A.txt" (row_a keys) (Z.to_nat n) ok w w').
Proof.
  intros Hn. unfold DataGen.generate_file_a.
  apply safe_bind. eapply safe_mono; [apply print_safe|].
  intros [] w1 [Hw1 _]. apply safe_bind. eapply safe_mono.
  - apply (write_block_safe "A.txt" (row_a keys)).
    + intros i w2 Hi.
      destruct (lookup_lt_is_Some_2 keys i ltac:(lia)) as [k Hk].
      apply wp_bind. unfold index. rewrite Hk. apply wp_ret.
      apply wp_bind. eapply wp_mono; [apply randint_safe; lia| |done].
      intros v w3 [Hv Hw3]. eapply wp_mono; [apply write_wp| |].
      * intros [] w4 [He4 Hfs4]. exists (RowKV k v).
        split; [by exists k, v|]. split.
        -- eapply same_env_trans; [by apply Hw3|done].
        -- rewrite Hfs4. unfold file_lines. by rewrite (proj2 Hw3).
      * intros e w4 (-> & -> & Hf). split; [done|]. split; [done|].
        by rewrite <- (proj2 (proj1 Hw3)).
    + intros w2. apply safe_bind. eapply safe_mono; [apply print_safe|].
      intros [] w3 [Hw3 _]. by apply safe_ret.
  - intros ok w2 Hw2. destruct ok.
    + eapply safe_mono; [apply print_safe|]. intros [] w3 [Hw3 _].
      exists true. by eapply file_written_frame.
    + apply safe_ret. exists false. by eapply file_written_frame.
Qed.

Lemma generate_file_b_safe n keys w :
  (Z.to_nat n <= length keys)%nat ->
  safe (DataGen.generate_file_b n keys) w (fun _ w' =>
    exists ok, file_written "B.txt" (row_b keys) (Z.to_nat n) ok w w').
Proof.
  intros Hn. unfold DataGen.generate_file_b.
  apply safe_bind. eapply safe_mono; [apply print_safe|].
  intros [] w1 [Hw1 _]. apply safe_bind. eapply safe_mono.
  - apply (write_block_safe "B.txt" (row_b keys)).
    + intros i w2 Hi.
      destruct (lookup_lt_is_Some_2 keys i ltac:(lia)) as [k Hk].
      apply wp_bind. unfold index. rewrite Hk. apply wp_ret.
      eapply wp_mono; [apply write_wp| |].
      * intros [] w4 Happ. exists (RowK k). split; [by exists k|done].
      * intros e w4 (-> & -> & Hf). done.
    + intros w2. apply safe_bind. eapply safe_mono; [apply print_safe|].
      intros [] w3 [Hw3 _]. by apply safe_ret.
  - intros ok w2 Hw2. destruct ok.
    + eapply safe_mono; [apply print_safe|]. intros [] w3 [Hw3 _].
      exists true. by eapply file_written_frame.
    + apply safe_ret. exists false. by eapply file_written_frame.
Qed.

Lemma writer_safe t n keys w :
  (Z.to_nat n <= length keys)%nat ->
  safe (writer t n keys) w (fun _ w' =>
    exists ok, file_written (file_of t) (row_of t keys) (Z.to_nat n) ok w w').
Proof. destruct t; [apply generate_file_a_safe|apply generate_file_b_safe]. Qed.

Lemma halts_generate_file_a n keys w : halts (DataGen.generate_file_a n keys) w.
Proof.
  unfold DataGen.generate_file_a. apply halts_bind; [done|]. intros _ w1 _.
  apply halts_bind.
  - apply halts_write_block.
    + intros i w2. apply halts_bind; [apply halts_index|]. intros k w3 _.
      apply halts_bind; [apply halts_randint|]. intros v w4 _. apply halts_write.
    + intros w2. apply halts_bind; [done|]. by intros.
  - by intros [].
Qed.

Lemma halts_generate_file_b n keys w : halts (DataGen.generate_file_b n keys) w.
Proof.
  unfold DataGen.generate_file_b. apply halts_bind; [done|]. intros _ w1 _.
  apply halts_bind.
  - apply halts_write_block.
    + intros i w2. apply halts_bind; [apply halts_index|]. intros k w3 _.
      apply halts_write.
    + intros w2. apply halts_bind; [done|]. by intros.
  - by intros [].
Qed.

Lemma halts_writer t n keys w : halts (writer t n keys) w.
Proof. destruct t; [apply halts_generate_file_a|apply halts_generate_file_b]. Qed.

(** * Termination of the key loop *)

Lemma counting_source_fair : fair Z.of_nat.
Proof.
  intros p m v Hv.
  exists (Z.to_nat ((v - Z.of_nat p) mod m)).
  rewrite Nat2Z.inj_add, Z2Nat.id by (apply Z.mod_pos_bound; lia).
  rewrite Zplus_mod_idemp_r. replace (Z.of_nat p + (v - Z.of_nat p)) with v by lia.
  apply Z.mod_small. lia.
Qed.

Lemma stable_const {A} (m : M A) : stable (fun _ => m).
Proof. by intros fuel fuel' w _ _. Qed.

Lemma stable_bind {A B} (m : nat -> M A) (k : nat -> A -> M B) :
  stable m -> (forall a, stable (fun fuel => k fuel a)) ->
  stable (fun fuel => bind (m fuel) (k fuel)).
Proof.
  intros Hm Hk fuel fuel' w Hle Hh. unfold bind, halts in *.
  destruct (m fuel w) as [a w1|e w1|] eqn:Hrun; [| |done].
  - rewrite (Hm fuel fuel' w Hle); unfold halts; rewrite Hrun; [|done].
    by apply (Hk a).
  - rewrite (Hm fuel fuel' w Hle); unfold halts; by rewrite Hrun.
Qed.

Lemma stable_try_except {A} (m : nat -> M A) handled (h : exn -> M A) :
  stable m -> stable (fun fuel => try_except (m fuel) handled h).
Proof.
  intros Hm fuel fuel' w Hle Hh. unfold try_except, halts in *.
  destruct (m fuel w) as [a w1|e w1|] eqn:Hrun; [| |done];
    rewrite (Hm fuel fuel' w Hle); unfold halts; by rewrite Hrun.
Qed.

Lemma randint_run a b w :
  a <= b ->
  randint a b w =
    Done (a + w_draws w (w_pos w) mod (b - a + 1))
         (World (w_draws w) (S (w_pos w)) (w_faults w) (w_fs w) (w_out w)).
Proof. intros Hab. unfold randint. by destruct (decide (b < a)); [lia|]. Qed.

Lemma stable_fill_unique_key_set u kmax s :
  stable (fun fuel => DataGen.fill_unique_key_set fuel u kmax s).
Proof.
  intros fuel. revert s. induction fuel as [|fuel IH]; intros s fuel' w Hle Hh.
  - simpl in *. destruct fuel'; simpl; destruct (decide _); done.
  - destruct fuel' as [|fuel']; [lia|]. simpl in *.
    destruct (decide _); [|done].
    unfold bind, halts in *.
    destruct (randint 0 kmax w) as [k w1|e w1|]; [|done..].
    apply IH; [lia|done].
Qed.

(** A set with fewer than [kmax + 1] members misses a key of [[0, kmax]]. *)
Lemma missing_key kmax (s : gset Z) :
  0 <= kmax -> Z.of_nat (size s) < kmax + 1 ->
  exists v, 0 <= v <= kmax /\ v ∉ s.
Proof.
  intros Hk Hsz.
  set (L := Z.of_nat <$> seq 0 (Z.to_nat (kmax + 1))).
  destruct (decide (Forall (fun v => v ∈ s) L)) as [Hall|Hex].
  - exfalso.
    assert (NoDup L) as Hnd by (apply NoDup_fmap; [apply _|apply NoDup_seq]).
    assert ((list_to_set L : gset Z) ⊆ s) as Hsub.
    { intros v Hv. apply elem_of_list_to_set in Hv.
      rewrite Forall_forall in Hall. by apply Hall. }
    apply subseteq_size in Hsub. rewrite size_list_to_set in Hsub by done.
    subst L. rewrite length_fmap, length_seq in Hsub. lia.
  - apply not_Forall_Exists in Hex; [|apply _].
    apply Exists_exists in Hex as (v & Hv & Hout).
    exists v. split; [|done].
    apply list_elem_of_fmap in Hv as (j & -> & Hj).
    apply elem_of_seq in Hj. lia.
Qed.

Lemma fill_unique_key_set_step fuel u kmax (s : gset Z) w :
  0 <= kmax -> Z.of_nat (size s) < u ->
  DataGen.fill_unique_key_set (S fuel) u kmax s w =
  DataGen.fill_unique_key_set fuel u kmax
    ({[w_draws w (w_pos w) mod (kmax + 1)]} ∪ s)
    (World (w_draws w) (S (w_pos w)) (w_faults w) (w_fs w) (w_out w)).
Proof.
  intros Hk Hlt. simpl. destruct (decide _); [|lia].
  unfold bind. rewrite randint_run by done.
  by replace (kmax - 0 + 1) with (kmax + 1) by lia.
Qed.

Lemma fill_unique_key_set_halts u kmax :
  0 <= kmax -> u <= kmax + 1 ->
  forall (s : gset Z) w, fair (w_draws w) ->
  exists fuel, halts (DataGen.fill_unique_key_set fuel u kmax s) w.
Proof.
  intros Hk Hu.
  assert (forall s w, u <= Z.of_nat (size s) ->
            halts (DataGen.fill_unique_key_set 0 u kmax s) w) as Hfull.
  { intros s w Hs. simpl. by destruct (decide _); [lia|]. }
  assert (forall deficit (s : gset Z) w, fair (w_draws w) ->
            u - Z.of_nat (size s) <= Z.of_nat deficit ->
            exists fuel, halts (DataGen.fill_unique_key_set fuel u kmax s) w) as Hgen.
  { induction deficit as [|deficit IHd]; intros s w Hfair Hdef.
    { exists 0%nat. apply Hfull. lia. }
    destruct (decide (u <= Z.of_nat (size s))) as [Hge|Hlt].
    { exists 0%nat. by apply Hfull. }
    destruct (missing_key kmax s Hk ltac:(lia)) as (v & Hv & Hout).
    destruct (Hfair (w_pos w) (kmax + 1) v ltac:(lia)) as [i Hi].
    revert s w Hfair Hdef Hlt Hout Hi.
    induction i as [|i IHi]; intros s w Hfair Hdef Hlt Hout Hi.
    - rewrite Nat.add_0_r in Hi.
      destruct (IHd ({[v]} ∪ s)
                  (World (w_draws w) (S (w_pos w)) (w_faults w) (w_fs w) (w_out w)))
        as [fuel Hfuel]; [done| |].
      { rewrite size_union, size_singleton by set_solver. lia. }
      exists (S fuel). unfold halts in *.
      rewrite fill_unique_key_set_step by lia. by rewrite Hi.
    - set (k := w_draws w (w_pos w) mod (kmax + 1)).
      set (w1 := World (w_draws w) (S (w_pos w)) (w_faults w) (w_fs w) (w_out w)).
      assert (exists fuel, halts (DataGen.fill_unique_key_set fuel u kmax ({[k]} ∪ s)) w1)
        as [fuel Hfuel].
      { destruct (decide (k ∈ s)) as [Hin|Hnin].
        - replace ({[k]} ∪ s) with s by set_solver.
          apply IHi; [done..|]. subst w1. simpl.
          by rewrite Nat.add_succ_r in Hi.
        - apply IHd; [done|].
          rewrite size_union, size_singleton by set_solver. lia. }
      exists (S fuel). unfold halts in *.
      by rewrite fill_unique_key_set_step by lia. }
  intros s w Hfair.
  apply (Hgen (Z.to_nat (u - Z.of_nat (size s)))); [done|lia].
Qed.

Lemma halts_num_unique_keys n x w : halts (DataGen.num_unique_keys n x) w.
Proof.
  unfold DataGen.num_unique_keys, int_times_float.
  apply halts_bind.
  - apply halts_bind; [apply halts_float_of_int|]. by intros.
  - intros y w1 _. apply halts_int_of_float.
Qed.

Lemma halts_unique_key_list fuel n u kmax w :
  halts (DataGen.fill_unique_key_set fuel u kmax ∅) w ->
  halts (DataGen.unique_key_list fuel n u kmax) w.
Proof.
  intros Hfill. unfold DataGen.unique_key_list.
  apply halts_bind; [done|]. intros s w1 _.
  destruct (elements s); [|done].
  destruct (decide _).
  - apply halts_bind; [apply halts_randint|]. by intros.
  - apply halts_bind; [done|]. by intros.
Qed.

Lemma halts_key_pool_parts fuel n x w :
  (forall u w1, DataGen.num_unique_keys n x w = Done u w1 ->
     halts (DataGen.fill_unique_key_set fuel u (n * 2) ∅) w1) ->
  halts (DataGen.key_pool_parts fuel n x) w.
Proof.
  intros Hfill. unfold DataGen.key_pool_parts.
  apply halts_bind; [apply halts_num_unique_keys|]. intros u w1 Hu.
  apply halts_bind; [by apply halts_unique_key_list, Hfill|].
  intros [l|] w2 _; [|done].
  apply halts_bind; [|by intros].
  apply halts_repeat_m. intros w3. apply halts_choice.
Qed.

Lemma halts_key_pool fuel t n x w :
  halts (DataGen.key_pool_parts fuel n x) w ->
  halts (DataGen.key_pool fuel t n x) w.
Proof.
  intros Hparts. unfold DataGen.key_pool.
  apply halts_bind; [done|]. intros [[l dups]|] w1 _; [|done].
  apply halts_bind; [apply halts_shuffle|]. intros final w2 _.
  apply halts_bind; [done|]. by intros.
Qed.

(** With a fair source the key generation of a table ends. *)
Lemma key_pool_halts t n x u w :
  0 <= n -> u <= n ->
  (forall w1, DataGen.num_unique_keys n x w1 = Done u w1) ->
  fair (w_draws w) ->
  exists fuel, halts (DataGen.key_pool fuel t n x) w.
Proof.
  intros Hn Hun Hu Hfair.
  destruct (fill_unique_key_set_halts u (n * 2) ltac:(lia) ltac:(lia) ∅ w Hfair)
    as [fuel Hfuel].
  exists fuel. apply halts_key_pool, halts_key_pool_parts.
  intros u' w1 Hu'. rewrite Hu in Hu'. by simplify_eq.
Qed.

Lemma stable_unique_key_list n u kmax :
  stable (fun fuel => DataGen.unique_key_list fuel n u kmax).
Proof.
  apply (stable_bind (fun fuel => DataGen.fill_unique_key_set fuel u kmax ∅)
           (fun _ s => _)).
  - apply stable_fill_unique_key_set.
  - intros s. apply stable_const.
Qed.

Lemma stable_key_pool_parts n x :
  stable (fun fuel => DataGen.key_pool_parts fuel n x).
Proof.
  apply (stable_bind (fun _ => DataGen.num_unique_keys n x)
           (fun fuel u => bind (DataGen.unique_key_list fuel n u (n * 2)) _)).
  - apply stable_const.
  - intros u.
    apply (stable_bind (fun fuel => DataGen.unique_key_list fuel n u (n * 2))
             (fun _ l => _)).
    + apply stable_unique_key_list.
    + intros l. apply stable_const.
Qed.

Lemma stable_key_pool t n x : stable (fun fuel => DataGen.key_pool fuel t n x).
Proof.
  apply (stable_bind (fun fuel => DataGen.key_pool_parts fuel n x) (fun _ p => _)).
  - apply stable_key_pool_parts.
  - intros p. apply stable_const.
Qed.

Lemma stable_max {A} (m : nat -> M A) fuel1 fuel2 w :
  stable m -> halts (m fuel1) w -> m (Nat.max fuel1 fuel2) w = m fuel1 w.
Proof. intros Hm Hh. apply Hm; [lia|done]. Qed.

(** * [data_gen.py]: the whole run *)

Section DataGenRun.
Context `{Builtins}.

Lemma command_line_valid argv a b x :
  command_line argv a b x -> valid_binary prec emax x = true.
Proof. intros [script sa sb sx rest _ _ _ Hx]. by eapply py_float_valid. Qed.

Lemma parse_arguments_run argv a b x w :
  command_line argv a b x -> in_unit_interval x = true ->
  exists w', DataGen.parse_arguments argv w = Done (a, b, x) w' /\ same_state w w'.
Proof.
  intros [script sa sb sx rest -> Ha Hb Hx] Hin.
  unfold DataGen.parse_arguments, int_arg, float_arg, argv_get, bind. simpl.
  rewrite Ha, Hb, Hx. simpl. rewrite Hin. simpl. eexists. split; [done|]. done.
Qed.

Lemma parse_arguments_invalid argv w :
  invalid_arguments argv ->
  exists e, is_index_or_value_error e = true /\
    DataGen.parse_arguments argv w = Raised e w.
Proof.
  intros Hinv.
  unfold DataGen.parse_arguments, int_arg, float_arg, argv_get, bind. simpl.
  destruct (argv !! 1%nat) as [s1|] eqn:H1; simpl; [|by exists IndexError].
  destruct (py_int s1) as [a|] eqn:Ha; simpl; [|by exists ValueError].
  destruct (argv !! 2%nat) as [s2|] eqn:H2; simpl; [|by exists IndexError].
  destruct (py_int s2) as [b|] eqn:Hb; simpl; [|by exists ValueError].
  destruct (argv !! 3%nat) as [s3|] eqn:H3; simpl; [|by exists IndexError].
  destruct (py_float s3) as [x|] eqn:Hx; simpl; [|by exists ValueError].
  destruct (in_unit_interval x) eqn:Hin; simpl; [|by exists ValueError].
  exfalso. destruct Hinv as [i Hi Hnone|i s Hi Hs Hint| | |]; try congruence.
  - assert (i = 1 \/ i = 2)%nat as [-> | ->] by lia; congruence.
  - assert (i = 1 \/ i = 2)%nat as [-> | ->] by lia; congruence.
Qed.

Lemma read_arguments_run argv a b x w :
  command_line argv a b x -> in_unit_interval x = true ->
  exists w', DataGen.read_arguments argv w = Done (Some (a, b, x)) w' /\
    same_state w w'.
Proof.
  intros Hcl Hin.
  destruct (parse_arguments_run argv a b x w Hcl Hin) as (w' & Hparse & Hw').
  exists w'. split; [|done].
  unfold DataGen.read_arguments, try_except, bind. by rewrite Hparse.
Qed.

Lemma read_arguments_invalid argv script w :
  invalid_arguments argv -> argv !! 0%nat = Some script ->
  exists e w',
    DataGen.read_arguments argv w = Done None w' /\ same_state w w' /\
    is_index_or_value_error e = true /\
    w_out w' = w_out w ++ [MsgInvalidArguments e; MsgUsage script; MsgExample].
Proof.
  intros Hinv Hscript.
  destruct (parse_arguments_invalid argv w Hinv) as (e & He & Hparse).
  exists e. eexists.
  unfold DataGen.read_arguments, try_except, bind. rewrite Hparse, He.
  unfold DataGen.report_invalid_arguments, argv_get, bind. simpl.
  rewrite Hscript. simpl. split; [done|]. split; [done|]. split; [done|].
  by rewrite <- !app_assoc.
Qed.

(** The two key generations, for row counts and a fraction that passed
    the checks. *)
Lemma key_pools_safe fuel a b x ua ub w :
  0 <= a -> 0 <= b -> ua <= a -> ub <= b ->
  (forall w1, DataGen.num_unique_keys a x w1 = Done ua w1) ->
  (forall w1, DataGen.num_unique_keys b x w1 = Done ub w1) ->
  safe (DataGen.key_pools fuel a b x) w (fun r w' =>
    same_files w w' /\
    match r with
    | Some (a', keys_a, b', keys_b) =>
        a' = a /\ b' = b /\ 0 < a /\ 0 < b /\
        pool_keys_ok a ua keys_a /\ pool_keys_ok b ub keys_b
    | None => (a = 0 \/ b = 0) /\ last (w_out w') = Some MsgNoRows
    end).
Proof.
  intros Ha Hb Hua Hub Hnua Hnub. unfold DataGen.key_pools.
  apply safe_bind. eapply safe_mono; [apply print_safe|].
  intros [] w1 [Hw1 _]. apply same_state_files in Hw1.
  apply safe_bind. eapply safe_mono; [by apply (key_pool_safe fuel TableA a x ua)|].
  intros [keys_a|] w2.
  - intros (Ha0 & Hw2 & Hka).
    apply safe_bind. eapply safe_mono; [by apply (key_pool_safe fuel TableB b x ub)|].
    intros [keys_b|] w3.
    + intros (Hb0 & Hw3 & Hkb). apply safe_ret.
      split; [|done].
      eapply same_files_trans; [done|]. by eapply same_files_trans.
    + intros (Hb0 & Hw3 & Hout). apply safe_ret. split.
      * eapply same_files_trans; [done|]. eapply same_files_trans; [done|].
        by apply same_state_files.
      * split; [by right|]. rewrite Hout. apply last_snoc.
  - intros (Ha0 & Hw2 & Hout). apply safe_ret. split.
    + eapply same_files_trans; [done|]. by apply same_state_files.
    + split; [by left|]. rewrite Hout. apply last_snoc.
Qed.

Lemma stable_key_pools a b x : stable (fun fuel => DataGen.key_pools fuel a b x).
Proof.
  apply (stable_bind (fun _ => _) (fun fuel _ => _)); [apply stable_const|].
  intros _.
  apply (stable_bind (fun fuel => DataGen.key_pool fuel TableA a x) (fun fuel ka => _));
    [apply stable_key_pool|].
  intros [keys_a|]; [|apply stable_const].
  apply (stable_bind (fun fuel => DataGen.key_pool fuel TableB b x) (fun _ kb => _));
    [apply stable_key_pool|].
  intros kb. apply stable_const.
Qed.

(** With a fair source both key generations end. *)
Lemma key_pools_halts a b x ua ub w :
  0 <= a -> 0 <= b -> ua <= a -> ub <= b ->
  (forall w1, DataGen.num_unique_keys a x w1 = Done ua w1) ->
  (forall w1, DataGen.num_unique_keys b x w1 = Done ub w1) ->
  fair (w_draws w) ->
  exists fuel, halts (DataGen.key_pools fuel a b x) w.
Proof.
  intros Ha Hb Hua Hub Hnua Hnub Hfair.
  set (w1 := World (w_draws w) (w_pos w) (w_faults w) (w_fs w)
               (w_out w ++ [MsgGeneratingKeyPool])).
  destruct (key_pool_halts TableA a x ua w1 Ha Hua Hnua Hfair) as [fuel_a Hha].
  pose proof (key_pool_safe fuel_a TableA a x ua w1 Ha Hua Hnua) as Hsa.
  destruct (safe_returns _ _ _ Hsa Hha) as (ra & w2 & Hra & Hpa).
  assert (forall fuel_b,
    DataGen.key_pool (Nat.max fuel_a fuel_b) TableA a x w1 = Done ra w2) as Hmax.
  { intros fuel_b. rewrite <- Hra.
    apply (stable_max _ fuel_a fuel_b w1 (stable_key_pool TableA a x) Hha). }
  destruct ra as [keys_a|].
  - destruct Hpa as (_ & Hw2 & _).
    assert (fair (w_draws w2)) as Hfair2 by (by rewrite (proj1 (proj1 Hw2))).
    destruct (key_pool_halts TableB b x ub w2 Hb Hub Hnub Hfair2) as [fuel_b Hhb].
    exists (Nat.max fuel_a fuel_b). unfold DataGen.key_pools.
    apply halts_bind; [done|]. intros [] w1' Hp. inversion Hp; subst w1'. fold w1.
    apply halts_bind; [unfold halts; by rewrite Hmax|].
    intros ra' w2' Hra'. rewrite Hmax in Hra'. simplify_eq.
    apply halts_bind; [|by intros [?|] ? ?].
    unfold halts. rewrite Nat.max_comm.
    by rewrite (stable_max _ fuel_b fuel_a w2' (stable_key_pool TableB b x) Hhb).
  - exists (Nat.max fuel_a 0). unfold DataGen.key_pools.
    apply halts_bind; [done|]. intros [] w1' Hp. inversion Hp; subst w1'. fold w1.
    apply halts_bind; [unfold halts; by rewrite Hmax|].
    intros ra' w2' Hra'. rewrite Hmax in Hra'. by simplify_eq.
Qed.

Lemma halts_run_threads a keys_a b keys_b w :
  halts (DataGen.run_threads a keys_a b keys_b) w.
Proof.
  unfold DataGen.run_threads.
  apply halts_bind; [done|]. intros _ w1 _.
  apply halts_bind.
  { unfold halts, DataGen.run_thread.
    pose proof (halts_generate_file_a a keys_a w1) as Hh. unfold halts in Hh.
    by destruct (DataGen.generate_file_a a keys_a w1). }
  intros _ w2 _. apply halts_bind; [|by intros].
  unfold halts, DataGen.run_thread.
  pose proof (halts_generate_file_b b keys_b w2) as Hh. unfold halts in Hh.
  by destruct (DataGen.generate_file_b b keys_b w2).
Qed.

End DataGenRun.

(** * The claims about [data_gen.py] *)

Lemma unique_count_range n x :
  0 <= n < 2 ^ 53 ->
  valid_binary prec emax x = true -> in_unit_interval x = true ->
  exists u, unique_count n x u /\ 0 <= u <= n.
Proof. apply num_unique_keys_range. Qed.

Lemma unique_count_fun n x u u' : unique_count n x u -> unique_count n x u' -> u = u'.
Proof.
  intros Hu Hu'. specialize (Hu counting_world). rewrite (Hu' counting_world) in Hu.
  by simplify_eq.
Qed.


Lemma pool_keys_nodup n keys :
  0 < n -> pool_keys_ok n n keys -> NoDup keys.
Proof.
  intros Hn (l & dups & final & (Hnd & _ & Hlen & Hdl & _) & Hperm & ->).
  replace (n - n) with 0 in Hdl by lia. destruct dups; [|done].
  rewrite app_nil_r in Hperm. unfold slice_to. destruct (decide _); [|lia].
  rewrite take_ge; [by rewrite Hperm|]. rewrite Hperm. lia.
Qed.

Lemma key_pool_parts_halts n x u w :
  0 <= n -> u <= n -> unique_count n x u -> fair (w_draws w) ->
  exists fuel, halts (DataGen.key_pool_parts fuel n x) w.
Proof.
  intros Hn Hun Hu Hfair.
  destruct (fill_unique_key_set_halts u (n * 2) ltac:(lia) ltac:(lia) ∅ w Hfair)
    as [fuel Hfuel].
  exists fuel. apply halts_key_pool_parts.
  intros u' w1 Hu'. rewrite Hu in Hu'. by simplify_eq.
Qed.

(** C4 as amended: for every row count [0 < n < 2^53] and every fraction
    that passed the range check, with [u = int(n * x)]: [n - u] duplicates
    are drawn; the unique pool holds [u] keys, or one forced key when
    [u = 0]; so the concatenation of pool and duplicates has [n] items when
    [u >= 1] and [n + 1] items when [u = 0] (the slice that follows keeps
    [n] of them). *)
Theorem duplicates_and_concatenation n x u w :
  0 < n < 2 ^ 53 ->
  valid_binary prec emax x = true -> in_unit_interval x = true ->
  unique_count n x u ->
  (forall fuel,
     safe (DataGen.key_pool_parts fuel n x) w (fun r w1 =>
       exists l dups, r = Some (l, dups) /\
         Z.of_nat (length dups) = n - u /\
         Z.of_nat (length l) = (if decide (u = 0) then 1 else u) /\
         Z.of_nat (length (l ++ dups)) = (if decide (u = 0) then n + 1 else n))) /\
  (fair (w_draws w) -> exists fuel, halts (DataGen.key_pool_parts fuel n x) w).
Proof.
  intros Hn Hv Hx Hu.
  destruct (unique_count_range n x ltac:(lia) Hv Hx) as (u' & Hu' & Hun).
  rewrite <- (unique_count_fun n x u u' Hu Hu') in Hun. clear u' Hu'.
  split.
  - intros fuel.
    eapply safe_mono; [apply (key_pool_parts_safe fuel n x u); lia || done|].
    intros [[l dups]|] w1; [|intros [Hn0 _]; lia].
    intros (_ & _ & _ & _ & Hlen & Hdl & _). exists l, dups. split; [done|].
    rewrite length_app, Nat2Z.inj_add, Hdl, Hlen.
    destruct (decide (u = 0)); lia.
  - intros Hfair. apply (key_pool_parts_halts n x u); lia || done.
Qed.

Lemma duplicates_and_concatenation_witness :
  (forall fuel,
     safe (DataGen.key_pool_parts fuel 100 float_0_9) counting_world (fun r w1 =>
       exists l dups, r = Some (l, dups) /\
         Z.of_nat (length dups) = 100 - 90 /\
         Z.of_nat (length l) = (if decide (90 = 0) then 1 else 90) /\
         Z.of_nat (length (l ++ dups)) = (if decide (90 = 0) then 100 + 1 else 100))) /\
  (fair Z.of_nat ->
   exists fuel, halts (DataGen.key_pool_parts fuel 100 float_0_9) counting_world).
Proof.
  apply (duplicates_and_concatenation 100 float_0_9 90 counting_world);
    [lia|reflexivity|reflexivity|intros w; reflexivity].
Defined.

(** C4 as stated fails: with 3 rows and a fraction of 0.0 the unique pool
    is the one forced key, 3 duplicates are drawn (not 3 - 1), and the
    concatenation has 4 items. *)
Lemma duplicates_and_concatenation_counterexample :
  exists l dups w1,
    DataGen.key_pool_parts 10 3 float_zero counting_world = Done (Some (l, dups)) w1 /\
    length l = 1%nat /\ length dups = 3%nat /\ length (l ++ dups) = 4%nat.
Proof. vm_compute. eexists _, _, _. repeat split. Qed.

(** C5 as amended: every key of a table's unique pool lies in the closed
    range [[0, 2 * n]], for every row count, every fraction that passed
    the range check and every random source. *)
Theorem pool_keys_in_closed_range n x w :
  0 <= n < 2 ^ 53 ->
  valid_binary prec emax x = true -> in_unit_interval x = true ->
  (forall fuel,
     safe (DataGen.key_pool_parts fuel n x) w (fun r w1 =>
       match r with
       | Some (l, dups) => NoDup l /\ Forall (fun k => 0 <= k <= 2 * n) l
       | None => n = 0
       end)) /\
  (fair (w_draws w) -> exists fuel, halts (DataGen.key_pool_parts fuel n x) w).
Proof.
  intros Hn Hv Hx.
  destruct (unique_count_range n x Hn Hv Hx) as (u & Hu & Hun).
  split.
  - intros fuel.
    eapply safe_mono; [apply (key_pool_parts_safe fuel n x u); lia || done|].
    intros [[l dups]|] w1; [|by intros [Hn0 _]].
    intros (_ & _ & Hnd & Hr & _). split; [done|].
    eapply Forall_impl; [done|]. simpl. lia.
  - intros Hfair. apply (key_pool_parts_halts n x u); lia || done.
Qed.

Lemma pool_keys_in_closed_range_witness :
  (forall fuel,
     safe (DataGen.key_pool_parts fuel 100 float_0_9) counting_world (fun r w1 =>
       match r with
       | Some (l, dups) => NoDup l /\ Forall (fun k => 0 <= k <= 2 * 100) l
       | None => 100 = 0
       end)) /\
  (fair Z.of_nat ->
   exists fuel, halts (DataGen.key_pool_parts fuel 100 float_0_9) counting_world).
Proof.
  apply (pool_keys_in_closed_range 100 float_0_9 counting_world);
    [lia|reflexivity|reflexivity].
Defined.

(** C5 as stated fails: with one row, a fraction of 1.0 and a source whose
    raw draws are all 2, the unique pool is [[2]], and 2 is not below
    [2 * 1]. *)
Lemma pool_keys_half_open_counterexample :
  exists w1,
    DataGen.key_pool_parts 10 1 float_one
      (World (fun _ => 2) 0 (fun _ => NoFault) ∅ []) = Done (Some ([2], [])) w1 /\
    2 * 1 <= 2.
Proof. vm_compute. eexists. split; [reflexivity|]. discriminate. Qed.



Section DataGenClaims.
Context `{Builtins}.

Lemma prepare_safe fuel argv a b x ua ub w :
  command_line argv a b x -> in_unit_interval x = true ->
  0 <= a -> 0 <= b -> ua <= a -> ub <= b ->
  unique_count a x ua -> unique_count b x ub ->
  safe (DataGen.prepare fuel argv) w (fun r w' =>
    same_files w w' /\
    match r with
    | Some (a', keys_a, b', keys_b) =>
        a' = a /\ b' = b /\ 0 < a /\ 0 < b /\
        pool_keys_ok a ua keys_a /\ pool_keys_ok b ub keys_b
    | None => (a = 0 \/ b = 0) /\ last (w_out w') = Some MsgNoRows
    end).
Proof.
  intros Hcl Hin Ha Hb Hua Hub Hnua Hnub.
  destruct (read_arguments_run argv a b x w Hcl Hin) as (w0 & Hread & Hw0).
  unfold DataGen.prepare. apply safe_bind. unfold safe at 1, wp. rewrite Hread.
  eapply safe_mono; [by apply (key_pools_safe fuel a b x ua ub)|].
  intros r w' [Hw' Hr]. split; [|done].
  eapply same_files_trans; [by apply same_state_files|done].
Qed.

Lemma prepare_halts argv a b x ua ub w :
  command_line argv a b x -> in_unit_interval x = true ->
  0 <= a -> 0 <= b -> ua <= a -> ub <= b ->
  unique_count a x ua -> unique_count b x ub ->
  fair (w_draws w) ->
  exists fuel, halts (DataGen.prepare fuel argv) w.
Proof.
  intros Hcl Hin Ha Hb Hua Hub Hnua Hnub Hfair.
  destruct (read_arguments_run argv a b x w Hcl Hin) as (w0 & Hread & Hw0).
  destruct (key_pools_halts a b x ua ub w0 Ha Hb Hua Hub Hnua Hnub) as [fuel Hfuel].
  { by rewrite (proj1 (proj1 (proj1 Hw0))). }
  exists fuel. unfold DataGen.prepare, halts, bind. by rewrite Hread.
Qed.

Lemma generate_data_halts fuel argv w :
  halts (DataGen.prepare fuel argv) w -> halts (DataGen.generate_data fuel argv) w.
Proof.
  intros Hp. unfold DataGen.generate_data. apply halts_bind; [done|].
  intros [[[[a ka] b] kb]|] w1 _; [apply halts_run_threads|done].
Qed.

(** C1 as amended: when the row count of a table is 0 (the other count
    below 2^53, the fraction in range), the key generation of that table
    returns at once: it draws no random number, touches no file and prints
    ["No rows to generate."]; the run raises no exception, ends with that
    message and leaves the file of that table as it was, neither created
    nor truncated.  With a fair random source the run ends. *)
Theorem zero_rows_skip_pool_and_file argv a b x t w :
  command_line argv a b x -> in_unit_interval x = true ->
  0 <= a < 2 ^ 53 -> 0 <= b < 2 ^ 53 -> rows_of t a b = 0 ->
  (forall fuel w0, exists w1,
     DataGen.key_pool fuel t 0 x w0 = Done None w1 /\
     same_state w0 w1 /\ w_out w1 = w_out w0 ++ [MsgNoRows]) /\
  (forall fuel,
     safe (DataGen.generate_data fuel argv) w (fun _ w' =>
       w_fs w' !! file_of t = w_fs w !! file_of t /\
       last (w_out w') = Some MsgNoRows)) /\
  (fair (w_draws w) -> exists fuel, halts (DataGen.generate_data fuel argv) w).
Proof.
  intros Hcl Hin Ha Hb Hzero.
  pose proof (command_line_valid argv a b x Hcl) as Hv.
  destruct (unique_count_range a x Ha Hv Hin) as (ua & Hua & Huab).
  destruct (unique_count_range b x Hb Hv Hin) as (ub & Hub & Hubb).
  split; [|split].
  - intros fuel w0.
    destruct (unique_count_range 0 x ltac:(lia) Hv Hin) as (u0 & Hu0 & Hu0b).
    pose proof (key_pool_safe fuel t 0 x u0 w0 ltac:(lia) ltac:(lia) Hu0) as Hs.
    assert (halts (DataGen.key_pool fuel t 0 x) w0) as Hh.
    { apply halts_key_pool, halts_key_pool_parts. intros u' w1 Hu'.
      rewrite Hu0 in Hu'. simplify_eq.
      destruct fuel; simpl;
        (destruct (decide _) as [Hlt|]; [simpl in Hlt; lia|done]). }
    destruct (safe_returns _ _ _ Hs Hh) as ([keys|] & w1 & Hrun & Hpost).
    + destruct Hpost as [? _]. lia.
    + exists w1. by destruct Hpost as (_ & ? & ?).
  - intros fuel. unfold DataGen.generate_data. apply safe_bind.
    eapply safe_mono; [apply (prepare_safe fuel argv a b x ua ub); lia || done|].
    intros [[[[a' ka] b'] kb]|] w1 [Hw1 Hr].
    + destruct Hr as (_ & _ & Ha0 & Hb0 & _). destruct t; simpl in Hzero; lia.
    + apply safe_ret. split; [by rewrite (proj2 Hw1)|apply Hr].
  - intros Hfair.
    destruct (prepare_halts argv a b x ua ub w) as [fuel Hfuel]; try (lia || done).
    exists fuel. by apply generate_data_halts.
Qed.

(** C7: when a row-count argument is missing or not a number, or the
    fraction is missing, not a number or outside [[0, 1]], the run prints
    the error, the usage line and the example, and returns: no random
    number was drawn (no key pool was built) and no file was created,
    truncated or written. *)
Theorem invalid_arguments_abort argv script fuel w :
  invalid_arguments argv -> argv !! 0%nat = Some script ->
  exists e w',
    DataGen.generate_data fuel argv w = Done tt w' /\
    w_out w' = w_out w ++ [MsgInvalidArguments e; MsgUsage script; MsgExample] /\
    w_pos w' = w_pos w /\ w_fs w' = w_fs w.
Proof.
  intros Hinv Hscript.
  destruct (read_arguments_invalid argv script w Hinv Hscript)
    as (e & w' & Hread & Hw' & _ & Hout).
  exists e, w'. split; [|split; [done|]].
  - unfold DataGen.generate_data, DataGen.prepare, bind. by rewrite Hread.
  - split; [apply Hw'|apply Hw'].
Qed.


End DataGenClaims.

(** Command lines for the concrete interpreter. *)
Lemma command_line_5_4_half :
  command_line ["data_gen.py"; "5"; "4"; "0.5"] 5 4 float_half.
Proof. by eapply CommandLine. Qed.

Lemma command_line_0_3_half :
  command_line ["data_gen.py"; "0"; "3"; "0.5"] 0 3 float_half.
Proof. by eapply CommandLine. Qed.

Lemma zero_rows_skip_pool_and_file_witness :
  (forall fuel w0, exists w1,
     DataGen.key_pool fuel TableA 0 float_half w0 = Done None w1 /\
     same_state w0 w1 /\ w_out w1 = w_out w0 ++ [MsgNoRows]) /\
  (forall fuel,
     safe (DataGen.generate_data fuel ["data_gen.py"; "0"; "3"; "0.5"]) counting_world
       (fun _ w' =>
          w_fs w' !! "A.txt" = w_fs counting_world !! "A.txt" /\
          last (w_out w') = Some MsgNoRows)) /\
  (fair Z.of_nat ->
   exists fuel,
     halts (DataGen.generate_data fuel ["data_gen.py"; "0"; "3"; "0.5"]) counting_world).
Proof.
  apply (zero_rows_skip_pool_and_file
           ["data_gen.py"; "0"; "3"; "0.5"] 0 3 float_half TableA counting_world);
    [apply command_line_0_3_half|reflexivity|lia|lia|reflexivity].
Defined.

(** C1 as stated fails: with 0 rows for table A and 3 rows for table B
    the run ends without an exception, but neither [A.txt] (which the
    claim wants created with zero lines) nor [B.txt] (which the claim wants
    generated as usual) exists afterwards. *)
Lemma zero_rows_counterexample :
  exists w',
    DataGen.generate_data 10 ["data_gen.py"; "0"; "3"; "0.5"] counting_world
      = Done tt w' /\
    w_fs w' !! "A.txt" = None /\ w_fs w' !! "B.txt" = None.
Proof. vm_compute. eexists. repeat split. Qed.

Lemma invalid_arguments_abort_witness :
  exists e w',
    DataGen.generate_data 10 ["data_gen.py"; "5"; "4"; "1.5"] counting_world
      = Done tt w' /\
    w_out w' = w_out counting_world
                 ++ [MsgInvalidArguments e; MsgUsage "data_gen.py"; MsgExample] /\
    w_pos w' = w_pos counting_world /\ w_fs w' = w_fs counting_world.
Proof.
  apply (invalid_arguments_abort ["data_gen.py"; "5"; "4"; "1.5"] "data_gen.py"
           10 counting_world); [|reflexivity].
  by eapply (FractionOutside _ "1.5").
Defined.


(** * The claims about the two simpler scripts *)

Lemma write_final_wp name l (P : line -> Prop) w0 w :
  same_files w0 w -> P l ->
  wp (write name l) w
    (fun _ w2 => exists l, P l /\ appended name l w0 w2)
    (fun e w2 => e = IOError /\ same_files w0 w2 /\ w_faults w0 name <> NoFault).
Proof.
  intros [He Hfs] HP. eapply wp_mono; [apply write_wp| |].
  - intros [] w2 [He2 Hfs2]. exists l. split; [done|]. split.
    + by eapply same_env_trans.
    + rewrite Hfs2. unfold file_lines. by rewrite Hfs.
  - intros e w2 (-> & -> & Hf). split; [done|]. split; [done|].
    by rewrite <- (proj2 He).
Qed.

Lemma file_written_length name P n ok w w' :
  w_faults w name = NoFault -> file_written name P n ok w w' ->
  ok = true /\ length (file_lines name w') = n /\
  forall other, other <> name -> w_fs w' !! other = w_fs w !! other.
Proof.
  intros Hf Hw. pose proof (file_written_no_fault _ _ _ _ _ _ Hf Hw) as ->.
  destruct Hw as (_ & lines & Hlen & _ & Hfs). split; [done|]. split.
  - unfold file_lines. by rewrite Hfs, lookup_insert_eq.
  - intros other Hne. by rewrite Hfs, lookup_insert_ne.
Qed.

(** The file after a writer block is untouched or holds lines of [P]. *)
Lemma file_written_lines name (P : line -> Prop) n ok w w' :
  file_written name (fun _ => P) n ok w w' ->
  (w_fs w' = w_fs w \/ Forall P (file_lines name w')) /\
  forall other, other <> name -> w_fs w' !! other = w_fs w !! other.
Proof.
  assert (forall c, written name (fun _ => P) c w w' ->
            Forall P (file_lines name w') /\
            forall other, other <> name -> w_fs w' !! other = w_fs w !! other) as Hwr.
  { intros c (_ & lines & _ & Hok & Hfs). split.
    - unfold file_lines. rewrite Hfs, lookup_insert_eq. simpl.
      apply Forall_lookup. intros i l Hl. by apply (Hok i).
    - intros other Hne. by rewrite Hfs, lookup_insert_ne. }
  destruct ok; simpl.
  - intros Hw. destruct (Hwr _ Hw). split; [by right|done].
  - intros (_ & _ & [Hfs|(c & _ & Hw)]).
    + split; [by left|]. intros. by rewrite Hfs.
    + destruct (Hwr _ Hw). split; [by right|done].
Qed.

Section Variants.
Context `{Builtins}.

Lemma read_num_rows_a_run script args w :
  exists w',
    RandomGen.read_num_rows_a (script :: args) w
      = Done (rows_used (script :: args) 1) w' /\
    same_state w w'.
Proof.
  unfold RandomGen.read_num_rows_a, rows_used, rows_given, try_except, int_arg, argv_get, bind.
  destruct ((script :: args) !! 1%nat) as [s|]; simpl.
  - destruct (py_int s); simpl; by eexists.
  - by eexists.
Qed.

Lemma read_num_rows_b_run argv w :
  exists w',
    RandomGen.read_num_rows_b argv w = Done (rows_used argv 2) w' /\
    same_state w w'.
Proof.
  unfold RandomGen.read_num_rows_b, rows_used, rows_given, try_except, int_arg, argv_get, bind.
  destruct (argv !! 2%nat) as [s|]; simpl.
  - destruct (py_int s); simpl; by eexists.
  - by eexists.
Qed.

End Variants.

Lemma random_write_a_safe n w :
  safe (RandomGen.write_a n) w (fun ok w' =>
    file_written "A.txt" (fun _ => random_row_a) (Z.to_nat n) ok w w').
Proof.
  unfold RandomGen.write_a.
  apply safe_bind. eapply safe_mono; [apply print_safe|].
  intros [] w1 [Hw1 _]. eapply safe_mono.
  - apply (write_block_safe "A.txt" (fun _ => random_row_a)).
    + intros i w2 Hi.
      apply wp_bind. eapply wp_mono; [apply randint_safe; done| |done].
      intros k w3 [Hk Hw3].
      apply wp_bind. eapply wp_mono; [apply randint_safe; done| |done].
      intros v w4 [Hv Hw4].
      apply write_final_wp; [by eapply same_files_trans|by exists k, v].
    + intros w2. apply safe_bind. eapply safe_mono; [apply print_safe|].
      intros [] w3 [Hw3 _]. by apply safe_ret.
  - intros ok w2 Hw2.
    eapply file_written_frame; [exact Hw1|exact Hw2|apply same_state_refl].
Qed.

Lemma random_write_b_safe n w :
  safe (RandomGen.write_b n) w (fun ok w' =>
    file_written "B.txt" (fun _ => random_row_b) (Z.to_nat n) ok w w').
Proof.
  unfold RandomGen.write_b.
  apply safe_bind. eapply safe_mono; [apply print_safe|].
  intros [] w1 [Hw1 _]. eapply safe_mono.
  - apply (write_block_safe "B.txt" (fun _ => random_row_b)).
    + intros i w2 Hi.
      apply wp_bind. eapply wp_mono; [apply randint_safe; done| |done].
      intros k w3 [Hk Hw3].
      apply write_final_wp; [done|by exists k].
    + intros w2. apply safe_bind. eapply safe_mono; [apply print_safe|].
      intros [] w3 [Hw3 _]. by apply safe_ret.
  - intros ok w2 Hw2.
    eapply file_written_frame; [exact Hw1|exact Hw2|apply same_state_refl].
Qed.

Lemma halts_random_write_a n w : halts (RandomGen.write_a n) w.
Proof.
  unfold RandomGen.write_a. apply halts_bind; [done|]. intros _ w1 _.
  apply halts_write_block.
  - intros i w2. apply halts_bind; [apply halts_randint|]. intros k w3 _.
    apply halts_bind; [apply halts_randint|]. intros v w4 _. apply halts_write.
  - intros w2. apply halts_bind; [done|]. by intros.
Qed.

Lemma halts_random_write_b n w : halts (RandomGen.write_b n) w.
Proof.
  unfold RandomGen.write_b. apply halts_bind; [done|]. intros _ w1 _.
  apply halts_write_block.
  - intros i w2. apply halts_bind; [apply halts_randint|]. intros k w3 _.
    apply halts_write.
  - intros w2. apply halts_bind; [done|]. by intros.
Qed.

(** The key pool of [simple_data_gen_int_int.py]. *)
Lemma make_key_pool_safe a b w :
  safe (SimpleGen.make_key_pool a b) w (fun pool w' =>
    same_files w w' /\
    Z.of_nat (length pool) = Z.max 1 ((a + b) / 20) /\
    Forall (fun k => 0 <= k <= 5 * Z.max 1 ((a + b) / 20)) pool).
Proof.
  unfold SimpleGen.make_key_pool, SimpleGen.key_pool_size.
  apply safe_bind. eapply safe_mono.
  - apply (repeat_m_safe (fun k => 0 <= k <= Z.max 1 ((a + b) / 20) * 5)).
    intros w1 _. apply randint_safe. lia.
  - intros pool w1 (Hlen & Hr & Hw1).
    destruct pool as [|k pool]; [simpl in Hlen; lia|].
    apply safe_ret. split; [done|]. split; [lia|].
    eapply Forall_impl; [done|]. simpl. lia.
Qed.

Lemma halts_make_key_pool a b w : halts (SimpleGen.make_key_pool a b) w.
Proof.
  unfold SimpleGen.make_key_pool. apply halts_bind.
  - apply halts_repeat_m. intros w1. apply halts_randint.
  - by intros [|? ?] w1 _.
Qed.

Lemma simple_write_a_safe n pool w :
  pool <> [] ->
  safe (SimpleGen.write_a n pool) w (fun ok w' =>
    file_written "A.txt" (fun _ => pool_row pool) (Z.to_nat n) ok w w').
Proof.
  intros Hpool. unfold SimpleGen.write_a.
  apply safe_bind. eapply safe_mono; [apply print_safe|].
  intros [] w1 [Hw1 _]. eapply safe_mono.
  - apply (write_block_safe "A.txt" (fun _ => pool_row pool)).
    + intros i w2 Hi.
      apply wp_bind. eapply wp_mono; [by apply choice_safe| |done].
      intros k w3 [Hk Hw3].
      apply wp_bind. eapply wp_mono; [apply randint_safe; lia| |done].
      intros v w4 [Hv Hw4].
      apply write_final_wp; [by eapply same_files_trans|done].
    + intros w2. apply safe_bind. eapply safe_mono; [apply print_safe|].
      intros [] w3 [Hw3 _]. by apply safe_ret.
  - intros ok w2 Hw2.
    eapply file_written_frame; [exact Hw1|exact Hw2|apply same_state_refl].
Qed.

Lemma simple_write_b_safe n pool w :
  pool <> [] ->
  safe (SimpleGen.write_b n pool) w (fun ok w' =>
    file_written "B.txt" (fun _ => pool_row pool) (Z.to_nat n) ok w w').
Proof.
  intros Hpool. unfold SimpleGen.write_b.
  apply safe_bind. eapply safe_mono; [apply print_safe|].
  intros [] w1 [Hw1 _]. eapply safe_mono.
  - apply (write_block_safe "B.txt" (fun _ => pool_row pool)).
    + intros i w2 Hi.
      apply wp_bind. eapply wp_mono; [by apply choice_safe| |done].
      intros k w3 [Hk Hw3].
      apply write_final_wp; [done|done].
    + intros w2. apply safe_bind. eapply safe_mono; [apply print_safe|].
      intros [] w3 [Hw3 _]. by apply safe_ret.
  - intros ok w2 Hw2.
    eapply file_written_frame; [exact Hw1|exact Hw2|apply same_state_refl].
Qed.

Lemma halts_simple_write_a n pool w : halts (SimpleGen.write_a n pool) w.
Proof.
  unfold SimpleGen.write_a. apply halts_bind; [done|]. intros _ w1 _.
  apply halts_write_block.
  - intros i w2. apply halts_bind; [apply halts_choice|]. intros k w3 _.
    apply halts_bind; [apply halts_randint|]. intros v w4 _. apply halts_write.
  - intros w2. apply halts_bind; [done|]. by intros.
Qed.

Lemma halts_simple_write_b n pool w : halts (SimpleGen.write_b n pool) w.
Proof.
  unfold SimpleGen.write_b. apply halts_bind; [done|]. intros _ w1 _.
  apply halts_write_block.
  - intros i w2. apply halts_bind; [apply halts_choice|]. intros k w3 _.
    apply halts_write.
  - intros w2. apply halts_bind; [done|]. by intros.
Qed.

Lemma written_forall name (P : line -> Prop) c w w' :
  written name (fun _ => P) c w w' -> Forall P (file_lines name w').
Proof.
  intros (_ & lines & _ & Hok & Hfs).
  unfold file_lines. rewrite Hfs, lookup_insert_eq. simpl.
  apply Forall_lookup. intros i l Hl. by apply (Hok i).
Qed.

Lemma written_is_Some name P c w w' :
  written name P c w w' -> is_Some (w_fs w' !! name).
Proof. intros (_ & lines & _ & _ & ->). rewrite lookup_insert_eq. by eexists. Qed.

Lemma two_writers_safe (wa wb : M bool) (PA PB : line -> Prop) na nb w :
  (forall w1, safe wa w1 (fun ok w2 => file_written "A.txt" (fun _ => PA) na ok w1 w2)) ->
  (forall w1, safe wb w1 (fun ok w2 => file_written "B.txt" (fun _ => PB) nb ok w1 w2)) ->
  safe (written_a <- wa ;;
        if written_a : bool then
          print (MsgFileCreated TableA) ;;;
          written_b <- wb ;;
          if written_b : bool then print (MsgFileCreated TableB) else ret tt
        else ret tt) w
    (fun _ w' => tables_written PA PB na nb w w').
Proof.
  intros Ha Hb. apply safe_bind. eapply safe_mono; [apply Ha|].
  intros oka w1 Hwa.
  destruct (file_written_lines _ _ _ _ _ _ Hwa) as [HA1 HA2].
  assert (w_faults w1 = w_faults w) as Hf1.
  { destruct oka; simpl in Hwa; [apply Hwa|apply Hwa]. }
  destruct oka.
  - apply safe_bind. eapply safe_mono; [apply print_safe|].
    intros [] w2 [Hw2 _]. apply safe_bind. eapply safe_mono; [apply Hb|].
    intros okb w3 Hwb.
    destruct (file_written_lines _ _ _ _ _ _ Hwb) as [HB1 HB2].
    assert (w_fs w2 = w_fs w1) as Hfs2 by apply Hw2.
    assert (w_faults w2 = w_faults w) as Hf2.
    { by rewrite (proj2 (proj1 (proj1 Hw2))). }
    assert (forall w', same_state w3 w' -> tables_written PA PB na nb w w') as Hfin.
    { intros w' Hw'. assert (w_fs w' = w_fs w3) as Hfs' by apply Hw'.
      assert (file_lines "A.txt" w' = file_lines "A.txt" w1) as HlA.
      { unfold file_lines. by rewrite Hfs', HB2, Hfs2. }
      split; [|split; [|split]].
      - intros other HneA HneB. by rewrite Hfs', HB2, Hfs2, HA2.
      - rewrite HlA. destruct HA1 as [HA1|HA1]; [left|by right].
        by rewrite Hfs', HB2, Hfs2, HA1.
      - destruct HB1 as [HB1|HB1]; [left|right].
        + by rewrite Hfs', HB1, Hfs2, HA2.
        + unfold file_lines in *. by rewrite Hfs'.
      - intros HfA HfB.
        destruct (file_written_length _ _ _ _ _ _ HfA Hwa) as (_ & HlenA & _).
        assert (w_faults w2 "B.txt" = NoFault) as HfB2 by (by rewrite Hf2).
        destruct (file_written_length _ _ _ _ _ _ HfB2 Hwb) as (-> & HlenB & _).
        split; [|split; [|split; [|split; [|split]]]].
        + rewrite Hfs', HB2, Hfs2 by done. by eapply written_is_Some.
        + rewrite Hfs'. by eapply written_is_Some.
        + by rewrite HlA.
        + unfold file_lines in *. by rewrite Hfs'.
        + rewrite HlA. by eapply written_forall.
        + apply written_forall in Hwb. unfold file_lines in *. by rewrite Hfs'. }
    destruct okb.
    + eapply safe_mono; [apply print_safe|]. intros [] w4 [Hw4 _]. by apply Hfin.
    + apply safe_ret. by apply Hfin.
  - apply safe_ret. split; [|split; [|split]].
    + intros other HneA HneB. by apply HA2.
    + destruct HA1 as [->|]; [by left|by right].
    + left. by apply HA2.
    + intros HfA _. by destruct (file_written_length _ _ _ _ _ _ HfA Hwa).
Qed.

Lemma halts_two_writers (wa wb : M bool) w :
  (forall w1, halts wa w1) -> (forall w1, halts wb w1) ->
  halts (written_a <- wa ;;
         if written_a : bool then
           print (MsgFileCreated TableA) ;;;
           written_b <- wb ;;
           if written_b : bool then print (MsgFileCreated TableB) else ret tt
         else ret tt) w.
Proof.
  intros Ha Hb. apply halts_bind; [done|]. intros [|] w1 _; [|done].
  apply halts_bind; [done|]. intros _ w2 _.
  apply halts_bind; [done|]. by intros [|] w3 _.
Qed.

Lemma tables_written_frame PA PB na nb w0 w1 w' :
  same_state w0 w1 -> tables_written PA PB na nb w1 w' ->
  tables_written PA PB na nb w0 w'.
Proof.
  intros [[[_ Hf] Hfs] _] (Ho & HA & HB & Hlen). unfold tables_written.
  rewrite <- Hfs, <- Hf. done.
Qed.

Section VariantRuns.
Context `{Builtins}.

Lemma random_generate_data_returns script args w :
  exists w',
    RandomGen.generate_data (script :: args) w = Done tt w' /\
    tables_written random_row_a random_row_b
      (Z.to_nat (rows_used (script :: args) 1))
      (Z.to_nat (rows_used (script :: args) 2)) w w'.
Proof.
  destruct (read_num_rows_a_run script args w) as (w1 & Hra & Hw1).
  destruct (read_num_rows_b_run (script :: args) w1) as (w2 & Hrb & Hw2).
  pose proof (two_writers_safe
    (RandomGen.write_a (rows_used (script :: args) 1))
    (RandomGen.write_b (rows_used (script :: args) 2))
    random_row_a random_row_b _ _ w2
    (random_write_a_safe _) (random_write_b_safe _)) as Hs.
  pose proof (halts_two_writers
    (RandomGen.write_a (rows_used (script :: args) 1))
    (RandomGen.write_b (rows_used (script :: args) 2)) w2
    (halts_random_write_a _) (halts_random_write_b _)) as Hh.
  destruct (safe_returns _ _ _ Hs Hh) as ([] & w' & Hrun & Hw').
  exists w'. split.
  - unfold RandomGen.generate_data, bind at 1. rewrite Hra.
    unfold bind at 1. rewrite Hrb. exact Hrun.
  - apply (tables_written_frame _ _ _ _ w w2); [|done].
    by eapply same_state_trans.
Qed.

Lemma simple_generate_data_returns script args w :
  exists pool w',
    SimpleGen.generate_data (script :: args) w = Done tt w' /\
    Z.of_nat (length pool) =
      Z.max 1 ((rows_used (script :: args) 1 + rows_used (script :: args) 2) / 20) /\
    Forall (fun k => 0 <= k <=
      5 * Z.max 1 ((rows_used (script :: args) 1 + rows_used (script :: args) 2) / 20))
      pool /\
    tables_written (pool_row pool) (pool_row pool)
      (Z.to_nat (rows_used (script :: args) 1))
      (Z.to_nat (rows_used (script :: args) 2)) w w'.
Proof.
  destruct (read_num_rows_a_run script args w) as (w1 & Hra & Hw1).
  destruct (read_num_rows_b_run (script :: args) w1) as (w2 & Hrb & Hw2).
  set (a := rows_used (script :: args) 1) in *.
  set (b := rows_used (script :: args) 2) in *.
  destruct (safe_returns _ _ _ (make_key_pool_safe a b w2) (halts_make_key_pool a b w2))
    as (pool & w3 & Hpool & Hw3 & Hlen & Hrange).
  assert (pool <> []) as Hne by (intros ->; simpl in Hlen; lia).
  pose proof (two_writers_safe (SimpleGen.write_a a pool) (SimpleGen.write_b b pool)
    (pool_row pool) (pool_row pool) _ _ w3
    (fun w1 => simple_write_a_safe a pool w1 Hne)
    (fun w1 => simple_write_b_safe b pool w1 Hne)) as Hs.
  pose proof (halts_two_writers (SimpleGen.write_a a pool) (SimpleGen.write_b b pool) w3
    (halts_simple_write_a _ _) (halts_simple_write_b _ _)) as Hh.
  destruct (safe_returns _ _ _ Hs Hh) as ([] & w' & Hrun & Hw').
  exists pool, w'. split; [|split; [done|split; [done|]]].
  - unfold SimpleGen.generate_data, bind at 1. rewrite Hra.
    unfold bind at 1. rewrite Hrb. unfold bind at 1. rewrite Hpool. exact Hrun.
  - destruct Hw' as (Ho & HA & HB & Hl).
    destruct Hw3 as [[_ Hf3] Hfs3].
    assert (same_state w w2) as [[[_ Hf2] Hfs2] _] by (by eapply same_state_trans).
    unfold tables_written. rewrite <- Hfs2, <- Hfs3, <- Hf2, <- Hf3. done.
Qed.

(** The run of [simple_data_gen_int_int.py], step by step: the two row
    counts are read, [make_key_pool] returns the pool, and [write_tables]
    writes both files from that pool. *)
Lemma simple_generate_data_run script args w :
  exists w1 w2 pool w3 w',
    RandomGen.read_num_rows_a (script :: args) w
      = Done (rows_used (script :: args) 1) w1 /\
    RandomGen.read_num_rows_b (script :: args) w1
      = Done (rows_used (script :: args) 2) w2 /\
    SimpleGen.make_key_pool (rows_used (script :: args) 1) (rows_used (script :: args) 2) w2
      = Done pool w3 /\
    SimpleGen.write_tables (rows_used (script :: args) 1) (rows_used (script :: args) 2)
      pool w3 = Done tt w' /\
    SimpleGen.generate_data (script :: args) w = Done tt w' /\
    same_state w w2 /\ same_files w2 w3 /\ pool <> [] /\
    Z.of_nat (length pool) =
      Z.max 1 ((rows_used (script :: args) 1 + rows_used (script :: args) 2) / 20) /\
    Forall (fun k => 0 <= k <=
      5 * Z.max 1 ((rows_used (script :: args) 1 + rows_used (script :: args) 2) / 20))
      pool /\
    tables_written (pool_row pool) (pool_row pool)
      (Z.to_nat (rows_used (script :: args) 1))
      (Z.to_nat (rows_used (script :: args) 2)) w w'.
Proof.
  destruct (read_num_rows_a_run script args w) as (w1 & Hra & Hw1).
  destruct (read_num_rows_b_run (script :: args) w1) as (w2 & Hrb & Hw2).
  set (a := rows_used (script :: args) 1) in *.
  set (b := rows_used (script :: args) 2) in *.
  destruct (safe_returns _ _ _ (make_key_pool_safe a b w2) (halts_make_key_pool a b w2))
    as (pool & w3 & Hpool & Hw3 & Hlen & Hrange).
  assert (pool <> []) as Hne by (intros ->; simpl in Hlen; lia).
  pose proof (two_writers_safe (SimpleGen.write_a a pool) (SimpleGen.write_b b pool)
    (pool_row pool) (pool_row pool) _ _ w3
    (fun w1 => simple_write_a_safe a pool w1 Hne)
    (fun w1 => simple_write_b_safe b pool w1 Hne)) as Hs.
  pose proof (halts_two_writers (SimpleGen.write_a a pool) (SimpleGen.write_b b pool) w3
    (halts_simple_write_a _ _) (halts_simple_write_b _ _)) as Hh.
  destruct (safe_returns _ _ _ Hs Hh) as ([] & w' & Hrun & Hw').
  assert (same_state w w2) as Hw02 by (by eapply same_state_trans).
  exists w1, w2, pool, w3, w'.
  split; [done|]. split; [done|]. split; [done|]. split; [exact Hrun|].
  split; [|split; [done|split; [done|split; [done|split; [done|split; [done|]]]]]].
  - unfold SimpleGen.generate_data, bind at 1. rewrite Hra.
    unfold bind at 1. rewrite Hrb. unfold bind at 1. rewrite Hpool. exact Hrun.
  - destruct Hw' as (Ho & HA & HB & Hl).
    destruct Hw3 as [[_ Hf3] Hfs3].
    destruct Hw02 as [[[_ Hf2] Hfs2] _].
    unfold tables_written. rewrite <- Hfs2, <- Hfs3, <- Hf2, <- Hf3. done.
Qed.

End VariantRuns.

Section VariantClaims.
Context `{Builtins}.

Lemma rows_used_default argv i :
  missing_or_non_numeric argv i -> rows_used argv i = 10000.
Proof.
  unfold rows_used, rows_given. intros [->|(s & -> & Hs)]; [done|].
  simpl. by rewrite Hs.
Qed.

Lemma pool_rows_keys (pool : list Z) name w :
  Forall (pool_row pool) (file_lines name w) ->
  Forall (fun k => k ∈ pool) (file_keys name w).
Proof. intros Hl. unfold file_keys. by apply Forall_fmap. Qed.

(** C9: [simple_data_gen_int_int.py] reads the two row counts, then calls
    [make_key_pool] once, and [write_tables] writes both files from the
    list it returned.  That list holds
    [max(1, (num_rows_a + num_rows_b) // 20)] keys, each in
    [[0, 5 * pool size]]; after the run each of [A.txt] and [B.txt] is
    either untouched (the file system failed before it was opened) or
    holds only keys of that list; when the file system does not fail, both
    files are written in full from it. *)
Theorem simple_keys_from_one_pool script args w :
  exists w1 w2 pool w3 w',
    RandomGen.read_num_rows_a (script :: args) w
      = Done (rows_used (script :: args) 1) w1 /\
    RandomGen.read_num_rows_b (script :: args) w1
      = Done (rows_used (script :: args) 2) w2 /\
    SimpleGen.make_key_pool (rows_used (script :: args) 1) (rows_used (script :: args) 2) w2
      = Done pool w3 /\
    SimpleGen.write_tables (rows_used (script :: args) 1) (rows_used (script :: args) 2)
      pool w3 = Done tt w' /\
    SimpleGen.generate_data (script :: args) w = Done tt w' /\
    Z.of_nat (length pool) =
      Z.max 1 ((rows_used (script :: args) 1 + rows_used (script :: args) 2) / 20) /\
    Forall (fun k => 0 <= k <= 5 * Z.of_nat (length pool)) pool /\
    (w_fs w' !! "A.txt" = w_fs w !! "A.txt" \/
     Forall (fun k => k ∈ pool) (file_keys "A.txt" w')) /\
    (w_fs w' !! "B.txt" = w_fs w !! "B.txt" \/
     Forall (fun k => k ∈ pool) (file_keys "B.txt" w')) /\
    (w_faults w "A.txt" = NoFault -> w_faults w "B.txt" = NoFault ->
     Forall (fun k => k ∈ pool) (file_keys "A.txt" w') /\
     Forall (fun k => k ∈ pool) (file_keys "B.txt" w') /\
     length (file_keys "A.txt" w') = Z.to_nat (rows_used (script :: args) 1) /\
     length (file_keys "B.txt" w') = Z.to_nat (rows_used (script :: args) 2)).
Proof.
  destruct (simple_generate_data_run script args w)
    as (w1 & w2 & pool & w3 & w' & Hra & Hrb & Hpool & Hwrite & Hrun & _ & _ & _ &
        Hlen & Hrange & Ho & HA & HB & Hfull).
  exists w1, w2, pool, w3, w'.
  split; [done|]. split; [done|]. split; [done|]. split; [done|]. split; [done|].
  split; [done|]. split; [by rewrite Hlen|].
  split; [|split].
  - destruct HA as [HA|HA]; [by left|right]. by apply pool_rows_keys.
  - destruct HB as [HB|HB]; [by left|right]. by apply pool_rows_keys.
  - intros HfA HfB.
    destruct (Hfull HfA HfB) as (_ & _ & HlA & HlB & HPA & HPB).
    unfold file_keys at 3 4. rewrite !length_fmap.
    split; [by apply pool_rows_keys|]. split; [by apply pool_rows_keys|done].
Qed.

(** C10: in [random_data_gen_int_int.py] and [simple_data_gen_int_int.py]
    a row-count argument that is missing or not a number does not stop
    the run: the script uses 10000 rows for that table, and (when the file
    system does not fail) returns normally with both [A.txt] and [B.txt]
    written, each with as many lines as the row count used for it. *)
Theorem default_row_counts script args w :
  w_faults w "A.txt" = NoFault -> w_faults w "B.txt" = NoFault ->
  exists wr ws,
    RandomGen.generate_data (script :: args) w = Done tt wr /\
    SimpleGen.generate_data (script :: args) w = Done tt ws /\
    forall w', w' = wr \/ w' = ws ->
      is_Some (w_fs w' !! "A.txt") /\ is_Some (w_fs w' !! "B.txt") /\
      length (file_lines "A.txt" w') = Z.to_nat (rows_used (script :: args) 1) /\
      length (file_lines "B.txt" w') = Z.to_nat (rows_used (script :: args) 2) /\
      (missing_or_non_numeric (script :: args) 1 ->
       length (file_lines "A.txt" w') = 10000%nat) /\
      (missing_or_non_numeric (script :: args) 2 ->
       length (file_lines "B.txt" w') = 10000%nat).
Proof.
  intros HfA HfB.
  destruct (random_generate_data_returns script args w)
    as (wr & Hr & _ & _ & _ & Hrfull).
  destruct (simple_generate_data_returns script args w)
    as (pool & ws & Hs & _ & _ & _ & _ & _ & Hsfull).
  exists wr, ws. split; [done|]. split; [done|].
  assert (forall w',
    (is_Some (w_fs w' !! "A.txt") /\ is_Some (w_fs w' !! "B.txt") /\
     length (file_lines "A.txt" w') = Z.to_nat (rows_used (script :: args) 1) /\
     length (file_lines "B.txt" w') = Z.to_nat (rows_used (script :: args) 2)) ->
    is_Some (w_fs w' !! "A.txt") /\ is_Some (w_fs w' !! "B.txt") /\
    length (file_lines "A.txt" w') = Z.to_nat (rows_used (script :: args) 1) /\
    length (file_lines "B.txt" w') = Z.to_nat (rows_used (script :: args) 2) /\
    (missing_or_non_numeric (script :: args) 1 ->
     length (file_lines "A.txt" w') = 10000%nat) /\
    (missing_or_non_numeric (script :: args) 2 ->
     length (file_lines "B.txt" w') = 10000%nat)) as Hdefault.
  { intros w' (HA & HB & HlA & HlB). repeat (split; [done|]). split.
    - intros Hm. by rewrite HlA, (rows_used_default _ _ Hm).
    - intros Hm. by rewrite HlB, (rows_used_default _ _ Hm). }
  intros w' [->| ->]; apply Hdefault.
  - destruct (Hrfull HfA HfB) as (? & ? & ? & ? & _). done.
  - destruct (Hsfull HfA HfB) as (? & ? & ? & ? & _). done.
Qed.

End VariantClaims.

Lemma default_row_counts_witness :
  exists wr ws,
    RandomGen.generate_data ["gen.py"; "ten"] counting_world = Done tt wr /\
    SimpleGen.generate_data ["gen.py"; "ten"] counting_world = Done tt ws /\
    forall w', w' = wr \/ w' = ws ->
      is_Some (w_fs w' !! "A.txt") /\ is_Some (w_fs w' !! "B.txt") /\
      length (file_lines "A.txt" w') = Z.to_nat (rows_used ["gen.py"; "ten"] 1) /\
      length (file_lines "B.txt" w') = Z.to_nat (rows_used ["gen.py"; "ten"] 2) /\
      (missing_or_non_numeric ["gen.py"; "ten"] 1 ->
       length (file_lines "A.txt" w') = 10000%nat) /\
      (missing_or_non_numeric ["gen.py"; "ten"] 2 ->
       length (file_lines "B.txt" w') = 10000%nat).
Proof.
  apply (default_row_counts "gen.py" ["ten"] counting_world); reflexivity.
Defined.

(** * The whole run of [data_gen.py], and [int(n * x)] in exact terms *)

Lemma writer_no_fault t n keys w :
  Z.of_nat (length keys) = n -> w_faults w (file_of t) = NoFault ->
  exists w' lines,
    writer t n keys w = Done tt w' /\
    same_env w w' /\
    w_fs w' = <[file_of t := lines]> (w_fs w) /\
    line_key <$> lines = keys /\
    lines_ok (row_of t keys) lines.
Proof.
  intros Hlen Hf.
  destruct (safe_returns _ _ _ (writer_safe t n keys w ltac:(lia)) (halts_writer t n keys w))
    as ([] & w' & Hrun & ok & Hw).
  pose proof (file_written_no_fault _ _ _ _ _ _ Hf Hw) as ->. simpl in Hw.
  pose proof (written_keys t _ keys (Z.to_nat n) w w' ltac:(lia) Hw) as Hkeys.
  destruct Hw as (He & lines & Hll & Hok & Hfs).
  exists w', lines. split; [done|]. split; [done|]. split; [done|]. split; [|done].
  unfold file_keys, file_lines in Hkeys. rewrite Hfs, lookup_insert_eq in Hkeys.
  simpl in Hkeys. rewrite Hkeys. apply take_ge. lia.
Qed.

Lemma run_threads_no_fault a keys_a b keys_b w :
  Z.of_nat (length keys_a) = a -> Z.of_nat (length keys_b) = b ->
  w_faults w "A.txt" = NoFault -> w_faults w "B.txt" = NoFault ->
  exists w' la lb,
    DataGen.run_threads a keys_a b keys_b w = Done tt w' /\
    w_fs w' = <["B.txt" := lb]> (<["A.txt" := la]> (w_fs w)) /\
    line_key <$> la = keys_a /\ lines_ok (row_a keys_a) la /\
    line_key <$> lb = keys_b /\ lines_ok (row_b keys_b) lb.
Proof.
  intros Hla Hlb HfA HfB.
  set (w1 := World (w_draws w) (w_pos w) (w_faults w) (w_fs w)
               (w_out w ++ [MsgStartingThreads])).
  destruct (writer_no_fault TableA a keys_a w1 Hla HfA)
    as (w2 & la & Hra & He2 & Hfs2 & Hka & Hoka).
  destruct (writer_no_fault TableB b keys_b w2 Hlb)
    as (w3 & lb & Hrb & He3 & Hfs3 & Hkb & Hokb).
  { by rewrite (proj2 He2). }
  simpl in Hra, Hrb.
  eexists _, la, lb. split; [|split; [|done]].
  - unfold DataGen.run_threads, bind at 1. simpl. fold w1.
    unfold bind at 1, DataGen.run_thread at 1. rewrite Hra.
    unfold bind at 1, DataGen.run_thread at 1. rewrite Hrb. reflexivity.
  - simpl. by rewrite Hfs3, Hfs2.
Qed.

Section WholeRun.
Context `{Builtins}.

(** X1, the whole run: on a valid command line with positive row counts
    (below 2^53) and a file system that does not fail, [generate_data]
    ends without an exception with [A.txt] and [B.txt] created: [A.txt]
    has [num_rows_a] lines [k,v] with [k] in [[0, 2 * num_rows_a]] and [v]
    in [[1, 100]], [B.txt] has [num_rows_b] lines [k] with [k] in
    [[0, 2 * num_rows_b]], and the keys of each file hold
    [max(1, int(num_rows * uniqueness))] distinct values.  With a fair
    random source the run ends. *)
Theorem generate_data_writes_both_tables argv a b x ua ub w :
  command_line argv a b x -> in_unit_interval x = true ->
  0 < a < 2 ^ 53 -> 0 < b < 2 ^ 53 ->
  unique_count a x ua -> unique_count b x ub ->
  w_faults w "A.txt" = NoFault -> w_faults w "B.txt" = NoFault ->
  (forall fuel,
     safe (DataGen.generate_data fuel argv) w (fun _ w' =>
       exists la lb,
         w_fs w' = <["B.txt" := lb]> (<["A.txt" := la]> (w_fs w)) /\
         Z.of_nat (length la) = a /\ Z.of_nat (length lb) = b /\
         Forall (fun l => exists k v,
                   l = RowKV k v /\ 0 <= k <= 2 * a /\ 1 <= v <= 100) la /\
         Forall (fun l => exists k, l = RowK k /\ 0 <= k <= 2 * b) lb /\
         Z.of_nat (distinct_keys (line_key <$> la)) = Z.max 1 ua /\
         Z.of_nat (distinct_keys (line_key <$> lb)) = Z.max 1 ub)) /\
  (fair (w_draws w) -> exists fuel, halts (DataGen.generate_data fuel argv) w).
Proof.
  intros Hcl Hin Ha Hb Hua Hub HfA HfB.
  pose proof (command_line_valid argv a b x Hcl) as Hv.
  destruct (unique_count_range a x ltac:(lia) Hv Hin) as (ua' & Hua' & Huab).
  destruct (unique_count_range b x ltac:(lia) Hv Hin) as (ub' & Hub' & Hubb).
  rewrite <- (unique_count_fun a x ua ua' Hua Hua') in Huab. clear ua' Hua'.
  rewrite <- (unique_count_fun b x ub ub' Hub Hub') in Hubb. clear ub' Hub'.
  split.
  - intros fuel. unfold DataGen.generate_data. apply safe_bind.
    eapply safe_mono; [apply (prepare_safe fuel argv a b x ua ub); lia || done|].
    intros [[[[a' ka] b'] kb]|] w1 [Hw1 Hr]; [|destruct Hr as [[?|?] _]; lia].
    destruct Hr as (-> & -> & _ & _ & Hka & Hkb).
    pose proof (pool_keys_length a ua ka ltac:(lia) Huab Hka) as Hla.
    pose proof (pool_keys_length b ub kb ltac:(lia) Hubb Hkb) as Hlb.
    destruct Hw1 as [[_ Hf1] Hfs1].
    destruct (run_threads_no_fault a ka b kb w1 Hla Hlb)
      as (w' & la & lb & Hrun & Hfs & Hkeys_a & Hoka & Hkeys_b & Hokb);
      [by rewrite Hf1..|].
    unfold safe, wp. rewrite Hrun. exists la, lb.
    split; [by rewrite Hfs, Hfs1|].
    split; [by rewrite <- Hla, <- Hkeys_a, length_fmap|].
    split; [by rewrite <- Hlb, <- Hkeys_b, length_fmap|].
    pose proof (pool_keys_range a ua ka ltac:(lia) Hka) as Hra.
    pose proof (pool_keys_range b ub kb ltac:(lia) Hkb) as Hrb.
    rewrite Forall_forall in Hra, Hrb.
    split; [|split; [|split]].
    + apply Forall_lookup. intros i l Hl.
      destruct (Hoka i l Hl) as (k & v & -> & Hk & Hvr). exists k, v.
      split; [done|]. split; [|done].
      apply list_elem_of_lookup_2 in Hk. specialize (Hra k Hk). simpl in Hra. lia.
    + apply Forall_lookup. intros i l Hl.
      destruct (Hokb i l Hl) as (k & -> & Hk). exists k. split; [done|].
      apply list_elem_of_lookup_2 in Hk. specialize (Hrb k Hk). simpl in Hrb. lia.
    + rewrite Hkeys_a. apply (pool_keys_distinct a); lia || done.
    + rewrite Hkeys_b. apply (pool_keys_distinct b); lia || done.
  - intros Hfair.
    destruct (prepare_halts argv a b x ua ub w) as [fuel Hfuel]; try (lia || done).
    exists fuel. by apply generate_data_halts.
Qed.

End WholeRun.

(** X2, [int(n * x)] in exact arithmetic: for a positive fraction
    [x = m * 2^e <= 1] and [0 < n < 2^53] it is the floor of the exact
    product [n * m * 2^e], or one more when the binary64 product rounds up
    to the next integer; it is the exact product when that is an integer. *)
Theorem unique_count_floor n m e u :
  0 < n < 2 ^ 53 -> e <= 0 -> Z.pos m <= 2 ^ (- e) ->
  unique_count n (S754_finite false m e) u ->
  (n * Z.pos m) / 2 ^ (- e) <= u <= (n * Z.pos m) / 2 ^ (- e) + 1 /\
  ((n * Z.pos m) mod 2 ^ (- e) = 0 -> u = (n * Z.pos m) / 2 ^ (- e)).
Proof.
  intros Hn He Hm Hu.
  assert (0 < 2 ^ (- e)) as Hp by (apply Z.pow_pos_nonneg; lia).
  set (d := 2 ^ (- e)) in *. set (p := n * Z.pos m).
  pose proof (Z.div_mod p d ltac:(lia)) as Hdm.
  pose proof (Z.mod_pos_bound p d Hp) as Hmb.
  assert (p <= n * d) as Hpn by (subst p; nia).
  assert (0 <= p / d) as Hq0 by (apply Z.div_pos; subst p; lia).
  assert (p / d <= n) as Hqn by (apply Z.div_le_upper_bound; lia).
  destruct (decide (p mod d = 0)) as [Hex|Hne].
  - destruct (num_unique_keys_finite n m e (p / d) (p / d)) as (u' & Hu' & Hb);
      try (lia || done).
    rewrite (unique_count_fun _ _ u u' Hu Hu'). lia.
  - assert (p / d < n) as Hlt by nia.
    destruct (num_unique_keys_finite n m e (p / d) (p / d + 1)) as (u' & Hu' & Hb);
      try (lia || done).
    rewrite (unique_count_fun _ _ u u' Hu Hu'). lia.
Qed.

Lemma unique_count_floor_witness :
  (10 * 6305039478318694) / 2 ^ (- -53) <= 7
    <= (10 * 6305039478318694) / 2 ^ (- -53) + 1 /\
  ((10 * 6305039478318694) mod 2 ^ (- -53) = 0 ->
   7 = (10 * 6305039478318694) / 2 ^ (- -53)).
Proof.
  apply (unique_count_floor 10 6305039478318694 (-53) 7);
    [lia|lia|vm_compute; discriminate|intros w; reflexivity].
Defined.

Lemma command_line_100_100_0_9 :
  command_line ["data_gen.py"; "100"; "100"; "0.9"] 100 100 float_0_9.
Proof. by eapply CommandLine. Qed.

Lemma generate_data_writes_both_tables_witness :
  (forall fuel,
     safe (DataGen.generate_data fuel ["data_gen.py"; "100"; "100"; "0.9"])
       counting_world (fun _ w' =>
       exists la lb,
         w_fs w' = <["B.txt" := lb]> (<["A.txt" := la]> (w_fs counting_world)) /\
         Z.of_nat (length la) = 100 /\ Z.of_nat (length lb) = 100 /\
         Forall (fun l => exists k v,
                   l = RowKV k v /\ 0 <= k <= 2 * 100 /\ 1 <= v <= 100) la /\
         Forall (fun l => exists k, l = RowK k /\ 0 <= k <= 2 * 100) lb /\
         Z.of_nat (distinct_keys (line_key <$> la)) = Z.max 1 90 /\
         Z.of_nat (distinct_keys (line_key <$> lb)) = Z.max 1 90)) /\
  (fair (w_draws counting_world) ->
   exists fuel,
     halts (DataGen.generate_data fuel ["data_gen.py"; "100"; "100"; "0.9"])
       counting_world).
Proof.
  apply (generate_data_writes_both_tables
           ["data_gen.py"; "100"; "100"; "0.9"] 100 100 float_0_9 90 90 counting_world);
    [apply command_line_100_100_0_9|reflexivity|lia|lia
    |intros w; reflexivity|intros w; reflexivity|reflexivity|reflexivity].
Defined.

(** A run of the scenario of 100 rows per table at a fraction of 0.9, on
    the counting source: both files get 100 lines and 90 distinct keys. *)
Example scenario_100_100_0_9 :
  exists w',
    DataGen.generate_data 200 ["data_gen.py"; "100"; "100"; "0.9"] counting_world
      = Done tt w' /\
    length (file_lines "A.txt" w') = 100%nat /\
    distinct_keys (file_keys "A.txt" w') = 90%nat /\
    length (file_lines "B.txt" w') = 100%nat /\
    distinct_keys (file_keys "B.txt" w') = 90%nat.
Proof.
  eexists. split; [vm_compute; reflexivity|].
  vm_compute. repeat split.
Qed.

(** [int(10 * 0.7)] is 7 although the exact product of 10 and the binary64
    value of 0.7 is below 7, and [int(100 * 0.29)] is 28. *)
Example unique_count_10_0_7 :
  unique_count 10 (S754_finite false 6305039478318694 (-53)) 7 /\
  (10 * 6305039478318694) / 2 ^ 53 = 6 /\
  unique_count 100 (S754_finite false 5224175567749775 (-54)) 28.
Proof. split; [by intros w|]. split; [done|by intros w]. Qed.

(** * The output of [data_gen.py]: lines and distinct keys *)

Section DataGenOutput.
Context `{Builtins}.

(** On a file system that does not fail the key column of each file is
    the key list the run built for its table. *)
Lemma generate_data_keys fuel argv a b x ua ub w :
  command_line argv a b x -> in_unit_interval x = true ->
  0 < a -> 0 < b -> 0 <= ua <= a -> 0 <= ub <= b ->
  unique_count a x ua -> unique_count b x ub ->
  w_faults w "A.txt" = NoFault -> w_faults w "B.txt" = NoFault ->
  safe (DataGen.generate_data fuel argv) w (fun _ w' =>
    pool_keys_ok a ua (file_keys "A.txt" w') /\
    pool_keys_ok b ub (file_keys "B.txt" w')).
Proof.
  intros Hcl Hin Ha Hb Huab Hubb Hua Hub HfA HfB.
  unfold DataGen.generate_data. apply safe_bind.
  eapply safe_mono; [apply (prepare_safe fuel argv a b x ua ub); lia || done|].
  intros [[[[a' ka] b'] kb]|] w1 [Hw1 Hr]; [|destruct Hr as [[?|?] _]; lia].
  destruct Hr as (-> & -> & _ & _ & Hka & Hkb).
  pose proof (pool_keys_length a ua ka ltac:(lia) Huab Hka) as Hla.
  pose proof (pool_keys_length b ub kb ltac:(lia) Hubb Hkb) as Hlb.
  destruct Hw1 as [[_ Hf1] Hfs1].
  destruct (run_threads_no_fault a ka b kb w1 Hla Hlb)
    as (w' & la & lb & Hrun & Hfs & Hkeys_a & _ & Hkeys_b & _);
    [by rewrite Hf1..|].
  unfold safe, wp. rewrite Hrun.
  unfold file_keys, file_lines. rewrite Hfs.
  rewrite lookup_insert_ne, !lookup_insert_eq by done. simpl.
  by rewrite Hkeys_a, Hkeys_b.
Qed.

(** C3 as amended: on a valid command line with positive row counts
    (below 2^53) and a file system that does not fail, the key column of
    each file holds exactly [u = int(num_rows * uniqueness_percent)]
    distinct values, the binary64 product truncated as Python does it, or
    exactly one when [u = 0]; for a fraction of 1.0 all [num_rows] keys of
    a file are pairwise distinct.  With a fair random source the run ends. *)
Theorem output_distinct_keys argv a b x ua ub w :
  command_line argv a b x -> in_unit_interval x = true ->
  0 < a < 2 ^ 53 -> 0 < b < 2 ^ 53 ->
  unique_count a x ua -> unique_count b x ub ->
  w_faults w "A.txt" = NoFault -> w_faults w "B.txt" = NoFault ->
  (forall fuel,
     safe (DataGen.generate_data fuel argv) w (fun _ w' =>
       Z.of_nat (distinct_keys (file_keys "A.txt" w')) = (if decide (ua = 0) then 1 else ua) /\
       Z.of_nat (distinct_keys (file_keys "B.txt" w')) = (if decide (ub = 0) then 1 else ub) /\
       (x = float_one ->
        NoDup (file_keys "A.txt" w') /\ Z.of_nat (length (file_keys "A.txt" w')) = a /\
        NoDup (file_keys "B.txt" w') /\ Z.of_nat (length (file_keys "B.txt" w')) = b))) /\
  (fair (w_draws w) -> exists fuel, halts (DataGen.generate_data fuel argv) w).
Proof.
  intros Hcl Hin Ha Hb Hua Hub HfA HfB.
  pose proof (command_line_valid argv a b x Hcl) as Hv.
  destruct (unique_count_range a x ltac:(lia) Hv Hin) as (ua' & Hua' & Huab).
  destruct (unique_count_range b x ltac:(lia) Hv Hin) as (ub' & Hub' & Hubb).
  rewrite <- (unique_count_fun a x ua ua' Hua Hua') in Huab. clear ua' Hua'.
  rewrite <- (unique_count_fun b x ub ub' Hub Hub') in Hubb. clear ub' Hub'.
  split.
  - intros fuel.
    eapply safe_mono; [apply (generate_data_keys fuel argv a b x ua ub); lia || done|].
    intros [] w' [Hka Hkb]. split; [|split].
    + rewrite (pool_keys_distinct a ua) by (lia || done). destruct (decide (ua = 0)); lia.
    + rewrite (pool_keys_distinct b ub) by (lia || done). destruct (decide (ub = 0)); lia.
    + intros ->.
      pose proof (unique_count_fun a float_one ua a Hua (num_unique_keys_one a ltac:(lia))) as ->.
      pose proof (unique_count_fun b float_one ub b Hub (num_unique_keys_one b ltac:(lia))) as ->.
      split; [apply (pool_keys_nodup a); [lia|done]|].
      split; [apply (pool_keys_length a a); lia || done|].
      split; [apply (pool_keys_nodup b); [lia|done]|].
      apply (pool_keys_length b b); lia || done.
  - intros Hfair.
    destruct (prepare_halts argv a b x ua ub w) as [fuel Hfuel]; try (lia || done).
    exists fuel. by apply generate_data_halts.
Qed.

End DataGenOutput.

Lemma output_distinct_keys_witness :
  (forall fuel,
     safe (DataGen.generate_data fuel ["data_gen.py"; "100"; "100"; "0.9"])
       counting_world (fun _ w' =>
       Z.of_nat (distinct_keys (file_keys "A.txt" w')) = (if decide (90 = 0) then 1 else 90) /\
       Z.of_nat (distinct_keys (file_keys "B.txt" w')) = (if decide (90 = 0) then 1 else 90) /\
       (float_0_9 = float_one ->
        NoDup (file_keys "A.txt" w') /\ Z.of_nat (length (file_keys "A.txt" w')) = 100 /\
        NoDup (file_keys "B.txt" w') /\ Z.of_nat (length (file_keys "B.txt" w')) = 100))) /\
  (fair (w_draws counting_world) ->
   exists fuel,
     halts (DataGen.generate_data fuel ["data_gen.py"; "100"; "100"; "0.9"])
       counting_world).
Proof.
  apply (output_distinct_keys
           ["data_gen.py"; "100"; "100"; "0.9"] 100 100 float_0_9 90 90 counting_world);
    [apply command_line_100_100_0_9|reflexivity|lia|lia
    |intros w; reflexivity|intros w; reflexivity|reflexivity|reflexivity].
Defined.

(** C3 as stated fails, whichever way [floor(N * f)] is read.  With 100
    rows per table at a fraction of 0.29 each file holds 28 distinct keys,
    while [floor(100 * 29 / 100)] is 29: the binary64 nearest to 0.29 is
    below it, and so is the product.  With 10 rows at 0.7 each file holds 7
    distinct keys, while the floor of the exact product of 10 and the
    binary64 nearest to 0.7 is 6: the binary64 product rounds up to 7.0. *)
Lemma output_distinct_keys_counterexample :
  (exists w',
     DataGen.generate_data 200 ["data_gen.py"; "100"; "100"; "0.29"] counting_world
       = Done tt w' /\
     distinct_keys (file_keys "A.txt" w') = 28%nat /\
     distinct_keys (file_keys "B.txt" w') = 28%nat /\
     py_float "0.29" = Some (S754_finite false 5224175567749775 (-54)) /\
     (100 * 29) / 100 = 29) /\
  (exists w',
     DataGen.generate_data 200 ["data_gen.py"; "10"; "10"; "0.7"] counting_world
       = Done tt w' /\
     distinct_keys (file_keys "A.txt" w') = 7%nat /\
     distinct_keys (file_keys "B.txt" w') = 7%nat /\
     py_float "0.7" = Some (S754_finite false 6305039478318694 (-53)) /\
     (10 * 6305039478318694) / 2 ^ 53 = 6).
Proof.
  split.
  - eexists. split; [vm_compute; reflexivity|]. vm_compute. repeat split.
  - eexists. split; [vm_compute; reflexivity|]. vm_compute. repeat split.
Qed.

(** C2 fails on the code: with 5 rows for table A and 0 rows for table B
    the key list of table A is built (nine random numbers are drawn for
    it), then the block of table B finds no rows and returns from
    [generate_data] before the writer threads are created, so [A.txt] is
    never opened and holds none of the 5 lines asked for.  The same 5 rows
    are written when table B has rows of its own. *)
Theorem table_a_unwritten_when_b_has_no_rows :
  (exists w',
     DataGen.generate_data 10 ["data_gen.py"; "5"; "0"; "0.5"] counting_world
       = Done tt w' /\
     w_out w' = [MsgTableRows TableA 5; MsgTableRows TableB 0;
                 MsgKeyUniqueness float_half; MsgGeneratingKeyPool;
                 MsgKeyPoolGenerated TableA; MsgNoRows] /\
     w_pos w' = 9%nat /\
     w_fs w' !! "A.txt" = None /\
     length (file_lines "A.txt" w') = 0%nat) /\
  (exists w',
     DataGen.generate_data 10 ["data_gen.py"; "5"; "4"; "0.5"] counting_world
       = Done tt w' /\
     length (file_lines "A.txt" w') = 5%nat).
Proof.
  split.
  - eexists. split; [vm_compute; reflexivity|]. vm_compute. repeat split.
  - eexists. split; [vm_compute; reflexivity|]. vm_compute. repeat split.
Qed.

(** * Further properties: faults, edges and what the scripts never do *)

(** * Writing a table under a fault plan, exactly *)

Lemma write_exact_wp name l w0 w :
  same_files w0 w ->
  wp (write name l) w
    (fun _ w2 =>
       w_faults w0 name <> WriteFails (length (file_lines name w0)) /\
       appended name l w0 w2)
    (fun e w2 =>
       e = IOError /\ same_files w0 w2 /\
       w_faults w0 name = WriteFails (length (file_lines name w0))).
Proof.
  intros [[Hd Hf] Hfs]. unfold wp, write, appended, file_lines.
  cbv zeta. rewrite Hf, Hfs.
  destruct (w_faults w0 name) as [| |c] eqn:Hc; try done.
  destruct (decide _) as [Hl|Hl].
  - split; [done|]. split; [done|]. by rewrite Hl.
  - split; [congruence|]. done.
Qed.

Lemma seq_middle n pre a (suf : list nat) :
  seq 0 n = pre ++ a :: suf -> a = length pre /\ (length pre < n)%nat.
Proof.
  intros Hseq. pose proof (f_equal length Hseq) as Hl.
  rewrite length_seq, length_app in Hl. simpl in Hl.
  assert (seq 0 n !! length pre = Some a) as Ha.
  { rewrite Hseq. by apply list_lookup_middle. }
  apply lookup_seq in Ha. lia.
Qed.

Lemma write_loop_exact name P n (body : nat -> M unit) w0 w :
  same_env w0 w -> w_fs w = <[name := []]> (w_fs w0) ->
  (forall i w1, (i < n)%nat ->
     wp (body i) w1
       (fun _ w2 =>
          w_faults w1 name <> WriteFails (length (file_lines name w1)) /\
          exists l, P i l /\ appended name l w1 w2)
       (fun e w2 =>
          e = IOError /\ same_files w1 w2 /\
          w_faults w1 name = WriteFails (length (file_lines name w1)))) ->
  wp (for_each (seq 0 n) body) w
    (fun _ w' =>
       (forall c, w_faults w0 name = WriteFails c -> (n <= c)%nat) /\
       written name P n w0 w')
    (fun e w' =>
       e = IOError /\
       exists c, w_faults w0 name = WriteFails c /\ (c < n)%nat /\
         written name P c w0 w').
Proof.
  intros Henv Hfs Hbody.
  eapply wp_mono.
  - apply (for_each_wp (seq 0 n) body
      (fun pre w1 =>
         (forall c, w_faults w0 name = WriteFails c -> (length pre <= c)%nat) /\
         written name P (length pre) w0 w1)
      (fun e w' =>
         e = IOError /\
         exists c, w_faults w0 name = WriteFails c /\ (c < n)%nat /\
           written name P c w0 w')).
    + split; [simpl; lia|]. split; [done|]. exists []. split; [done|].
      split; [|done]. by intros i l Hi.
    + intros pre a suf w1 Hseq (Hc & Henv1 & lines & Hlen & Hok & Hfs1).
      destruct (seq_middle _ _ _ _ Hseq) as [-> Hlt].
      assert (length (file_lines name w1) = length pre) as Hfl.
      { unfold file_lines. by rewrite Hfs1, lookup_insert_eq. }
      eapply wp_mono; [by apply Hbody| |].
      * intros [] w2 (Hne & l & HP & Henv2 & Hfs2).
        rewrite Hfl, (proj2 Henv1) in Hne.
        split.
        { intros c Hfc. specialize (Hc c Hfc). rewrite length_app. simpl.
          assert (c <> length pre) by congruence. lia. }
        split; [by eapply same_env_trans|].
        exists (lines ++ [l]). rewrite length_app, length_app, Hlen. split; [done|].
        split; [apply lines_ok_snoc; by rewrite ?Hlen|].
        rewrite Hfs2. unfold file_lines. rewrite Hfs1, lookup_insert_eq. simpl.
        by rewrite insert_insert_eq.
      * intros e w2 (-> & [Henv2 Hfs2] & Hf). split; [done|].
        rewrite Hfl, (proj2 Henv1) in Hf.
        exists (length pre). split; [done|]. split; [done|].
        split; [by eapply same_env_trans|].
        exists lines. by rewrite Hfs2.
  - intros [] w' [Hc Hw]. rewrite length_seq in Hc, Hw. done.
  - done.
Qed.

Lemma written_after name P c w w' :
  written name P c w w' ->
  same_env w w' /\
  (forall other, other <> name -> w_fs w' !! other = w_fs w !! other) /\
  exists lines, w_fs w' !! name = Some lines /\ length lines = c /\ lines_ok P lines.
Proof.
  intros (He & lines & Hlen & Hok & Hfs). split; [done|]. split.
  - intros other Hne. by rewrite Hfs, lookup_insert_ne.
  - exists lines. by rewrite Hfs, lookup_insert_eq.
Qed.

(** The writer block under a fault plan: the handler runs exactly when
    the fault strikes, and the file is as [file_after] says. *)
Lemma write_block_exact name P n (body : nat -> M unit) (handler : M bool) w :
  (forall i w1, (i < Z.to_nat n)%nat ->
     wp (body i) w1
       (fun _ w2 =>
          w_faults w1 name <> WriteFails (length (file_lines name w1)) /\
          exists l, P i l /\ appended name l w1 w2)
       (fun e w2 =>
          e = IOError /\ same_files w1 w2 /\
          w_faults w1 name = WriteFails (length (file_lines name w1)))) ->
  (forall w1, safe handler w1 (fun ok w2 => ok = false /\ same_state w1 w2)) ->
  safe (try_except
          (open_w name ;;; for_each (range n) body ;;; ret true)
          is_io_error (fun _ => handler)) w
    (fun ok w' =>
       ok = negb (fault_hits (w_faults w name) (Z.to_nat n)) /\
       file_after name P (Z.to_nat n) w w').
Proof.
  intros Hbody Hh. apply wp_try_except, wp_bind.
  unfold wp at 1, open_w.
  destruct (w_faults w name) as [| |c] eqn:Hf.
  - set (w1 := World _ _ _ _ _).
    apply wp_bind. eapply wp_mono.
    + by apply (write_loop_exact name P (Z.to_nat n) body w w1).
    + intros [] w2 [_ Hw]. apply wp_ret. split; [done|].
      unfold file_after, table_after. rewrite Hf. simpl.
      by apply written_after.
    + intros e w2 (_ & c & Hc & _). congruence.
  - simpl. eapply safe_mono; [apply Hh|]. intros ok w3 [-> Hw3].
    split; [done|]. destruct Hw3 as [[He Hfs] _].
    unfold file_after, table_after. rewrite Hf. simpl.
    split; [done|]. split; intros; by rewrite Hfs.
  - set (w1 := World _ _ _ _ _).
    apply wp_bind. eapply wp_mono.
    + by apply (write_loop_exact name P (Z.to_nat n) body w w1).
    + intros [] w2 [Hc Hw]. apply wp_ret. specialize (Hc c Hf). simpl.
      split; [by rewrite bool_decide_eq_false_2 by lia|].
      unfold file_after, table_after. rewrite Hf. simpl.
      rewrite Nat.min_r by lia. by apply written_after.
    + intros e w2 (-> & c' & Hc' & Hlt & Hw). simpl.
      assert (c' = c) as -> by congruence.
      eapply safe_mono; [apply Hh|]. intros ok w3 [-> Hw3].
      split; [by rewrite bool_decide_eq_true_2|].
      unfold file_after, table_after. rewrite Hf. simpl.
      rewrite Nat.min_l by lia.
      apply written_after.
      eapply written_frame; [apply same_state_refl|exact Hw|exact Hw3].
Qed.

(** A line body that ends in the [write]: what comes before it draws
    random numbers at most and decides the line. *)
Lemma row_body_exact name (P : line -> Prop) l w0 w :
  same_files w0 w -> P l ->
  wp (write name l) w
    (fun _ w2 =>
       w_faults w0 name <> WriteFails (length (file_lines name w0)) /\
       exists l, P l /\ appended name l w0 w2)
    (fun e w2 =>
       e = IOError /\ same_files w0 w2 /\
       w_faults w0 name = WriteFails (length (file_lines name w0))).
Proof.
  intros Hw HP. eapply wp_mono; [by apply write_exact_wp| |done].
  intros [] w2 [Hne Happ]. split; [done|]. by exists l.
Qed.

Lemma handler_safe m w :
  safe (print m ;;; ret false) w (fun ok w' => ok = false /\ same_state w w').
Proof.
  apply safe_bind. eapply safe_mono; [apply print_safe|].
  intros [] w3 [Hw3 _]. by apply safe_ret.
Qed.

Lemma file_after_frame name P n w0 w1 w2 w3 :
  same_state w0 w1 -> file_after name P n w1 w2 -> same_state w2 w3 ->
  file_after name P n w0 w3.
Proof.
  intros [[He0 Hf0] _] (He & Ho & Ht) [[He2 Hf2] _].
  unfold file_after, table_after in *.
  rewrite Hf2, <- Hf0, <- (proj2 He0).
  split; [eapply same_env_trans; [done|]; by eapply same_env_trans|done].
Qed.

(** ** The writers of [data_gen.py] *)

Lemma generate_file_a_exact n keys w :
  (Z.to_nat n <= length keys)%nat ->
  safe (DataGen.generate_file_a n keys) w (fun _ w' =>
    file_after "A.txt" (row_a keys) (Z.to_nat n) w w').
Proof.
  intros Hn. unfold DataGen.generate_file_a.
  apply safe_bind. eapply safe_mono; [apply print_safe|].
  intros [] w1 [Hw1 _]. apply safe_bind. eapply safe_mono.
  - apply (write_block_exact "A.txt" (row_a keys)); [|intros; apply handler_safe].
    intros i w2 Hi.
    destruct (lookup_lt_is_Some_2 keys i ltac:(lia)) as [k Hk].
    apply wp_bind. unfold index. rewrite Hk. apply wp_ret.
    apply wp_bind. eapply wp_mono; [apply randint_safe; lia| |done].
    intros v w3 [Hv Hw3].
    apply (row_body_exact "A.txt" (row_a keys i)); [done|by exists k, v].
  - intros ok w2 [_ Hw2]. destruct ok.
    + eapply safe_mono; [apply print_safe|]. intros [] w3 [Hw3 _].
      by eapply file_after_frame.
    + apply safe_ret. by eapply file_after_frame.
Qed.

Lemma generate_file_b_exact n keys w :
  (Z.to_nat n <= length keys)%nat ->
  safe (DataGen.generate_file_b n keys) w (fun _ w' =>
    file_after "B.txt" (row_b keys) (Z.to_nat n) w w').
Proof.
  intros Hn. unfold DataGen.generate_file_b.
  apply safe_bind. eapply safe_mono; [apply print_safe|].
  intros [] w1 [Hw1 _]. apply safe_bind. eapply safe_mono.
  - apply (write_block_exact "B.txt" (row_b keys)); [|intros; apply handler_safe].
    intros i w2 Hi.
    destruct (lookup_lt_is_Some_2 keys i ltac:(lia)) as [k Hk].
    apply wp_bind. unfold index. rewrite Hk. apply wp_ret.
    apply (row_body_exact "B.txt" (row_b keys i)); [done|by exists k].
  - intros ok w2 [_ Hw2]. destruct ok.
    + eapply safe_mono; [apply print_safe|]. intros [] w3 [Hw3 _].
      by eapply file_after_frame.
    + apply safe_ret. by eapply file_after_frame.
Qed.

Lemma writer_exact t n keys w :
  (Z.to_nat n <= length keys)%nat ->
  exists w',
    writer t n keys w = Done tt w' /\
    file_after (file_of t) (row_of t keys) (Z.to_nat n) w w'.
Proof.
  intros Hn.
  assert (safe (writer t n keys) w (fun _ w' =>
            file_after (file_of t) (row_of t keys) (Z.to_nat n) w w')) as Hs.
  { destruct t; [by apply generate_file_a_exact|by apply generate_file_b_exact]. }
  destruct (safe_returns _ _ _ Hs (halts_writer t n keys w)) as ([] & w' & Hrun & Hw).
  by exists w'.
Qed.

(** A file keeps what its writer left when another file is written. *)
Lemma table_after_frame name P n w0 w1 w2 w3 :
  w_faults w1 name = w_faults w0 name -> w_fs w1 !! name = w_fs w0 !! name ->
  table_after name P n w1 w2 -> w_fs w3 !! name = w_fs w2 !! name ->
  table_after name P n w0 w3.
Proof.
  unfold table_after. intros -> -> Ht ->. done.
Qed.

Lemma table_after_impl name (P Q : nat -> line -> Prop) n w w' :
  (forall i l, P i l -> Q i l) ->
  table_after name P n w w' -> table_after name Q n w w'.
Proof.
  intros HPQ. unfold table_after. destruct (lines_kept _ _); [|done].
  intros (lines & Hl & Hlen & Hok). exists lines. split; [done|]. split; [done|].
  intros i l Hi. by apply HPQ, Hok.
Qed.

Lemma lines_kept_no_hit f n : fault_hits f n = false -> lines_kept f n = Some n.
Proof.
  destruct f as [| |c]; simpl; [done|done|].
  intros Hc. apply bool_decide_eq_false in Hc. f_equal. lia.
Qed.

Lemma table_after_complete name P n w w' :
  fault_hits (w_faults w name) n = false ->
  table_after name P n w w' -> file_complete name P n w'.
Proof.
  intros Hf. unfold table_after. by rewrite (lines_kept_no_hit _ _ Hf).
Qed.

(** Both threads run to their end whatever happens to the other one. *)
Lemma run_threads_exact a keys_a b keys_b w :
  (Z.to_nat a <= length keys_a)%nat -> (Z.to_nat b <= length keys_b)%nat ->
  exists w',
    DataGen.run_threads a keys_a b keys_b w = Done tt w' /\
    last (w_out w') = Some MsgAllTasksCompleted /\
    (forall other, other <> "A.txt" -> other <> "B.txt" ->
       w_fs w' !! other = w_fs w !! other) /\
    table_after "A.txt" (row_a keys_a) (Z.to_nat a) w w' /\
    table_after "B.txt" (row_b keys_b) (Z.to_nat b) w w'.
Proof.
  intros Hla Hlb.
  set (w1 := World (w_draws w) (w_pos w) (w_faults w) (w_fs w)
               (w_out w ++ [MsgStartingThreads])).
  destruct (writer_exact TableA a keys_a w1 Hla) as (w2 & Hra & He2 & Ho2 & Ht2).
  destruct (writer_exact TableB b keys_b w2 Hlb) as (w3 & Hrb & He3 & Ho3 & Ht3).
  simpl in *.
  eexists. split; [|split; [|split; [|split]]].
  - unfold DataGen.run_threads, bind at 1. simpl. fold w1.
    unfold bind at 1, DataGen.run_thread at 1. rewrite Hra.
    unfold bind at 1, DataGen.run_thread at 1. rewrite Hrb. reflexivity.
  - simpl. by rewrite last_snoc.
  - intros other HA HB. simpl. by rewrite Ho3, Ho2.
  - apply (table_after_frame "A.txt" _ _ w w1 w2); [done|done|done|].
    simpl. by apply Ho3.
  - apply (table_after_frame "B.txt" _ _ w w2 w3); [|by apply Ho2|done|done].
    by rewrite (proj2 He2).
Qed.

(** ** The writers of the two simpler scripts *)

Lemma random_write_a_exact n w :
  safe (RandomGen.write_a n) w (fun ok w' =>
    ok = negb (fault_hits (w_faults w "A.txt") (Z.to_nat n)) /\
    file_after "A.txt" (fun _ => random_row_a) (Z.to_nat n) w w').
Proof.
  unfold RandomGen.write_a.
  apply safe_bind. eapply safe_mono; [apply print_safe|].
  intros [] w1 [Hw1 _]. eapply safe_mono.
  - apply (write_block_exact "A.txt" (fun _ => random_row_a));
      [|intros; apply handler_safe].
    intros i w2 Hi.
    apply wp_bind. eapply wp_mono; [apply randint_safe; done| |done].
    intros k w3 [Hk Hw3].
    apply wp_bind. eapply wp_mono; [apply randint_safe; done| |done].
    intros v w4 [Hv Hw4].
    apply row_body_exact; [by eapply same_files_trans|by exists k, v].
  - intros ok w2 [-> Hw2]. split.
    + by rewrite (proj2 (proj1 (proj1 Hw1))).
    + eapply file_after_frame; [exact Hw1|exact Hw2|apply same_state_refl].
Qed.

Lemma random_write_b_exact n w :
  safe (RandomGen.write_b n) w (fun ok w' =>
    ok = negb (fault_hits (w_faults w "B.txt") (Z.to_nat n)) /\
    file_after "B.txt" (fun _ => random_row_b) (Z.to_nat n) w w').
Proof.
  unfold RandomGen.write_b.
  apply safe_bind. eapply safe_mono; [apply print_safe|].
  intros [] w1 [Hw1 _]. eapply safe_mono.
  - apply (write_block_exact "B.txt" (fun _ => random_row_b));
      [|intros; apply handler_safe].
    intros i w2 Hi.
    apply wp_bind. eapply wp_mono; [apply randint_safe; done| |done].
    intros k w3 [Hk Hw3].
    apply row_body_exact; [done|by exists k].
  - intros ok w2 [-> Hw2]. split.
    + by rewrite (proj2 (proj1 (proj1 Hw1))).
    + eapply file_after_frame; [exact Hw1|exact Hw2|apply same_state_refl].
Qed.

Lemma simple_write_a_exact n pool w :
  pool <> [] ->
  safe (SimpleGen.write_a n pool) w (fun ok w' =>
    ok = negb (fault_hits (w_faults w "A.txt") (Z.to_nat n)) /\
    file_after "A.txt" (fun _ => simple_row_a pool) (Z.to_nat n) w w').
Proof.
  intros Hpool. unfold SimpleGen.write_a.
  apply safe_bind. eapply safe_mono; [apply print_safe|].
  intros [] w1 [Hw1 _]. eapply safe_mono.
  - apply (write_block_exact "A.txt" (fun _ => simple_row_a pool));
      [|intros; apply handler_safe].
    intros i w2 Hi.
    apply wp_bind. eapply wp_mono; [by apply choice_safe| |done].
    intros k w3 [Hk Hw3].
    apply wp_bind. eapply wp_mono; [apply randint_safe; lia| |done].
    intros v w4 [Hv Hw4].
    apply row_body_exact; [by eapply same_files_trans|by exists k, v].
  - intros ok w2 [-> Hw2]. split.
    + by rewrite (proj2 (proj1 (proj1 Hw1))).
    + eapply file_after_frame; [exact Hw1|exact Hw2|apply same_state_refl].
Qed.

Lemma simple_write_b_exact n pool w :
  pool <> [] ->
  safe (SimpleGen.write_b n pool) w (fun ok w' =>
    ok = negb (fault_hits (w_faults w "B.txt") (Z.to_nat n)) /\
    file_after "B.txt" (fun _ => simple_row_b pool) (Z.to_nat n) w w').
Proof.
  intros Hpool. unfold SimpleGen.write_b.
  apply safe_bind. eapply safe_mono; [apply print_safe|].
  intros [] w1 [Hw1 _]. eapply safe_mono.
  - apply (write_block_exact "B.txt" (fun _ => simple_row_b pool));
      [|intros; apply handler_safe].
    intros i w2 Hi.
    apply wp_bind. eapply wp_mono; [by apply choice_safe| |done].
    intros k w3 [Hk Hw3].
    apply row_body_exact; [done|by exists k].
  - intros ok w2 [-> Hw2]. split.
    + by rewrite (proj2 (proj1 (proj1 Hw1))).
    + eapply file_after_frame; [exact Hw1|exact Hw2|apply same_state_refl].
Qed.

Lemma two_writers_exact (wa wb : M bool) (PA PB : line -> Prop) na nb w :
  (forall w1, safe wa w1 (fun ok w2 =>
     ok = negb (fault_hits (w_faults w1 "A.txt") na) /\
     file_after "A.txt" (fun _ => PA) na w1 w2)) ->
  (forall w1, safe wb w1 (fun ok w2 =>
     ok = negb (fault_hits (w_faults w1 "B.txt") nb) /\
     file_after "B.txt" (fun _ => PB) nb w1 w2)) ->
  safe (written_a <- wa ;;
        if written_a : bool then
          print (MsgFileCreated TableA) ;;;
          written_b <- wb ;;
          if written_b : bool then print (MsgFileCreated TableB) else ret tt
        else ret tt) w
    (fun _ w' => tables_after PA PB na nb w w').
Proof.
  intros Ha Hb. apply safe_bind. eapply safe_mono; [apply Ha|].
  intros oka w1 [-> (He1 & Ho1 & Ht1)]. unfold tables_after.
  destruct (fault_hits (w_faults w "A.txt") na); simpl.
  - apply safe_ret. split; [by intros; apply Ho1|]. split; [done|by apply Ho1].
  - apply safe_bind. eapply safe_mono; [apply print_safe|].
    intros [] w2 [Hw2 _]. apply safe_bind. eapply safe_mono; [apply Hb|].
    intros okb w3 [_ (He3 & Ho3 & Ht3)].
    assert (w_fs w2 = w_fs w1) as Hfs2 by apply Hw2.
    assert (w_faults w2 = w_faults w) as Hf2.
    { by rewrite (proj2 (proj1 (proj1 Hw2))), (proj2 He1). }
    assert (forall w', same_state w3 w' ->
      (forall other, other <> "A.txt" -> other <> "B.txt" ->
         w_fs w' !! other = w_fs w !! other) /\
      table_after "A.txt" (fun _ => PA) na w w' /\
      table_after "B.txt" (fun _ => PB) nb w w') as Hfin.
    { intros w' Hw'. assert (w_fs w' = w_fs w3) as Hfs' by apply Hw'.
      split; [|split].
      - intros other HA HB. by rewrite Hfs', Ho3, Hfs2, Ho1.
      - apply (table_after_frame "A.txt" _ _ w w w1); [done|done|done|].
        by rewrite Hfs', Ho3, Hfs2.
      - apply (table_after_frame "B.txt" _ _ w w2 w3); [by rewrite Hf2| |done|].
        + by rewrite Hfs2, Ho1.
        + by rewrite Hfs'. }
    destruct okb.
    + eapply safe_mono; [apply print_safe|]. intros [] w4 [Hw4 _]. by apply Hfin.
    + apply safe_ret. by apply Hfin.
Qed.

Lemma row_of_table_row t n keys i l :
  Forall (fun k => 0 <= k <= n * 2) keys -> row_of t keys i l -> table_row t n l.
Proof.
  intros Hr. rewrite Forall_forall in Hr. destruct t; simpl.
  - intros (k & v & -> & Hk & Hv). exists k, v. split; [done|]. split; [|done].
    apply list_elem_of_lookup_2 in Hk. specialize (Hr k Hk). simpl in Hr. lia.
  - intros (k & -> & Hk). exists k. split; [done|].
    apply list_elem_of_lookup_2 in Hk. specialize (Hr k Hk). simpl in Hr. lia.
Qed.

Section DataGenFaults.
Context `{Builtins}.

(** X3, the two writer threads fail independently: on a valid command
    line with positive row counts (below 2^53), whatever is planned for
    the two files, [generate_data] raises nothing and ends with
    ["All tasks completed."], and no file but [A.txt] and [B.txt] is
    touched.  A table whose own file does not fail is written in full,
    whatever happens to the file of the other table: [num_rows] lines,
    each a row of the table, with a key in [[0, 2 * num_rows]] and, in
    [A.txt], a value in [[1, 100]].  With a fair random source the run
    ends. *)
Theorem threads_fail_independently argv a b x w :
  command_line argv a b x -> in_unit_interval x = true ->
  0 < a < 2 ^ 53 -> 0 < b < 2 ^ 53 ->
  (forall fuel,
     safe (DataGen.generate_data fuel argv) w (fun _ w' =>
       last (w_out w') = Some MsgAllTasksCompleted /\
       (forall other, other <> "A.txt" -> other <> "B.txt" ->
          w_fs w' !! other = w_fs w !! other) /\
       forall t, w_faults w (file_of t) = NoFault ->
         file_complete (file_of t) (fun _ => table_row t (rows_of t a b))
           (Z.to_nat (rows_of t a b)) w')) /\
  (fair (w_draws w) -> exists fuel, halts (DataGen.generate_data fuel argv) w).
Proof.
  intros Hcl Hin Ha Hb.
  pose proof (command_line_valid argv a b x Hcl) as Hv.
  destruct (unique_count_range a x ltac:(lia) Hv Hin) as (ua & Hua & Huab).
  destruct (unique_count_range b x ltac:(lia) Hv Hin) as (ub & Hub & Hubb).
  split.
  - intros fuel. unfold DataGen.generate_data. apply safe_bind.
    eapply safe_mono; [apply (prepare_safe fuel argv a b x ua ub); lia || done|].
    intros [[[[a' ka] b'] kb]|] w1 [Hw1 Hr]; [|destruct Hr as [[?|?] _]; lia].
    destruct Hr as (-> & -> & _ & _ & Hka & Hkb).
    pose proof (pool_keys_length a ua ka ltac:(lia) Huab Hka) as Hla.
    pose proof (pool_keys_length b ub kb ltac:(lia) Hubb Hkb) as Hlb.
    pose proof (pool_keys_range a ua ka ltac:(lia) Hka) as Hra.
    pose proof (pool_keys_range b ub kb ltac:(lia) Hkb) as Hrb.
    destruct Hw1 as [[_ Hf1] Hfs1].
    destruct (run_threads_exact a ka b kb w1 ltac:(lia) ltac:(lia))
      as (w' & Hrun & Hlast & Ho & HtA & HtB).
    unfold safe, wp. rewrite Hrun. split; [done|]. split.
    + intros other HA HB. by rewrite Ho, Hfs1.
    + intros [|]; simpl; intros Hf.
      * apply (table_after_complete "A.txt" _ _ w1 w'); [by rewrite Hf1, Hf|].
        eapply table_after_impl; [|exact HtA].
        intros i l Hl. by apply (row_of_table_row TableA a ka i).
      * apply (table_after_complete "B.txt" _ _ w1 w'); [by rewrite Hf1, Hf|].
        eapply table_after_impl; [|exact HtB].
        intros i l Hl. by apply (row_of_table_row TableB b kb i).
  - intros Hfair.
    destruct (prepare_halts argv a b x ua ub w) as [fuel Hfuel]; try (lia || done).
    exists fuel. by apply generate_data_halts.
Qed.

End DataGenFaults.

Lemma threads_fail_independently_witness :
  (forall fuel,
     safe (DataGen.generate_data fuel ["data_gen.py"; "5"; "4"; "0.5"]) short_a_world
       (fun _ w' =>
       last (w_out w') = Some MsgAllTasksCompleted /\
       (forall other, other <> "A.txt" -> other <> "B.txt" ->
          w_fs w' !! other = w_fs short_a_world !! other) /\
       forall t, w_faults short_a_world (file_of t) = NoFault ->
         file_complete (file_of t) (fun _ => table_row t (rows_of t 5 4))
           (Z.to_nat (rows_of t 5 4)) w')) /\
  (fair (w_draws short_a_world) ->
   exists fuel,
     halts (DataGen.generate_data fuel ["data_gen.py"; "5"; "4"; "0.5"]) short_a_world).
Proof.
  apply (threads_fail_independently
           ["data_gen.py"; "5"; "4"; "0.5"] 5 4 float_half short_a_world);
    [apply command_line_5_4_half|reflexivity|lia|lia].
Defined.

(** * The two simpler scripts under a fault plan *)

Lemma size_list_to_set_le (l : list Z) : (size (list_to_set l : gset Z) <= length l)%nat.
Proof.
  induction l as [|k l IH]; [done|].
  pose proof (size_add_key k (list_to_set l)). simpl. lia.
Qed.

Lemma distinct_keys_le (l pool : list Z) :
  Forall (fun k => k ∈ pool) l -> (distinct_keys l <= length pool)%nat.
Proof.
  intros Hl. unfold distinct_keys.
  etrans; [|apply (size_list_to_set_le pool)].
  apply subseteq_size. intros k Hk. apply elem_of_list_to_set in Hk.
  apply elem_of_list_to_set. rewrite Forall_forall in Hl. by apply Hl.
Qed.

Section VariantExtras.
Context `{Builtins}.

(** X13: after [simple_data_gen_int_int.py] each of [A.txt] and [B.txt]
    is as it was before the run, or its key column holds at most
    [max(1, (num_rows_a + num_rows_b) // 20)] distinct keys, however many
    rows it has. *)
Theorem simple_distinct_keys_bounded script args w :
  exists w',
    SimpleGen.generate_data (script :: args) w = Done tt w' /\
    forall t,
      w_fs w' !! file_of t = w_fs w !! file_of t \/
      Z.of_nat (distinct_keys (file_keys (file_of t) w')) <=
        SimpleGen.key_pool_size (rows_used (script :: args) 1)
                                (rows_used (script :: args) 2).
Proof.
  destruct (simple_generate_data_returns script args w)
    as (pool & w' & Hrun & Hlen & _ & _ & HA & HB & _).
  exists w'. split; [done|]. unfold SimpleGen.key_pool_size. rewrite <- Hlen.
  assert (forall name, Forall (pool_row pool) (file_lines name w') ->
            Z.of_nat (distinct_keys (file_keys name w')) <= Z.of_nat (length pool))
    as Hbound.
  { intros name Hl. apply inj_le, distinct_keys_le. by apply pool_rows_keys. }
  intros [|]; simpl.
  - destruct HA as [HA|HA]; [by left|right; by apply Hbound].
  - destruct HB as [HB|HB]; [by left|right; by apply Hbound].
Qed.

(** X15, row counts of zero or less in the two simpler scripts: with a
    file system that does not fail, a table whose row count is zero or
    negative gets its file all the same, created and empty ([range] of
    such a count is empty). *)
Theorem nonpositive_rows_give_empty_files script args w :
  w_faults w "A.txt" = NoFault -> w_faults w "B.txt" = NoFault ->
  exists wr ws,
    RandomGen.generate_data (script :: args) w = Done tt wr /\
    SimpleGen.generate_data (script :: args) w = Done tt ws /\
    forall w', w' = wr \/ w' = ws ->
      (rows_used (script :: args) 1 <= 0 -> w_fs w' !! "A.txt" = Some []) /\
      (rows_used (script :: args) 2 <= 0 -> w_fs w' !! "B.txt" = Some []).
Proof.
  intros HfA HfB.
  destruct (random_generate_data_returns script args w) as (wr & Hr & _ & _ & _ & Hwr).
  destruct (simple_generate_data_returns script args w)
    as (pool & ws & Hs & _ & _ & _ & _ & _ & Hws).
  exists wr, ws. split; [done|]. split; [done|].
  assert (forall name n w',
            is_Some (w_fs w' !! name) -> length (file_lines name w') = Z.to_nat n ->
            n <= 0 -> w_fs w' !! name = Some []) as Hnil.
  { intros name n w' [lines Hl] Hlen Hn. unfold file_lines in Hlen.
    rewrite Hl in Hlen |- *. simpl in Hlen. f_equal. apply nil_length_inv. lia. }
  intros w' [->| ->].
  - destruct (Hwr HfA HfB) as (HA & HB & HlA & HlB & _). split; by apply Hnil.
  - destruct (Hws HfA HfB) as (HA & HB & HlA & HlB & _). split; by apply Hnil.
Qed.

End VariantExtras.

Lemma nonpositive_rows_give_empty_files_witness :
  exists wr ws,
    RandomGen.generate_data ["gen.py"; "-3"; "0"] counting_world = Done tt wr /\
    SimpleGen.generate_data ["gen.py"; "-3"; "0"] counting_world = Done tt ws /\
    forall w', w' = wr \/ w' = ws ->
      (rows_used ["gen.py"; "-3"; "0"] 1 <= 0 -> w_fs w' !! "A.txt" = Some []) /\
      (rows_used ["gen.py"; "-3"; "0"] 2 <= 0 -> w_fs w' !! "B.txt" = Some []).
Proof.
  apply (nonpositive_rows_give_empty_files "gen.py" ["-3"; "0"] counting_world);
    reflexivity.
Defined.

(** * Row counts below zero *)

(** The sign of a float goes through rounding untouched. *)
Lemma binary_round_aux_opp s M E l :
  binary_round_aux prec emax (negb s) M E l
    = SFopp (binary_round_aux prec emax s M E l).
Proof.
  unfold binary_round_aux.
  destruct (shr_fexp prec emax M E l) as [mrs e1].
  destruct (shr_fexp prec emax _ e1 loc_Exact) as [mrs2 e2].
  destruct (shr_m mrs2); [done| |done]. by destruct (_ <=? _).
Qed.

Lemma SFmul_opp y x : SFmul prec emax (SFopp y) x = SFopp (SFmul prec emax y x).
Proof.
  destruct y as [sy|sy| |sy my ey], x as [sx|sx| |sx mx ex];
    cbn [SFmul SFopp]; try done;
    try (by destruct sy, sx).
  rewrite <- binary_round_aux_opp. by destruct sy, sx.
Qed.

Lemma int_of_float_opp z w :
  int_of_float (SFopp z) w
    = match int_of_float z w with Done u w' => Done (- u) w' | r => r end.
Proof.
  destruct z as [[]|[]| |[] m e]; simpl; try done; unfold ret; f_equal; lia.
Qed.

Lemma float_of_int_opp n w :
  n <> 0 ->
  float_of_int (- n) w
    = match float_of_int n w with Done y w' => Done (SFopp y) w' | r => r end.
Proof.
  intros Hn. unfold float_of_int.
  assert (binary_normalize prec emax (- n) 0 false
          = SFopp (binary_normalize prec emax n 0 false)) as ->.
  { destruct n as [|p|p]; [done| |]; simpl; unfold binary_round;
      destruct (shl_align _ _ _) as [mz ez].
    - apply (binary_round_aux_opp false).
    - apply (binary_round_aux_opp true). }
  by destruct (binary_normalize prec emax n 0 false) as [[]|[]| |[] m e].
Qed.

(** [int((-n) * x)] is [- int(n * x)]: truncation is toward zero. *)
Lemma num_unique_keys_opp n x w :
  n <> 0 ->
  DataGen.num_unique_keys (- n) x w
    = match DataGen.num_unique_keys n x w with
      | Done u w' => Done (- u) w'
      | r => r
      end.
Proof.
  intros Hn. unfold DataGen.num_unique_keys, int_times_float, bind.
  rewrite float_of_int_opp by done.
  destruct (float_of_int n w) as [y w'|e w'|]; [|done|done].
  unfold ret. rewrite SFmul_opp. apply int_of_float_opp.
Qed.

Lemma num_unique_keys_nonpositive n x :
  - 2 ^ 53 < n <= 0 ->
  valid_binary prec emax x = true -> in_unit_interval x = true ->
  exists u, (forall w, DataGen.num_unique_keys n x w = Done u w) /\ n <= u <= 0.
Proof.
  intros Hn Hv Hx.
  destruct (num_unique_keys_range (- n) x ltac:(lia) Hv Hx) as (u & Hu & Hb).
  destruct (decide (n = 0)) as [->|Hn0].
  { exists u. split; [done|]. lia. }
  exists (- u). split; [|lia]. intros w.
  replace n with (- - n) at 1 by lia.
  rewrite num_unique_keys_opp by lia. by rewrite Hu.
Qed.

(** With a row count of zero or less the key generation of a table
    prints the message and returns, whatever the loop budget. *)
Lemma key_pool_nonpositive fuel t n x w :
  - 2 ^ 53 < n <= 0 ->
  valid_binary prec emax x = true -> in_unit_interval x = true ->
  DataGen.key_pool fuel t n x w =
    Done None (World (w_draws w) (w_pos w) (w_faults w) (w_fs w)
                 (w_out w ++ [MsgNoRows])).
Proof.
  intros Hn Hv Hx.
  destruct (num_unique_keys_nonpositive n x Hn Hv Hx) as (u & Hu & Hb).
  unfold DataGen.key_pool, DataGen.key_pool_parts, bind at 1. unfold bind at 1.
  rewrite Hu. unfold bind at 1. unfold DataGen.unique_key_list, bind at 1.
  assert (DataGen.fill_unique_key_set fuel u (n * 2) ∅ w = Done ∅ w) as ->.
  { destruct fuel; simpl;
      (destruct (decide _) as [Hlt|]; [simpl in Hlt; lia|done]). }
  rewrite elements_empty. destruct (decide (n > 0)); [lia|]. done.
Qed.

Section NonPositiveRows.
Context `{Builtins}.

(** X4, row counts of zero or less in [data_gen.py]: a negative row
    count (above -2^53) passes the argument check and ends the run like
    zero.  When [num_rows_a] or [num_rows_b] is zero or negative,
    [generate_data] ends after ["No rows to generate."] with every file
    as it was; when it is [num_rows_a], no random number was drawn.  With
    a fair random source the run ends. *)
Theorem nonpositive_rows_write_no_file argv a b x w :
  command_line argv a b x -> in_unit_interval x = true ->
  - 2 ^ 53 < a < 2 ^ 53 -> - 2 ^ 53 < b < 2 ^ 53 -> a <= 0 \/ b <= 0 ->
  (forall fuel,
     safe (DataGen.generate_data fuel argv) w (fun _ w' =>
       w_fs w' = w_fs w /\ last (w_out w') = Some MsgNoRows /\
       (a <= 0 -> w_pos w' = w_pos w))) /\
  (fair (w_draws w) -> exists fuel, halts (DataGen.generate_data fuel argv) w).
Proof.
  intros Hcl Hin Ha Hb Hab.
  pose proof (command_line_valid argv a b x Hcl) as Hv.
  destruct (read_arguments_run argv a b x w Hcl Hin) as (w1 & Hread & Hw1).
  set (w2 := World (w_draws w1) (w_pos w1) (w_faults w1) (w_fs w1)
               (w_out w1 ++ [MsgGeneratingKeyPool])).
  assert (forall fuel, DataGen.generate_data fuel argv w =
            match DataGen.key_pool fuel TableA a x w2 with
            | Done (Some keys_a) w3 =>
                match DataGen.key_pool fuel TableB b x w3 with
                | Done (Some keys_b) w4 =>
                    DataGen.run_threads a keys_a b keys_b w4
                | Done None w4 => Done tt w4
                | Raised e w4 => Raised e w4
                | OutOfFuel => OutOfFuel
                end
            | Done None w3 => Done tt w3
            | Raised e w3 => Raised e w3
            | OutOfFuel => OutOfFuel
            end) as Hrun.
  { intros fuel. unfold DataGen.generate_data, DataGen.prepare, DataGen.key_pools, bind.
    rewrite Hread. simpl. fold w2.
    destruct (DataGen.key_pool fuel TableA a x w2) as [[ka|] w3|e w3|]; try done.
    by destruct (DataGen.key_pool fuel TableB b x w3) as [[kb|] w4|e w4|]. }
  assert (w_fs w2 = w_fs w /\ w_pos w2 = w_pos w) as [Hfs2 Hp2].
  { destruct Hw1 as [[_ Hfs1] Hp1]. done. }
  destruct (decide (a <= 0)) as [Ha0|Ha0].
  - assert (forall fuel, DataGen.generate_data fuel argv w =
              Done tt (World (w_draws w2) (w_pos w2) (w_faults w2) (w_fs w2)
                         (w_out w2 ++ [MsgNoRows]))) as Hdone.
    { intros fuel. rewrite Hrun, key_pool_nonpositive by (lia || done). done. }
    split.
    + intros fuel. unfold safe, wp. rewrite Hdone. simpl.
      split; [done|]. split; [by rewrite last_snoc|done].
    + intros _. exists 0%nat. unfold halts. by rewrite Hdone.
  - destruct (unique_count_range a x ltac:(lia) Hv Hin) as (ua & Hua & Huab).
    split.
    + intros fuel. unfold safe, wp. rewrite Hrun.
      pose proof (key_pool_safe fuel TableA a x ua w2 ltac:(lia) ltac:(lia) Hua) as Hs.
      unfold safe, wp in Hs.
      destruct (DataGen.key_pool fuel TableA a x w2) as [[ka|] w3|e w3|];
        [|lia|done|done].
      destruct Hs as (_ & [_ Hfs3] & _).
      rewrite key_pool_nonpositive by (lia || done). simpl.
      split; [by rewrite Hfs3|]. split; [by rewrite last_snoc|lia].
    + intros Hfair.
      destruct (key_pool_halts TableA a x ua w2 ltac:(lia) ltac:(lia) Hua) as [fuel Hh].
      { destruct Hw1 as [[[Hd1 _] _] _]. simpl. by rewrite Hd1. }
      exists fuel. unfold halts in *. rewrite Hrun.
      destruct (DataGen.key_pool fuel TableA a x w2) as [[ka|] w3|e w3|]; try done.
      by rewrite key_pool_nonpositive by (lia || done).
Qed.

End NonPositiveRows.

Lemma command_line_minus_3_4_half :
  command_line ["data_gen.py"; "-3"; "4"; "0.5"] (-3) 4 float_half.
Proof. by eapply CommandLine. Qed.

Lemma nonpositive_rows_write_no_file_witness :
  (forall fuel,
     safe (DataGen.generate_data fuel ["data_gen.py"; "-3"; "4"; "0.5"]) counting_world
       (fun _ w' =>
       w_fs w' = w_fs counting_world /\ last (w_out w') = Some MsgNoRows /\
       (-3 <= 0 -> w_pos w' = w_pos counting_world))) /\
  (fair (w_draws counting_world) ->
   exists fuel,
     halts (DataGen.generate_data fuel ["data_gen.py"; "-3"; "4"; "0.5"]) counting_world).
Proof.
  apply (nonpositive_rows_write_no_file
           ["data_gen.py"; "-3"; "4"; "0.5"] (-3) 4 float_half counting_world);
    [apply command_line_minus_3_4_half|reflexivity|lia|lia|lia].
Defined.

(** * The two ends of the fraction *)

Lemma pool_keys_single n keys :
  0 < n -> pool_keys_ok n 0 keys ->
  exists k, keys = replicate (Z.to_nat n) k /\ 0 <= k <= n * 2.
Proof.
  intros Hn (l & dups & final & Hparts & Hperm & ->).
  assert (0 <= 0 <= n) as H0 by lia.
  pose proof (pool_final_length n 0 l dups final Hn H0 Hparts Hperm) as Hlen.
  destruct Hparts as (_ & Hr & Hl & _ & Hd).
  destruct l as [|k [|k' l]]; simpl in Hl; try lia.
  apply Forall_cons in Hr as [Hr _]. exists k. split; [|exact Hr].
  assert (Forall (eq k) final) as Hall.
  { rewrite Hperm. apply Forall_cons. split; [done|].
    eapply Forall_impl; [exact Hd|]. intros k' Hk'. simpl in Hk'.
    by apply list_elem_of_singleton in Hk'. }
  unfold slice_to. destruct (decide (0 <= n)); [|lia].
  symmetry. apply replicate_as_Forall. split.
  - rewrite length_take. destruct (decide (0 = 0)); [|done]. lia.
  - by apply Forall_take.
Qed.

(** X5, a fraction of 1.0: the key pool of a table with [0 < n < 2^53]
    rows holds [n] keys that are all different.  With a fair random source
    the key generation ends. *)
Theorem fraction_one_all_keys_distinct t n w :
  0 < n < 2 ^ 53 ->
  (forall fuel,
     safe (DataGen.key_pool fuel t n float_one) w (fun r _ =>
       exists keys, r = Some keys /\ NoDup keys /\ Z.of_nat (length keys) = n)) /\
  (fair (w_draws w) -> exists fuel, halts (DataGen.key_pool fuel t n float_one) w).
Proof.
  intros Hn.
  pose proof (num_unique_keys_one n ltac:(lia)) as Hu.
  split.
  - intros fuel. eapply safe_mono; [apply (key_pool_safe fuel t n float_one n); lia || done|].
    intros [keys|] w' Hr; [|lia]. destruct Hr as (_ & _ & Hk).
    exists keys. split; [done|]. split.
    + apply (pool_keys_nodup n); [lia|done].
    + apply (pool_keys_length n n); lia || done.
  - intros Hfair. apply (key_pool_halts t n float_one n); lia || done.
Qed.

Lemma fraction_one_all_keys_distinct_witness :
  (forall fuel,
     safe (DataGen.key_pool fuel TableA 5 float_one) counting_world (fun r _ =>
       exists keys, r = Some keys /\ NoDup keys /\ Z.of_nat (length keys) = 5)) /\
  (fair (w_draws counting_world) ->
   exists fuel, halts (DataGen.key_pool fuel TableA 5 float_one) counting_world).
Proof. apply (fraction_one_all_keys_distinct TableA 5 counting_world). lia. Defined.

(** X6, a fraction of 0.0 (of either sign): the key generation of a
    table with [0 < n < 2^53] rows returns whatever the loop budget, the
    [while] loop is not entered, and the pool is one key from
    [[0, 2 * n]], [n] times. *)
Theorem fraction_zero_one_key t n s fuel w :
  0 < n < 2 ^ 53 ->
  exists k w',
    DataGen.key_pool fuel t n (S754_zero s) w
      = Done (Some (replicate (Z.to_nat n) k)) w' /\
    0 <= k <= 2 * n.
Proof.
  intros Hn.
  pose proof (num_unique_keys_zero n s ltac:(lia)) as Hu.
  pose proof (key_pool_safe fuel t n (S754_zero s) 0 w ltac:(lia) ltac:(lia) Hu) as Hs.
  assert (halts (DataGen.key_pool fuel t n (S754_zero s)) w) as Hh.
  { apply halts_key_pool, halts_key_pool_parts. intros u' w1 Hu'.
    rewrite Hu in Hu'. simplify_eq.
    destruct fuel; simpl;
      (destruct (decide _) as [Hlt|]; [simpl in Hlt; lia|done]). }
  destruct (safe_returns _ _ _ Hs Hh) as ([keys|] & w' & Hrun & Hpost); [|lia].
  destruct Hpost as (_ & _ & Hk).
  destruct (pool_keys_single n keys ltac:(lia) Hk) as (k & -> & Hkr).
  exists k, w'. split; [done|lia].
Qed.

Lemma fraction_zero_one_key_witness :
  exists k w',
    DataGen.key_pool 0 TableB 5 (S754_zero false) counting_world
      = Done (Some (replicate (Z.to_nat 5) k)) w' /\
    0 <= k <= 2 * 5.
Proof. apply (fraction_zero_one_key TableB 5 false 0 counting_world). lia. Defined.

(** * A random source that never delivers a second key *)

Lemma fill_unique_key_set_stuck fuel u kmax c (s : gset Z) w :
  0 <= kmax -> 2 <= u -> s ⊆ {[c]} ->
  (forall i, w_draws w i mod (kmax + 1) = c) ->
  DataGen.fill_unique_key_set fuel u kmax s w = OutOfFuel.
Proof.
  intros Hk Hu. revert s w. induction fuel as [|fuel IH]; intros s w Hs Hd.
  - simpl. destruct (decide _) as [|Hge]; [done|].
    apply subseteq_size in Hs. rewrite size_singleton in Hs. lia.
  - assert (Z.of_nat (size s) < u) as Hlt.
    { apply subseteq_size in Hs. rewrite size_singleton in Hs. lia. }
    rewrite fill_unique_key_set_step by done. apply IH.
    + rewrite Hd. set_solver.
    + done.
Qed.

(** X7, the [while] loop has no bound of its own: when two or more
    unique keys are asked for and the random source delivers the same key
    at every draw, the key generation of the table exhausts every loop
    budget. *)
Theorem key_loop_needs_new_keys t n x u c fuel w :
  0 < n -> unique_count n x u -> 2 <= u ->
  (forall i, w_draws w i mod (n * 2 + 1) = c) ->
  DataGen.key_pool fuel t n x w = OutOfFuel.
Proof.
  intros Hn Hu Hu2 Hd.
  unfold DataGen.key_pool, DataGen.key_pool_parts, bind at 1. unfold bind at 1.
  rewrite Hu. unfold bind at 1. unfold DataGen.unique_key_list, bind at 1.
  by rewrite (fill_unique_key_set_stuck fuel u (n * 2) c ∅ w) by (lia || done).
Qed.

Lemma key_loop_needs_new_keys_witness :
  DataGen.key_pool 1000 TableA 5 float_half constant_world = OutOfFuel.
Proof.
  apply (key_loop_needs_new_keys TableA 5 float_half 2 0 1000 constant_world);
    [lia|intros w; reflexivity|lia|intros i; reflexivity].
Defined.

(** * The pool of [simple_data_gen_int_int.py] is never empty *)

(** X14, the guard [if not key_pool: key_pool.append(0)] is dead code:
    [key_pool_size] is at least 1, the pool is what the list comprehension
    returned, with [key_pool_size] keys. *)
Theorem key_pool_guard_is_dead a b w :
  exists pool w',
    SimpleGen.make_key_pool a b w = Done pool w' /\
    repeat_m (Z.to_nat (SimpleGen.key_pool_size a b))
      (randint 0 (SimpleGen.key_pool_size a b * 5)) w = Done pool w' /\
    Z.of_nat (length pool) = SimpleGen.key_pool_size a b /\
    1 <= SimpleGen.key_pool_size a b.
Proof.
  assert (1 <= SimpleGen.key_pool_size a b) as Hsize.
  { unfold SimpleGen.key_pool_size. lia. }
  set (m := randint 0 (SimpleGen.key_pool_size a b * 5)).
  assert (safe (repeat_m (Z.to_nat (SimpleGen.key_pool_size a b)) m) w
            (fun l w' => length l = Z.to_nat (SimpleGen.key_pool_size a b) /\
                         Forall (fun _ => True) l /\ same_files w w')) as Hs.
  { apply repeat_m_safe. intros w1 _. eapply safe_mono; [apply randint_safe; lia|].
    by intros k w2 [_ ?]. }
  assert (halts (repeat_m (Z.to_nat (SimpleGen.key_pool_size a b)) m) w) as Hh.
  { apply halts_repeat_m. intros w1. apply halts_randint. }
  destruct (safe_returns _ _ _ Hs Hh) as (pool & w' & Hrun & Hlen & _).
  exists pool, w'. split; [|split; [done|split; [lia|done]]].
  unfold SimpleGen.make_key_pool, bind. fold m. rewrite Hrun.
  destruct pool; [simpl in Hlen; lia|done].
Qed.

(** * A key list shorter than the row count *)

Lemma wp_raises {A} (m : M A) w (E : exn -> world -> Prop) :
  wp m w (fun _ _ => False) E -> halts m w ->
  exists e w', m w = Raised e w' /\ E e w'.
Proof. unfold wp, halts. destruct (m w) as [a w'|e w'|]; [done|by eauto|done]. Qed.

Lemma file_keys_appended name l w w' :
  appended name l w w' -> file_keys name w' = file_keys name w ++ [line_key l].
Proof.
  intros [_ Hfs]. unfold file_keys, file_lines at 1. rewrite Hfs, lookup_insert_eq.
  simpl. by rewrite fmap_app.
Qed.

(** The loop of a writer whose key list is too short: the lines of all
    keys are written, then [keys[i]] raises. *)
Lemma short_keys_loop name n keys (body : nat -> M unit) w0 w :
  (length keys < n)%nat ->
  w_faults w0 name = NoFault ->
  same_env w0 w -> w_fs w = <[name := []]> (w_fs w0) ->
  (forall i w1, w_faults w1 name = NoFault ->
     match keys !! i with
     | Some k =>
         wp (body i) w1
           (fun _ w2 => exists l, line_key l = k /\ appended name l w1 w2)
           (fun _ _ => False)
     | None =>
         wp (body i) w1 (fun _ _ => False)
           (fun e w2 => e = IndexError /\ same_files w1 w2)
     end) ->
  wp (for_each (seq 0 n) body) w (fun _ _ => False)
    (fun e w' => e = IndexError /\ same_env w0 w' /\ file_keys name w' = keys).
Proof.
  intros Hlen Hf Henv Hfs Hbody.
  eapply wp_mono.
  - apply (for_each_wp (seq 0 n) body
      (fun pre w1 =>
         (length pre <= length keys)%nat /\ same_env w0 w1 /\
         file_keys name w1 = take (length pre) keys)
      (fun e w' => e = IndexError /\ same_env w0 w' /\ file_keys name w' = keys)).
    + split; [simpl; lia|]. split; [done|].
      unfold file_keys, file_lines. by rewrite Hfs, lookup_insert_eq.
    + intros pre a suf w1 Hseq (Hle & Henv1 & Hkeys).
      destruct (seq_middle _ _ _ _ Hseq) as [-> Hlt].
      assert (w_faults w1 name = NoFault) as Hf1 by (by rewrite (proj2 Henv1)).
      specialize (Hbody (length pre) w1 Hf1).
      destruct (keys !! length pre) as [k|] eqn:Hk.
      * eapply wp_mono; [exact Hbody| |done].
        intros [] w2 (l & Hl & Happ). rewrite length_app. simpl.
        apply lookup_lt_Some in Hk as Hlt'. split; [lia|].
        split; [eapply same_env_trans; [done|apply Happ]|].
        rewrite (file_keys_appended _ _ _ _ Happ), Hkeys, Hl.
        replace (length pre + 1)%nat with (S (length pre)) by lia.
        by rewrite (take_S_r _ _ _ Hk).
      * eapply wp_mono; [exact Hbody|done|].
        intros e w2 (-> & [Henv2 Hfs2]). split; [done|].
        split; [by eapply same_env_trans|].
        apply lookup_ge_None in Hk.
        unfold file_keys, file_lines in *. rewrite Hfs2, Hkeys.
        apply take_ge. lia.
  - intros [] w' (Hle & _). rewrite length_seq in Hle. lia.
  - done.
Qed.

Lemma short_keys_block name n keys (body : nat -> M unit) (handler : exn -> M bool) w :
  (length keys < Z.to_nat n)%nat ->
  w_faults w name = NoFault ->
  (forall i w1, w_faults w1 name = NoFault ->
     match keys !! i with
     | Some k =>
         wp (body i) w1
           (fun _ w2 => exists l, line_key l = k /\ appended name l w1 w2)
           (fun _ _ => False)
     | None =>
         wp (body i) w1 (fun _ _ => False)
           (fun e w2 => e = IndexError /\ same_files w1 w2)
     end) ->
  wp (try_except
        (open_w name ;;; for_each (range n) body ;;; ret true)
        is_io_error handler) w
    (fun _ _ => False)
    (fun e w' => e = IndexError /\ file_keys name w' = keys).
Proof.
  intros Hlen Hf Hbody. apply wp_try_except, wp_bind.
  eapply wp_mono; [apply open_w_wp| |].
  - intros [] w1 [Henv1 Hfs1]. apply wp_bind. eapply wp_mono.
    + by apply (short_keys_loop name (Z.to_nat n) keys body w w1).
    + done.
    + intros e w2 (-> & _ & Hk). done.
  - intros e w1 (_ & _ & Hne). done.
Qed.

(** X8, a key list shorter than the row count: with a file system that
    does not fail, [generate_file_a] and [generate_file_b] raise
    [IndexError] at [keys[i]] for [i = len(keys)], which [except IOError]
    does not catch; by then the file holds one line for every key of the
    list. *)
Theorem writer_short_key_list t n keys w :
  (length keys < Z.to_nat n)%nat -> w_faults w (file_of t) = NoFault ->
  exists w',
    writer t n keys w = Raised IndexError w' /\
    file_keys (file_of t) w' = keys.
Proof.
  intros Hlen Hf.
  assert (wp (writer t n keys) w (fun _ _ => False)
            (fun e w' => e = IndexError /\ file_keys (file_of t) w' = keys)) as Hwp.
  { destruct t; simpl in *.
    - unfold DataGen.generate_file_a. apply wp_bind.
      eapply wp_mono; [apply print_safe| |done]. intros [] w1 [Hw1 _].
      apply wp_bind. eapply wp_mono.
      + apply (short_keys_block "A.txt" n keys).
        * done.
        * by rewrite (proj2 (proj1 (proj1 Hw1))).
        * intros i w2 Hf2. unfold index.
          destruct (keys !! i) as [k|].
          -- apply wp_bind, wp_ret. apply wp_bind.
             eapply wp_mono; [apply randint_safe; lia| |done].
             intros v w3 [_ Hw3]. eapply wp_mono; [apply write_wp| |].
             ++ intros [] w4 [He4 Hfs4]. exists (RowKV k v). split; [done|].
                split; [by eapply same_env_trans; [apply Hw3|]|].
                rewrite Hfs4. unfold file_lines. by rewrite (proj2 Hw3).
             ++ intros e w4 (_ & -> & Hne).
                by rewrite (proj2 (proj1 Hw3)) in Hne.
          -- by apply wp_bind, wp_raise.
      + done.
      + done.
    - unfold DataGen.generate_file_b. apply wp_bind.
      eapply wp_mono; [apply print_safe| |done]. intros [] w1 [Hw1 _].
      apply wp_bind. eapply wp_mono.
      + apply (short_keys_block "B.txt" n keys).
        * done.
        * by rewrite (proj2 (proj1 (proj1 Hw1))).
        * intros i w2 Hf2. unfold index.
          destruct (keys !! i) as [k|].
          -- apply wp_bind, wp_ret. eapply wp_mono; [apply write_wp| |].
             ++ intros [] w4 Happ. by exists (RowK k).
             ++ by intros e w4 (_ & -> & Hne).
          -- by apply wp_bind, wp_raise.
      + done.
      + done. }
  destruct (wp_raises _ _ _ Hwp (halts_writer t n keys w)) as (e & w' & Hrun & -> & Hk).
  by exists w'.
Qed.

Lemma writer_short_key_list_witness :
  exists w',
    writer TableB 3 [7; 8] counting_world = Raised IndexError w' /\
    file_keys (file_of TableB) w' = [7; 8].
Proof.
  apply (writer_short_key_list TableB 3 [7; 8] counting_world); [simpl; lia|reflexivity].
Defined.

(** * The two writers share nothing *)

Lemma wp_ends {A} (m : M A) w (Q : world -> Prop) :
  wp m w (fun _ w' => Q w') (fun _ w' => Q w') -> halts m w ->
  exists w', ends_in m w w' /\ Q w'.
Proof.
  unfold wp, halts, ends_in. destruct (m w) as [a w'|e w'|]; [| |done];
    intros HQ _; exists w'; (split; [|done]); [left|right]; by eexists.
Qed.

Section Keeps.
Variable R : world -> world -> Prop.
Hypothesis R_refl : forall w, R w w.
Hypothesis R_trans : forall w1 w2 w3, R w1 w2 -> R w2 w3 -> R w1 w3.

Lemma keeps_ret {A} (a : A) : keeps R (ret a).
Proof. intros w. by apply wp_ret. Qed.

Lemma keeps_raise {A} e : keeps R (@raise A e).
Proof. intros w. by apply wp_raise. Qed.

Lemma keeps_bind {A B} (m : M A) (k : A -> M B) :
  keeps R m -> (forall a, keeps R (k a)) -> keeps R (bind m k).
Proof.
  intros Hm Hk w. apply wp_bind. eapply wp_mono; [apply Hm| |done].
  intros a w1 Hw1.
  eapply wp_mono; [apply Hk| |]; intros ? w2 Hw2; exact (R_trans _ _ _ Hw1 Hw2).
Qed.

Lemma keeps_try_except {A} (m : M A) handled h :
  keeps R m -> (forall e, keeps R (h e)) -> keeps R (try_except m handled h).
Proof.
  intros Hm Hh w. apply wp_try_except. eapply wp_mono; [apply Hm|done|].
  intros e w1 Hw1. destruct (handled e); [|done].
  eapply wp_mono; [apply Hh| |]; intros ? w2 Hw2; exact (R_trans _ _ _ Hw1 Hw2).
Qed.

Lemma keeps_for_each {A} (l : list A) (body : A -> M unit) :
  (forall a, keeps R (body a)) -> keeps R (for_each l body).
Proof.
  intros Hbody. induction l as [|a l IH]; simpl.
  - apply keeps_ret.
  - apply keeps_bind; [apply Hbody|]. by intros _.
Qed.

End Keeps.

Lemma writes_only_refl name d w : writes_only name d w w.
Proof. by split. Qed.

Lemma writes_only_trans name d w1 w2 w3 :
  writes_only name d w1 w2 -> writes_only name d w2 w3 -> writes_only name d w1 w3.
Proof.
  intros [Ho1 Hp1] [Ho2 Hp2]. split.
  - intros other Hne. by rewrite Ho2, Ho1.
  - intros Hd. by rewrite Hp2, Hp1.
Qed.

Lemma keeps_print name d m : keeps (writes_only name d) (print m).
Proof. intros w. split; [by intros other _|done]. Qed.

Lemma keeps_open_w name d : keeps (writes_only name d) (open_w name).
Proof.
  intros w. unfold wp, open_w. destruct (w_faults w name);
    try apply writes_only_refl;
    (split; [intros other Hne; simpl; by rewrite lookup_insert_ne|done]).
Qed.

Lemma keeps_write name d l : keeps (writes_only name d) (write name l).
Proof.
  intros w. unfold wp, write. cbv zeta.
  destruct (w_faults w name); [| |destruct (decide _)];
    try apply writes_only_refl;
    (split; [intros other Hne; simpl; by rewrite lookup_insert_ne|done]).
Qed.

Lemma keeps_index name d keys i : keeps (writes_only name d) (index keys i).
Proof.
  unfold index. destruct (keys !! i);
    [apply keeps_ret|apply keeps_raise]; apply writes_only_refl.
Qed.

(** Drawing a number moves the random cursor and nothing else. *)
Lemma keeps_randint name a b : keeps (writes_only name true) (randint a b).
Proof.
  intros w. unfold wp, randint. destruct (decide (b < a)); simpl;
    (split; [by intros other _|done]).
Qed.

(** X9, the two writers share nothing: whatever its arguments and the
    file system, [generate_file_a] ends (by a return or an exception)
    with every file but [A.txt] as it was, and [generate_file_b] ends with
    every file but [B.txt] as it was and without a random number drawn. *)
Theorem writers_share_nothing n keys w :
  exists wa wb,
    ends_in (DataGen.generate_file_a n keys) w wa /\ only_file "A.txt" w wa /\
    ends_in (DataGen.generate_file_b n keys) w wb /\ only_file "B.txt" w wb /\
    w_pos wb = w_pos w.
Proof.
  assert (keeps (writes_only "A.txt" true) (DataGen.generate_file_a n keys)) as Ha.
  { pose proof (writes_only_refl "A.txt" true) as Hr.
    pose proof (writes_only_trans "A.txt" true) as Ht.
    unfold DataGen.generate_file_a.
    repeat first
      [ apply keeps_print | apply keeps_open_w | apply keeps_write
      | apply keeps_index | apply keeps_randint
      | apply keeps_ret; exact Hr
      | apply keeps_for_each; [exact Hr|exact Ht|intros ?]
      | apply keeps_try_except; [exact Ht| |intros ?]
      | apply keeps_bind; [exact Ht| |intros ?]
      | match goal with |- keeps _ (if ?b then _ else _) => destruct b end ]. }
  assert (keeps (writes_only "B.txt" false) (DataGen.generate_file_b n keys)) as Hb.
  { pose proof (writes_only_refl "B.txt" false) as Hr.
    pose proof (writes_only_trans "B.txt" false) as Ht.
    unfold DataGen.generate_file_b.
    repeat first
      [ apply keeps_print | apply keeps_open_w | apply keeps_write
      | apply keeps_index
      | apply keeps_ret; exact Hr
      | apply keeps_for_each; [exact Hr|exact Ht|intros ?]
      | apply keeps_try_except; [exact Ht| |intros ?]
      | apply keeps_bind; [exact Ht| |intros ?]
      | match goal with |- keeps _ (if ?b then _ else _) => destruct b end ]. }
  destruct (wp_ends _ _ _ (Ha w) (halts_generate_file_a n keys w)) as (wa & Hea & Hoa & _).
  destruct (wp_ends _ _ _ (Hb w) (halts_generate_file_b n keys w)) as (wb & Heb & Hob & Hpb).
  exists wa, wb. split; [done|]. split; [done|]. split; [done|]. split; [done|].
  by apply Hpb.
Qed.

(** * The range check on the fraction *)

(** X10, what [0.0 <= uniqueness_percent <= 1.0] lets through: a binary64
    value that passes is a zero of either sign, or positive and finite,
    [m * 2^e] with [e <= 0] and [m <= 2^(-e)], that is, at most 1; a NaN,
    an infinity or a negative number does not pass. *)
Theorem range_check_accepts x :
  valid_binary prec emax x = true -> in_unit_interval x = true ->
  match x with
  | S754_zero _ => True
  | S754_finite false m e => e <= 0 /\ Z.pos m <= 2 ^ (- e)
  | _ => False
  end.
Proof.
  intros Hv Hx.
  by destruct (in_unit_interval_inv x Hv Hx) as [[s ->]|(m & e & -> & He & Hm)].
Qed.

Lemma range_check_accepts_witness :
  -53 <= 0 /\ Z.pos 8106479329266893 <= 2 ^ (- -53).
Proof. apply (range_check_accepts float_0_9); reflexivity. Defined.

(** * What the scripts report *)

Lemma same_out_refl w : same_out w w.
Proof. done. Qed.

Lemma same_out_trans w1 w2 w3 : same_out w1 w2 -> same_out w2 w3 -> same_out w1 w3.
Proof. unfold same_out. by intros <- <-. Qed.

Lemma quiet_open_w name : keeps same_out (open_w name).
Proof. intros w. unfold wp, open_w. by destruct (w_faults w name). Qed.

Lemma quiet_write name l : keeps same_out (write name l).
Proof.
  intros w. unfold wp, write. cbv zeta.
  destruct (w_faults w name); [| |destruct (decide _)]; done.
Qed.

Lemma quiet_index keys i : keeps same_out (index keys i).
Proof. intros w. unfold wp, index. by destruct (keys !! i). Qed.

Lemma quiet_randint a b : keeps same_out (randint a b).
Proof. intros w. unfold wp, randint. by destruct (decide (b < a)). Qed.

Lemma quiet_choice l : keeps same_out (choice l).
Proof. intros w. unfold wp, choice. by destruct l. Qed.

Lemma quiet_repeat_m {A} n (m : M A) : keeps same_out m -> keeps same_out (repeat_m n m).
Proof.
  intros Hm. induction n as [|n IH]; simpl.
  - by apply keeps_ret.
  - apply keeps_bind; [apply same_out_trans|done|]. intros a.
    apply keeps_bind; [apply same_out_trans|done|]. intros l.
    by apply keeps_ret.
Qed.

(** The writer block prints the message of its handler, and only when
    the handler runs. *)
Lemma write_block_out name n (body : nat -> M unit) (m : message) w :
  (forall i, keeps same_out (body i)) ->
  wp (try_except
        (open_w name ;;; for_each (range n) body ;;; ret true)
        is_io_error (fun _ => print m ;;; ret false)) w
    (fun ok w' => w_out w' = w_out w ++ (if ok : bool then [] else [m]))
    (fun _ w' => w_out w' = w_out w).
Proof.
  intros Hbody. apply wp_try_except.
  assert (wp (open_w name ;;; for_each (range n) body ;;; ret true) w
            (fun ok w' => ok = true /\ same_out w w')
            (fun _ w' => same_out w w')) as Hwp.
  { apply wp_bind. eapply wp_mono; [apply quiet_open_w| |done].
    intros [] w1 Hw1. apply wp_bind. eapply wp_mono.
    - apply (keeps_for_each same_out same_out_refl same_out_trans); exact Hbody.
    - intros [] w2 Hw2. apply wp_ret. split; [done|]. by eapply same_out_trans.
    - intros e w2 Hw2. by eapply same_out_trans. }
  eapply wp_mono; [exact Hwp| |].
  - intros ok w' [-> Hw']. by rewrite app_nil_r.
  - intros e w' Hw'. destruct (is_io_error e); [|done].
    unfold wp, bind, print, ret. simpl. by rewrite Hw'.
Qed.

(** The two facts about one writer block, together. *)
Lemma write_block_report name P n (body : nat -> M unit) (m : message) w :
  (forall i w1, (i < Z.to_nat n)%nat ->
     wp (body i) w1
       (fun _ w2 =>
          w_faults w1 name <> WriteFails (length (file_lines name w1)) /\
          exists l, P i l /\ appended name l w1 w2)
       (fun e w2 =>
          e = IOError /\ same_files w1 w2 /\
          w_faults w1 name = WriteFails (length (file_lines name w1)))) ->
  (forall i, keeps same_out (body i)) ->
  safe (try_except
          (open_w name ;;; for_each (range n) body ;;; ret true)
          is_io_error (fun _ => print m ;;; ret false)) w
    (fun ok w' =>
       ok = negb (fault_hits (w_faults w name) (Z.to_nat n)) /\
       file_after name P (Z.to_nat n) w w' /\
       w_out w' = w_out w ++ (if ok then [] else [m])).
Proof.
  intros Hbody Hquiet. eapply wp_mono.
  - apply wp_and.
    + apply (write_block_exact name P n body (print m ;;; ret false) w Hbody).
      intros w1. apply handler_safe.
    + by apply (write_block_out name n body m w).
  - intros ok w' [[Hok Hfile] Hout]. done.
  - by intros e w' [[] _].
Qed.

(** A writer thread under a fault plan: what it prints and what it
    leaves behind. *)
Lemma writer_report_exact t n keys w :
  (Z.to_nat n <= length keys)%nat ->
  exists w',
    writer t n keys w = Done tt w' /\
    w_out w' = w_out w ++
      writer_report t (fault_hits (w_faults w (file_of t)) (Z.to_nat n)) /\
    file_after (file_of t) (row_of t keys) (Z.to_nat n) w w'.
Proof.
  intros Hn.
  assert (safe (writer t n keys) w (fun _ w' =>
    w_out w' = w_out w ++
      writer_report t (fault_hits (w_faults w (file_of t)) (Z.to_nat n)) /\
    file_after (file_of t) (row_of t keys) (Z.to_nat n) w w')) as Hs.
  { destruct t; simpl.
    - unfold DataGen.generate_file_a.
      apply safe_bind. eapply safe_mono; [apply print_safe|].
      intros [] w1 [Hw1 Ho1]. apply safe_bind. eapply safe_mono.
      + apply (write_block_report "A.txt" (row_a keys) n _ (MsgThreadIOError TableA)).
        * intros i w2 Hi.
          destruct (lookup_lt_is_Some_2 keys i ltac:(lia)) as [k Hk].
          apply wp_bind. unfold index. rewrite Hk. apply wp_ret.
          apply wp_bind. eapply wp_mono; [apply randint_safe; lia| |done].
          intros v w3 [Hv Hw3].
          apply (row_body_exact "A.txt" (row_a keys i)); [done|by exists k, v].
        * intros i. apply keeps_bind; [apply same_out_trans|apply quiet_index|].
          intros k. apply keeps_bind; [apply same_out_trans|apply quiet_randint|].
          intros v. apply quiet_write.
      + intros ok w2 (-> & Hfile & Ho2).
        assert (w_faults w1 "A.txt" = w_faults w "A.txt") as Hf1.
        { by rewrite (proj2 (proj1 (proj1 Hw1))). }
        rewrite Hf1 in Ho2 |- *. unfold writer_report.
        destruct (fault_hits (w_faults w "A.txt") (Z.to_nat n)); simpl in *.
        * apply safe_ret. split; [by rewrite Ho2, Ho1, <- app_assoc|].
          eapply (file_after_frame "A.txt"); [exact Hw1|exact Hfile|apply same_state_refl].
        * eapply safe_mono; [apply print_safe|]. intros [] w3 [Hw3 Ho3].
          split; [by rewrite Ho3, Ho2, Ho1, app_nil_r, <- app_assoc|].
          by eapply (file_after_frame "A.txt").
    - unfold DataGen.generate_file_b.
      apply safe_bind. eapply safe_mono; [apply print_safe|].
      intros [] w1 [Hw1 Ho1]. apply safe_bind. eapply safe_mono.
      + apply (write_block_report "B.txt" (row_b keys) n _ (MsgThreadIOError TableB)).
        * intros i w2 Hi.
          destruct (lookup_lt_is_Some_2 keys i ltac:(lia)) as [k Hk].
          apply wp_bind. unfold index. rewrite Hk. apply wp_ret.
          apply (row_body_exact "B.txt" (row_b keys i)); [done|by exists k].
        * intros i. apply keeps_bind; [apply same_out_trans|apply quiet_index|].
          intros k. apply quiet_write.
      + intros ok w2 (-> & Hfile & Ho2).
        assert (w_faults w1 "B.txt" = w_faults w "B.txt") as Hf1.
        { by rewrite (proj2 (proj1 (proj1 Hw1))). }
        rewrite Hf1 in Ho2 |- *. unfold writer_report.
        destruct (fault_hits (w_faults w "B.txt") (Z.to_nat n)); simpl in *.
        * apply safe_ret. split; [by rewrite Ho2, Ho1, <- app_assoc|].
          eapply (file_after_frame "B.txt"); [exact Hw1|exact Hfile|apply same_state_refl].
        * eapply safe_mono; [apply print_safe|]. intros [] w3 [Hw3 Ho3].
          split; [by rewrite Ho3, Ho2, Ho1, app_nil_r, <- app_assoc|].
          by eapply (file_after_frame "B.txt"). }
  destruct (safe_returns _ _ _ Hs (halts_writer t n keys w)) as ([] & w' & Hrun & Hw).
  by exists w'.
Qed.

(** X16, a writer thread reports what it did: called with a key list of
    at least [num_rows] keys, [generate_file_a] and [generate_file_b]
    return without an exception, having printed the start message and
    then exactly one more message, the error message or the success
    message, and having touched no file but their own.  When the success
    message was printed the file was written in full: [num_rows] lines,
    line [i] made of [keys[i]]; and it is the success message that is
    printed when the file system does not fail on that file. *)
Theorem writer_reports_what_it_did t n keys w :
  (Z.to_nat n <= length keys)%nat ->
  exists failed w',
    writer t n keys w = Done tt w' /\
    w_out w' = w_out w ++ writer_report t failed /\
    (forall other, other <> file_of t -> w_fs w' !! other = w_fs w !! other) /\
    (failed = false -> file_complete (file_of t) (row_of t keys) (Z.to_nat n) w') /\
    (w_faults w (file_of t) = NoFault -> failed = false).
Proof.
  intros Hn.
  destruct (writer_report_exact t n keys w Hn) as (w' & Hrun & Hout & _ & Ho & Hfile).
  exists (fault_hits (w_faults w (file_of t)) (Z.to_nat n)), w'.
  split; [done|]. split; [done|]. split; [done|]. split.
  - intros Hf. by eapply table_after_complete.
  - by intros ->.
Qed.

Lemma writer_reports_what_it_did_witness :
  exists failed w',
    writer TableA 3 [7; 8; 9] short_a_world = Done tt w' /\
    w_out w' = w_out short_a_world ++ writer_report TableA failed /\
    (forall other, other <> file_of TableA ->
       w_fs w' !! other = w_fs short_a_world !! other) /\
    (failed = false ->
     file_complete (file_of TableA) (row_of TableA [7; 8; 9]) (Z.to_nat 3) w') /\
    (w_faults short_a_world (file_of TableA) = NoFault -> failed = false).
Proof.
  apply (writer_reports_what_it_did TableA 3 [7; 8; 9] short_a_world). simpl. lia.
Defined.

(** ** The two simpler scripts *)

Lemma random_write_a_report n w :
  safe (RandomGen.write_a n) w (fun ok w' =>
    ok = negb (fault_hits (w_faults w "A.txt") (Z.to_nat n)) /\
    w_out w' = w_out w ++
      MsgGeneratingFile TableA :: (if ok then [] else [MsgErrorWriting TableA])).
Proof.
  unfold RandomGen.write_a.
  apply safe_bind. eapply safe_mono; [apply print_safe|].
  intros [] w1 [Hw1 Ho1]. eapply safe_mono.
  - apply (write_block_report "A.txt" (fun _ => random_row_a) n _ (MsgErrorWriting TableA)).
    + intros i w2 Hi.
      apply wp_bind. eapply wp_mono; [apply randint_safe; done| |done].
      intros k w3 [Hk Hw3].
      apply wp_bind. eapply wp_mono; [apply randint_safe; done| |done].
      intros v w4 [Hv Hw4].
      apply row_body_exact; [by eapply same_files_trans|by exists k, v].
    + intros i. apply keeps_bind; [apply same_out_trans|apply quiet_randint|].
      intros k. apply keeps_bind; [apply same_out_trans|apply quiet_randint|].
      intros v. apply quiet_write.
  - intros ok w2 (-> & _ & Ho2). split.
    + by rewrite (proj2 (proj1 (proj1 Hw1))).
    + by rewrite Ho2, Ho1, <- app_assoc.
Qed.

Lemma random_write_b_report n w :
  safe (RandomGen.write_b n) w (fun ok w' =>
    ok = negb (fault_hits (w_faults w "B.txt") (Z.to_nat n)) /\
    w_out w' = w_out w ++
      MsgGeneratingFile TableB :: (if ok then [] else [MsgErrorWriting TableB])).
Proof.
  unfold RandomGen.write_b.
  apply safe_bind. eapply safe_mono; [apply print_safe|].
  intros [] w1 [Hw1 Ho1]. eapply safe_mono.
  - apply (write_block_report "B.txt" (fun _ => random_row_b) n _ (MsgErrorWriting TableB)).
    + intros i w2 Hi.
      apply wp_bind. eapply wp_mono; [apply randint_safe; done| |done].
      intros k w3 [Hk Hw3].
      apply row_body_exact; [done|by exists k].
    + intros i. apply keeps_bind; [apply same_out_trans|apply quiet_randint|].
      intros k. apply quiet_write.
  - intros ok w2 (-> & _ & Ho2). split.
    + by rewrite (proj2 (proj1 (proj1 Hw1))).
    + by rewrite Ho2, Ho1, <- app_assoc.
Qed.

Lemma simple_write_a_report n pool w :
  pool <> [] ->
  safe (SimpleGen.write_a n pool) w (fun ok w' =>
    ok = negb (fault_hits (w_faults w "A.txt") (Z.to_nat n)) /\
    w_out w' = w_out w ++
      MsgGeneratingFile TableA :: (if ok then [] else [MsgErrorWriting TableA])).
Proof.
  intros Hpool. unfold SimpleGen.write_a.
  apply safe_bind. eapply safe_mono; [apply print_safe|].
  intros [] w1 [Hw1 Ho1]. eapply safe_mono.
  - apply (write_block_report "A.txt" (fun _ => simple_row_a pool) n _
             (MsgErrorWriting TableA)).
    + intros i w2 Hi.
      apply wp_bind. eapply wp_mono; [by apply choice_safe| |done].
      intros k w3 [Hk Hw3].
      apply wp_bind. eapply wp_mono; [apply randint_safe; lia| |done].
      intros v w4 [Hv Hw4].
      apply row_body_exact; [by eapply same_files_trans|by exists k, v].
    + intros i. apply keeps_bind; [apply same_out_trans|apply quiet_choice|].
      intros k. apply keeps_bind; [apply same_out_trans|apply quiet_randint|].
      intros v. apply quiet_write.
  - intros ok w2 (-> & _ & Ho2). split.
    + by rewrite (proj2 (proj1 (proj1 Hw1))).
    + by rewrite Ho2, Ho1, <- app_assoc.
Qed.

Lemma simple_write_b_report n pool w :
  pool <> [] ->
  safe (SimpleGen.write_b n pool) w (fun ok w' =>
    ok = negb (fault_hits (w_faults w "B.txt") (Z.to_nat n)) /\
    w_out w' = w_out w ++
      MsgGeneratingFile TableB :: (if ok then [] else [MsgErrorWriting TableB])).
Proof.
  intros Hpool. unfold SimpleGen.write_b.
  apply safe_bind. eapply safe_mono; [apply print_safe|].
  intros [] w1 [Hw1 Ho1]. eapply safe_mono.
  - apply (write_block_report "B.txt" (fun _ => simple_row_b pool) n _
             (MsgErrorWriting TableB)).
    + intros i w2 Hi.
      apply wp_bind. eapply wp_mono; [by apply choice_safe| |done].
      intros k w3 [Hk Hw3].
      apply row_body_exact; [done|by exists k].
    + intros i. apply keeps_bind; [apply same_out_trans|apply quiet_choice|].
      intros k. apply quiet_write.
  - intros ok w2 (-> & _ & Ho2). split.
    + by rewrite (proj2 (proj1 (proj1 Hw1))).
    + by rewrite Ho2, Ho1, <- app_assoc.
Qed.

Lemma two_writers_report (wa wb : M bool) na nb w :
  (forall w1, safe wa w1 (fun ok w2 =>
     ok = negb (fault_hits (w_faults w1 "A.txt") na) /\
     w_out w2 = w_out w1 ++
       MsgGeneratingFile TableA :: (if ok then [] else [MsgErrorWriting TableA]))) ->
  (forall w1, safe wb w1 (fun ok w2 =>
     ok = negb (fault_hits (w_faults w1 "B.txt") nb) /\
     w_out w2 = w_out w1 ++
       MsgGeneratingFile TableB :: (if ok then [] else [MsgErrorWriting TableB]))) ->
  (forall w1, wp wa w1 (fun _ w2 => w_faults w2 = w_faults w1) (fun _ _ => True)) ->
  safe (written_a <- wa ;;
        if written_a : bool then
          print (MsgFileCreated TableA) ;;;
          written_b <- wb ;;
          if written_b : bool then print (MsgFileCreated TableB) else ret tt
        else ret tt) w
    (fun _ w' =>
       w_out w' = w_out w ++
         variant_report (fault_hits (w_faults w "A.txt") na)
                        (fault_hits (w_faults w "B.txt") nb)).
Proof.
  intros Ha Hb Hfa. apply safe_bind.
  eapply wp_mono; [apply wp_and; [apply Ha|apply Hfa]| |by intros e w' [[] _]].
  intros oka w1 [[-> Ho1] Hf1]. unfold variant_report.
  destruct (fault_hits (w_faults w "A.txt") na); simpl in Ho1; cbn [negb].
  - by apply safe_ret.
  - apply safe_bind. eapply safe_mono; [apply print_safe|].
    intros [] w2 [Hw2 Ho2]. apply safe_bind. eapply safe_mono; [apply Hb|].
    intros okb w3 [-> Ho3].
    assert (w_faults w2 = w_faults w) as Hf2.
    { by rewrite (proj2 (proj1 (proj1 Hw2))), Hf1. }
    rewrite Hf2, Ho2, Ho1 in Ho3. rewrite Hf2.
    destruct (fault_hits (w_faults w "B.txt") nb); simpl in Ho3; cbn [negb].
    + apply safe_ret. rewrite Ho3, <- !app_assoc. done.
    + eapply safe_mono; [apply print_safe|]. intros [] w4 [_ Ho4].
      rewrite Ho4, Ho3, <- !app_assoc. done.
Qed.

Section VariantReports.
Context `{Builtins}.

Lemma read_num_rows_report script args w :
  exists w1 w2,
    RandomGen.read_num_rows_a (script :: args) w
      = Done (rows_used (script :: args) 1) w1 /\
    RandomGen.read_num_rows_b (script :: args) w1
      = Done (rows_used (script :: args) 2) w2 /\
    same_files w w2 /\ w_pos w2 = w_pos w /\
    w_out w2 = w_out w ++ rows_report script args.
Proof.
  unfold RandomGen.read_num_rows_a, RandomGen.read_num_rows_b, rows_report,
    rows_used, rows_given, try_except, int_arg, argv_get, bind.
  destruct args as [|sa [|sb rest]]; simpl;
    repeat match goal with |- context [py_int ?s] => destruct (py_int s); simpl end;
    eexists _, _; (split; [reflexivity|]); (split; [reflexivity|]); simpl;
    (split; [done|]); (split; [done|]); by rewrite <- ?app_assoc.
Qed.

Lemma quiet_make_key_pool a b : keeps same_out (SimpleGen.make_key_pool a b).
Proof.
  unfold SimpleGen.make_key_pool.
  apply keeps_bind; [apply same_out_trans|apply quiet_repeat_m, quiet_randint|].
  intros [|k pool]; by apply keeps_ret.
Qed.

(** X17, the console of the two simpler scripts: on the same command
    line and file system both print the same messages.  First the lines
    of the two row counts (the count from the command line, or else the
    usage line and the default for table A, the default alone for table
    B), then ["Generating A.txt..."], followed by the error message and
    nothing more when the writer of [A.txt] failed, otherwise by the
    success line of [A.txt], ["Generating B.txt..."] and the error or the
    success line of [B.txt]. *)
Theorem variants_report_what_they_did script args w :
  exists wr ws,
    RandomGen.generate_data (script :: args) w = Done tt wr /\
    SimpleGen.generate_data (script :: args) w = Done tt ws /\
    forall w', w' = wr \/ w' = ws ->
      w_out w' = w_out w ++ rows_report script args ++
        variant_report
          (fault_hits (w_faults w "A.txt") (Z.to_nat (rows_used (script :: args) 1)))
          (fault_hits (w_faults w "B.txt") (Z.to_nat (rows_used (script :: args) 2))).
Proof.
  destruct (read_num_rows_report script args w)
    as (w1 & w2 & Hra & Hrb & [[_ Hf2] _] & _ & Ho2).
  set (a := rows_used (script :: args) 1) in *.
  set (b := rows_used (script :: args) 2) in *.
  assert (exists wr, RandomGen.generate_data (script :: args) w = Done tt wr /\
            w_out wr = w_out w2 ++
              variant_report (fault_hits (w_faults w2 "A.txt") (Z.to_nat a))
                             (fault_hits (w_faults w2 "B.txt") (Z.to_nat b)))
    as (wr & Hr & Hor).
  { pose proof (two_writers_report (RandomGen.write_a a) (RandomGen.write_b b) _ _ w2
      (random_write_a_report a) (random_write_b_report b)) as Hs.
    pose proof (halts_two_writers (RandomGen.write_a a) (RandomGen.write_b b) w2
      (halts_random_write_a _) (halts_random_write_b _)) as Hh.
    destruct (safe_returns _ _ _ (Hs ltac:(
        intros w3; eapply wp_mono; [apply random_write_a_exact| |done];
        intros ok w4 (_ & He & _); apply He)) Hh) as ([] & wr & Hrun & Hwr).
    exists wr. split; [|done].
    unfold RandomGen.generate_data, bind at 1. fold a. rewrite Hra.
    unfold bind at 1. fold b. rewrite Hrb. exact Hrun. }
  assert (exists ws, SimpleGen.generate_data (script :: args) w = Done tt ws /\
            w_out ws = w_out w2 ++
              variant_report (fault_hits (w_faults w2 "A.txt") (Z.to_nat a))
                             (fault_hits (w_faults w2 "B.txt") (Z.to_nat b)))
    as (ws & Hs & Hos).
  { pose proof (wp_and _ _ _ _ _ _ (make_key_pool_safe a b w2) (quiet_make_key_pool a b w2))
      as Hpool.
    destruct (safe_returns (SimpleGen.make_key_pool a b) w2
                (fun pool w3 => (same_files w2 w3 /\ pool <> []) /\ same_out w2 w3))
      as (pool & w3 & Hp & [[[_ Hf3] _] Hne] & Ho3).
    { eapply wp_mono; [exact Hpool| |by intros e w' [[] _]].
      intros pool w3 [(Hw3 & Hlen & _) Ho3]. split; [|done]. split; [done|].
      intros ->. simpl in Hlen. lia. }
    { apply halts_make_key_pool. }
    pose proof (two_writers_report (SimpleGen.write_a a pool) (SimpleGen.write_b b pool)
      _ _ w3 (fun w1 => simple_write_a_report a pool w1 Hne)
      (fun w1 => simple_write_b_report b pool w1 Hne)) as Hsafe.
    pose proof (halts_two_writers (SimpleGen.write_a a pool) (SimpleGen.write_b b pool) w3
      (halts_simple_write_a _ _) (halts_simple_write_b _ _)) as Hh.
    destruct (safe_returns _ _ _ (Hsafe ltac:(
        intros w4; eapply wp_mono; [by apply simple_write_a_exact| |done];
        intros ok w5 (_ & He & _); apply He)) Hh) as ([] & ws & Hrun & Hws).
    exists ws. split.
    - unfold SimpleGen.generate_data, bind at 1. fold a. rewrite Hra.
      unfold bind at 1. fold b. rewrite Hrb. unfold bind at 1. rewrite Hp. exact Hrun.
    - rewrite Hws, Ho3, Hf3. done. }
  exists wr, ws. split; [done|]. split; [done|].
  rewrite Hf2 in Hor, Hos. rewrite Ho2, <- app_assoc in Hor, Hos.
  by intros w' [->| ->].
Qed.

End VariantReports.

(** * The two simpler scripts: files and console together *)

Lemma two_writers_reported (wa wb : M bool) (PA PB : line -> Prop) na nb w w' :
  (forall w1, safe wa w1 (fun ok w2 =>
     ok = negb (fault_hits (w_faults w1 "A.txt") na) /\
     file_after "A.txt" (fun _ => PA) na w1 w2)) ->
  (forall w1, safe wb w1 (fun ok w2 =>
     ok = negb (fault_hits (w_faults w1 "B.txt") nb) /\
     file_after "B.txt" (fun _ => PB) nb w1 w2)) ->
  (forall w1, safe wa w1 (fun ok w2 =>
     ok = negb (fault_hits (w_faults w1 "A.txt") na) /\
     w_out w2 = w_out w1 ++
       MsgGeneratingFile TableA :: (if ok then [] else [MsgErrorWriting TableA]))) ->
  (forall w1, safe wb w1 (fun ok w2 =>
     ok = negb (fault_hits (w_faults w1 "B.txt") nb) /\
     w_out w2 = w_out w1 ++
       MsgGeneratingFile TableB :: (if ok then [] else [MsgErrorWriting TableB]))) ->
  (written_a <- wa ;;
   if written_a : bool then
     print (MsgFileCreated TableA) ;;;
     written_b <- wb ;;
     if written_b : bool then print (MsgFileCreated TableB) else ret tt
   else ret tt) w = Done tt w' ->
  w_out w' = w_out w ++
    variant_report (fault_hits (w_faults w "A.txt") na)
                   (fault_hits (w_faults w "B.txt") nb) /\
  tables_reported PA PB na nb
    (fault_hits (w_faults w "A.txt") na) (fault_hits (w_faults w "B.txt") nb) w w'.
Proof.
  intros Hea Heb Hra Hrb Hrun.
  pose proof (safe_done _ _ _ _ _ (two_writers_exact wa wb PA PB na nb w Hea Heb) Hrun)
    as (Ho & HA & HB).
  assert (forall w1, wp wa w1 (fun _ w2 => w_faults w2 = w_faults w1) (fun _ _ => True))
    as Hfa.
  { intros w1. eapply wp_mono; [apply Hea| |done]. intros ok w2 (_ & He & _). apply He. }
  pose proof (safe_done _ _ _ _ _ (two_writers_report wa wb na nb w Hra Hrb Hfa) Hrun)
    as Hout.
  split; [done|]. split; [done|]. split; [|split; [|split; [|split]]].
  - intros Hf. by eapply table_after_complete.
  - intros Hf. by rewrite Hf in HB.
  - intros Hf HfB. rewrite Hf in HB. by eapply table_after_complete.
  - by intros ->.
  - by intros ->.
Qed.

Section VariantFiles.
Context `{Builtins}.

(** X11, [random_data_gen_int_int.py] on any file system: the run
    returns without an exception and touches no file but [A.txt] and
    [B.txt].  The console tells what was done: after the lines of the two
    row counts come the messages of the two writer blocks.  When [A.txt]
    is reported as created it holds [num_rows_a] lines [k,v] with [k] and
    [v] 32-bit signed integers, and when [B.txt] is reported as created
    too it holds [num_rows_b] lines [k]; when the error of [A.txt] is
    reported [B.txt] is left as it was; no error is reported for a file on
    which the file system does not fail. *)
Theorem random_generate_data_files script args w :
  exists failed_a failed_b w',
    RandomGen.generate_data (script :: args) w = Done tt w' /\
    w_out w' = w_out w ++ rows_report script args ++
      variant_report failed_a failed_b /\
    tables_reported random_row_a random_row_b
      (Z.to_nat (rows_used (script :: args) 1))
      (Z.to_nat (rows_used (script :: args) 2)) failed_a failed_b w w'.
Proof.
  destruct (read_num_rows_report script args w)
    as (w1 & w2 & Hra & Hrb & [[_ Hf2] Hfs2] & _ & Ho2).
  set (a := rows_used (script :: args) 1) in *.
  set (b := rows_used (script :: args) 2) in *.
  pose proof (two_writers_exact (RandomGen.write_a a) (RandomGen.write_b b)
    random_row_a random_row_b _ _ w2
    (random_write_a_exact _) (random_write_b_exact _)) as Hs.
  pose proof (halts_two_writers (RandomGen.write_a a) (RandomGen.write_b b) w2
    (halts_random_write_a _) (halts_random_write_b _)) as Hh.
  destruct (safe_returns _ _ _ Hs Hh) as ([] & w' & Hrun & _).
  destruct (two_writers_reported (RandomGen.write_a a) (RandomGen.write_b b)
    random_row_a random_row_b _ _ w2 w'
    (random_write_a_exact _) (random_write_b_exact _)
    (random_write_a_report _) (random_write_b_report _) Hrun) as [Hout Hfiles].
  exists (fault_hits (w_faults w "A.txt") (Z.to_nat a)),
         (fault_hits (w_faults w "B.txt") (Z.to_nat b)), w'.
  split; [|split].
  - unfold RandomGen.generate_data, bind at 1. fold a. rewrite Hra.
    unfold bind at 1. fold b. rewrite Hrb. exact Hrun.
  - by rewrite Hout, Ho2, Hf2, <- app_assoc.
  - unfold tables_reported in *. by rewrite <- Hfs2, <- Hf2.
Qed.

(** X12, [simple_data_gen_int_int.py] on any file system: the run reads
    the two row counts, [make_key_pool] returns a list of
    [max(1, (num_rows_a + num_rows_b) // 20)] keys from
    [[0, 5 * key_pool_size]], and [write_tables] writes from that list;
    the run returns without an exception and touches no file but [A.txt]
    and [B.txt].  The console tells what was done: when [A.txt] is
    reported as created it holds [num_rows_a] lines [k,v] with [k] from
    the list and [v] in [[1, 100]], and when [B.txt] is reported as
    created too it holds [num_rows_b] lines [k], [k] from the same list;
    when the error of [A.txt] is reported [B.txt] is left as it was; no
    error is reported for a file on which the file system does not fail. *)
Theorem simple_generate_data_files script args w :
  exists w1 w2 pool w3 failed_a failed_b w',
    RandomGen.read_num_rows_a (script :: args) w
      = Done (rows_used (script :: args) 1) w1 /\
    RandomGen.read_num_rows_b (script :: args) w1
      = Done (rows_used (script :: args) 2) w2 /\
    SimpleGen.make_key_pool (rows_used (script :: args) 1) (rows_used (script :: args) 2) w2
      = Done pool w3 /\
    SimpleGen.write_tables (rows_used (script :: args) 1) (rows_used (script :: args) 2)
      pool w3 = Done tt w' /\
    SimpleGen.generate_data (script :: args) w = Done tt w' /\
    Z.of_nat (length pool) =
      SimpleGen.key_pool_size (rows_used (script :: args) 1) (rows_used (script :: args) 2) /\
    Forall (fun k => 0 <= k <= 5 * Z.of_nat (length pool)) pool /\
    w_out w' = w_out w ++ rows_report script args ++
      variant_report failed_a failed_b /\
    tables_reported (simple_row_a pool) (simple_row_b pool)
      (Z.to_nat (rows_used (script :: args) 1))
      (Z.to_nat (rows_used (script :: args) 2)) failed_a failed_b w w'.
Proof.
  destruct (simple_generate_data_run script args w)
    as (w1 & w2 & pool & w3 & w' & Hra & Hrb & Hpool & Hwrite & Hrun &
        [[[_ Hf2] Hfs2] _] & [[_ Hf3] Hfs3] & Hne & Hlen & Hrange & _).
  destruct (read_num_rows_report script args w)
    as (w1' & w2' & Hra' & Hrb' & _ & _ & Ho2).
  rewrite Hra in Hra'. injection Hra' as <-.
  rewrite Hrb in Hrb'. injection Hrb' as <-.
  set (a := rows_used (script :: args) 1) in *.
  set (b := rows_used (script :: args) 2) in *.
  pose proof (wp_done _ _ _ _ _ _ (quiet_make_key_pool a b w2) Hpool) as Ho3.
  destruct (two_writers_reported (SimpleGen.write_a a pool) (SimpleGen.write_b b pool)
    (simple_row_a pool) (simple_row_b pool) _ _ w3 w'
    (fun w1 => simple_write_a_exact a pool w1 Hne)
    (fun w1 => simple_write_b_exact b pool w1 Hne)
    (fun w1 => simple_write_a_report a pool w1 Hne)
    (fun w1 => simple_write_b_report b pool w1 Hne) Hwrite) as [Hout Hfiles].
  exists w1, w2, pool, w3,
    (fault_hits (w_faults w "A.txt") (Z.to_nat a)),
    (fault_hits (w_faults w "B.txt") (Z.to_nat b)), w'.
  split; [done|]. split; [done|]. split; [done|]. split; [done|]. split; [done|].
  split; [done|]. split; [by rewrite Hlen|]. split.
  - by rewrite Hout, Ho3, Ho2, Hf3, Hf2, <- app_assoc.
  - unfold tables_reported in *. by rewrite <- Hfs2, <- Hfs3, <- Hf2, <- Hf3.
Qed.

End VariantFiles.
